(** * Web-Directory: the bookmark store and its query layer

    The repository holds two implementations of one bookmark manager over
    IndexedDB: [script.js] (classes [BookmarkDB] and [BookmarkApp]) and a
    second, function-style file (constants [DB_NAME], [STORE], [PAGE_SIZE]).
    Both are embedded here, each in a module of its own ([Script] and
    [Unnamed]), over a common model of the JavaScript built-ins they call
    and of the IndexedDB object store.

    DOM reads become function arguments, DOM writes (cards, toasts, focus)
    are left out, and a promise that resolves or rejects becomes a value of
    [Promise]. *)

From Stdlib Require Import ZArith List Lia Bool String Ascii Decimal.
From Stdlib Require Import Sorting.Sorted Sorting.Permutation.
From Stdlib Require DecimalPos.
From stdpp Require Import base option list gmap.

Local Open Scope Z_scope.

(** ** JavaScript strings

    A JavaScript string is a sequence of UTF-16 code units. *)

Abbreviation jsstring := (list N).

(** A literal of ASCII characters as a JavaScript string. *)
Definition str (s : string) : jsstring :=
  List.map N_of_ascii (list_ascii_of_string s).
Arguments str s%_string.

(** [\s] of a regular expression and the characters [String.prototype.trim]
    removes are the same set: WhiteSpace and LineTerminator of ECMAScript. *)
Definition isWhiteSpace (c : N) : bool :=
  ((9 <=? c) && (c <=? 13) || (c =? 32) || (c =? 160) || (c =? 5760)
   || (8192 <=? c) && (c <=? 8202) || (c =? 8232) || (c =? 8233)
   || (c =? 8239) || (c =? 8287) || (c =? 12288) || (c =? 65279))%N.

Fixpoint trimStart (s : jsstring) : jsstring :=
  match s with
  | c :: s' => if isWhiteSpace c then trimStart s' else s
  | [] => []
  end.

Definition trimEnd (s : jsstring) : jsstring := rev (trimStart (rev s)).

Definition trim (s : jsstring) : jsstring := trimEnd (trimStart s).

(** A string is falsy exactly when it is empty. *)
Definition truthy (s : jsstring) : bool :=
  match s with [] => false | _ => true end.

Fixpoint startsWith (s p : jsstring) : bool :=
  match p, s with
  | [], _ => true
  | c :: p', d :: s' => (c =? d)%N && startsWith s' p'
  | _ :: _, [] => false
  end.

(** [s.includes(sub)] *)
Fixpoint includes (s sub : jsstring) : bool :=
  startsWith s sub ||
  match s with
  | [] => false
  | _ :: s' => includes s' sub
  end.

(** [parts.join(sep)] *)
Fixpoint join (sep : jsstring) (parts : list jsstring) : jsstring :=
  match parts with
  | [] => []
  | [p] => p
  | p :: rest => p ++ sep ++ join sep rest
  end.

(** [s.split(",")] and the like, for a separator of one code unit: every
    occurrence separates, so adjacent separators give an empty piece. The
    accumulator [cur] holds the current piece reversed. *)
Fixpoint split_at (sep : N) (cur s : jsstring) : list jsstring :=
  match s with
  | [] => [rev cur]
  | c :: s' =>
      if (c =? sep)%N then rev cur :: split_at sep [] s'
      else split_at sep (c :: cur) s'
  end.

Definition split_char (sep : N) (s : jsstring) : list jsstring :=
  split_at sep [] s.

(** [s.split(/[...]+/)] for a character class [cls]: a maximal run of class
    members is one separator; a separator at either end of the string leaves
    an empty piece there. [split_piece] reads a piece, [split_gap] the rest
    of a separator run. *)
Fixpoint split_piece (cls : N -> bool) (cur s : jsstring) : list jsstring :=
  match s with
  | [] => [rev cur]
  | c :: s' =>
      if cls c then rev cur :: split_gap cls s'
      else split_piece cls (c :: cur) s'
  end
with split_gap (cls : N -> bool) (s : jsstring) : list jsstring :=
  match s with
  | [] => [[]]
  | c :: s' =>
      if cls c then split_gap cls s'
      else split_piece cls [c] s'
  end.

Definition split_runs (cls : N -> bool) (s : jsstring) : list jsstring :=
  split_piece cls [] s.

(** [String(n)] for an integer. *)
Fixpoint digits (u : Decimal.uint) : jsstring :=
  match u with
  | Nil => []
  | D0 u => 48%N :: digits u
  | D1 u => 49%N :: digits u
  | D2 u => 50%N :: digits u
  | D3 u => 51%N :: digits u
  | D4 u => 52%N :: digits u
  | D5 u => 53%N :: digits u
  | D6 u => 54%N :: digits u
  | D7 u => 55%N :: digits u
  | D8 u => 56%N :: digits u
  | D9 u => 57%N :: digits u
  end.

Definition String_of (n : Z) : jsstring :=
  match Z.to_int n with
  | Pos u => digits u
  | Neg u => 45%N :: digits u
  end.

(** [s.padStart(n, fill)] for a fill string of one code unit. *)
Definition padStart (n : nat) (fill : N) (s : jsstring) : jsstring :=
  replicate (n - length s)%nat fill ++ s.

(** [Math.ceil(a / b)] for integers, [b] positive. *)
Definition Math_ceil_div (a b : Z) : Z := - ((- a) / b).

(** [arr.slice(start, end)]: a negative index counts from the end, and both
    are clamped to the array. *)
Definition slice {A} (l : list A) (start stop : Z) : list A :=
  let len := Z.of_nat (length l) in
  let k := if start <? 0 then Z.max (len + start) 0 else Z.min start len in
  let final := if stop <? 0 then Z.max (len + stop) 0 else Z.min stop len in
  take (Z.to_nat (final - k)) (drop (Z.to_nat k) l).

(** ** What the browser supplies

    Three built-ins are tables or parsers of the platform, not code of this
    repository; the embedding is parametric in them.
    - [toLowerCase s] is [s.toLowerCase()] (Unicode case mapping);
    - [Date_parse s] is [new Date(s).getTime()], [None] for [NaN]; how the
      text "YYYY-MM-DD HH:MM" is read is left to the engine;
    - [URL_protocol s] is [new URL(s).protocol], [None] when the constructor
      throws. *)

Class Platform := {
  toLowerCase : jsstring -> jsstring;
  Date_parse : jsstring -> option Z;
  URL_protocol : jsstring -> option jsstring
}.

(** What a [Date] object answers to the local-time getters the code calls. *)
Record Date := {
  getFullYear : Z;
  getMonth : Z;
  getDate : Z;
  getHours : Z;
  getMinutes : Z
}.

(** ** Records *)

(** A stored record: the object store injects the key at [keyPath: 'id']. *)
Record Bookmark := {
  b_id : nat;
  b_name : jsstring;
  b_url : jsstring;
  b_tags : list jsstring;
  b_createdAt : jsstring
}.

(** An object handed to [objectStore.add]: a record that has no key yet. *)
Record Item := {
  i_name : jsstring;
  i_url : jsstring;
  i_tags : list jsstring;
  i_createdAt : jsstring
}.

(** The [{ name, url, tags }] object the form handlers build for a create. *)
Record Draft := {
  d_name : jsstring;
  d_url : jsstring;
  d_tags : list jsstring
}.

(** The object handed to an update; [createdAt] may be absent. *)
Record Patch := {
  p_name : jsstring;
  p_url : jsstring;
  p_tags : list jsstring;
  p_createdAt : option jsstring
}.

(** ** The IndexedDB object store

    [createObjectStore(_, { keyPath: 'id', autoIncrement: true })]: a map
    from keys to records and a key generator holding the last key it gave
    out. Requests of the engine that fail (quota, I/O) are not modelled: a
    request here always succeeds. *)

Record ObjectStore := {
  records : gmap nat Bookmark;
  keygen : nat
}.

Definition empty_store : ObjectStore := {| records := ∅; keygen := 0 |}.

Definition keyed (k : nat) (it : Item) : Bookmark :=
  {| b_id := k; b_name := i_name it; b_url := i_url it;
     b_tags := i_tags it; b_createdAt := i_createdAt it |}.

(** [objectStore.add(value)] for a value without [id]: the generator gives
    the next key, which is the request's result. *)
Definition IDB_add (st : ObjectStore) (it : Item) : ObjectStore * nat :=
  let k := S (keygen st) in
  ({| records := <[k := keyed k it]> (records st); keygen := k |}, k).

(** [objectStore.put(value)] for a value that carries its key. *)
Definition IDB_put (st : ObjectStore) (b : Bookmark) : ObjectStore * nat :=
  ({| records := <[b_id b := b]> (records st);
      keygen := Nat.max (keygen st) (b_id b) |}, b_id b).

(** [objectStore.get(key)]: [None] stands for [undefined]. *)
Definition IDB_get (st : ObjectStore) (k : nat) : option Bookmark :=
  records st !! k.

(** [objectStore.delete(key)]: the request succeeds whether or not a record
    has that key. *)
Definition IDB_delete (st : ObjectStore) (k : nat) : ObjectStore :=
  {| records := delete k (records st); keygen := keygen st |}.

(** [objectStore.getAll()]: every record, in ascending key order. *)
Definition IDB_getAll (st : ObjectStore) : list Bookmark :=
  omap (fun k => records st !! k) (seq 1 (keygen st)).

(** Every key in use came from the generator. *)
Definition store_wf (st : ObjectStore) : Prop :=
  forall k b, records st !! k = Some b -> b_id b = k /\ (1 <= k <= keygen st)%nat.

(** ** Promises *)

Inductive Error :=
  | Error_not_found.   (* new Error('Bookmark not found'), new Error('Not found') *)

Inductive Promise (A : Type) :=
  | Resolved (v : A)
  | Rejected (e : Error).
Arguments Resolved {A} v.
Arguments Rejected {A} e.

(** ** [Array.prototype.sort]

    The sort is stable (ECMAScript 2019). A comparator result is a number or
    [NaN] ([None]), and [NaN] counts as [+0]. A stable sort has one result
    for a consistent comparator, so any stable algorithm models it; this one
    inserts each element before the sorted rest, past the elements that must
    precede it. For a comparator that is not consistent (a [NaN] between
    elements that other comparisons tell apart) the language leaves the
    order to the engine: the result here is then one order a stable sort
    can give, and only membership and permutation are general facts. *)

Definition cmp_positive (v : option Z) : bool :=
  match v with
  | Some z => 0 <? z
  | None => false
  end.

Section Sort.
Context {A : Type} (cmp : A -> A -> option Z).

Fixpoint sort_insert (x : A) (l : list A) : list A :=
  match l with
  | [] => [x]
  | y :: l' =>
      if cmp_positive (cmp x y) then y :: sort_insert x l'
      else x :: l
  end.

Fixpoint Array_sort (l : list A) : list A :=
  match l with
  | [] => []
  | x :: l' => sort_insert x (Array_sort l')
  end.
End Sort.


(** An id held in a field that may be [null]: a number is truthy unless it
    is 0, [null] is falsy. *)
Definition truthy_id (i : option nat) : option nat :=
  match i with
  | Some (S n) => Some (S n)
  | _ => None
  end.

(** Cells of an exported row: the id is a number, the rest are strings. *)
Inductive Cell :=
  | CellNum (n : nat)
  | CellStr (s : jsstring).

(** [String(cell)] for a cell of an exported row. *)
Definition String_of_cell (c : Cell) : jsstring :=
  match c with
  | CellNum n => String_of (Z.of_nat n)
  | CellStr s => s
  end.

(** [s.replace(/c/g, by)] for a pattern of one character. *)
Definition replaceAll (c : N) (by_ : jsstring) (s : jsstring) : jsstring :=
  flat_map (fun d => if (d =? c)%N then by_ else [d]) s.

(** The values [i] takes in [for (let i = a; i <= b; i++)]. *)
Definition for_range (a b : Z) : list Z := seqZ a (b - a + 1).

(** [new URL(s)] again, for the two parts [truncateUrl] reads: the host
    name and the path, [None] when the constructor throws. *)
Class UrlParts := {
  URL_hostname_pathname : jsstring -> option (jsstring * jsstring)
}.

(** * [script.js] *)

Module Script.
Section WithPlatform.
Context `{Platform}.

(** ** [class BookmarkDB] *)

(** The template string of [add]: the year as it prints, the other four
    fields padded to two places. *)
Definition formattedDate (now : Date) : jsstring :=
  let year := String_of (getFullYear now) in
  let month := padStart 2 48 (String_of (getMonth now + 1)) in
  let day := padStart 2 48 (String_of (getDate now)) in
  let hours := padStart 2 48 (String_of (getHours now)) in
  let minutes := padStart 2 48 (String_of (getMinutes now)) in
  year ++ str "-" ++ month ++ str "-" ++ day ++ str " " ++ hours ++ str ":" ++ minutes.

(** [bookmark.tags || []] is [bookmark.tags]: an array is truthy. *)
Definition add (db : ObjectStore) (now : Date) (bookmark : Draft)
  : ObjectStore * Promise nat :=
  let bookmarkData :=
    {| i_name := d_name bookmark; i_url := d_url bookmark;
       i_tags := d_tags bookmark; i_createdAt := formattedDate now |} in
  let '(db', key) := IDB_add db bookmarkData in
  (db', Resolved key).

(** Only [name], [url] and [tags] of the argument are read. *)
Definition update (db : ObjectStore) (id : nat) (bookmark : Patch)
  : ObjectStore * Promise nat :=
  match IDB_get db id with
  | Some data =>
      let data' :=
        {| b_id := b_id data; b_name := p_name bookmark; b_url := p_url bookmark;
           b_tags := p_tags bookmark; b_createdAt := b_createdAt data |} in
      let '(db', key) := IDB_put db data' in
      (db', Resolved key)
  | None => (db, Rejected Error_not_found)
  end.

Definition delete (db : ObjectStore) (id : nat) : ObjectStore * Promise unit :=
  (IDB_delete db id, Resolved tt).

Definition getAll (db : ObjectStore) : list Bookmark := IDB_getAll db.

Definition get (db : ObjectStore) (id : nat) : option Bookmark := IDB_get db id.

Definition search (db : ObjectStore) (query : jsstring) : list Bookmark :=
  let allBookmarks := getAll db in
  let searchTerm := trim (toLowerCase query) in
  if negb (truthy searchTerm) then allBookmarks
  else
    List.filter (fun bookmark =>
      let nameMatch := includes (toLowerCase (b_name bookmark)) searchTerm in
      let urlMatch := includes (toLowerCase (b_url bookmark)) searchTerm in
      let tagsMatch :=
        existsb (fun tag => includes (toLowerCase tag) searchTerm) (b_tags bookmark) in
      nameMatch || urlMatch || tagsMatch) allBookmarks.

(** ** [class BookmarkApp] *)

Record App := {
  db : ObjectStore;
  currentPage : Z;
  itemsPerPage : Z;
  allBookmarks : list Bookmark;
  filteredBookmarks : list Bookmark;
  currentEditId : option nat;
  deleteTargetId : option nat
}.

(** The constructor, before [init] runs. *)
Definition new_App (store : ObjectStore) : App :=
  {| db := store; currentPage := 1; itemsPerPage := 12;
     allBookmarks := []; filteredBookmarks := [];
     currentEditId := None; deleteTargetId := None |}.

(** [new Date(b.createdAt) - new Date(a.createdAt)] *)
Definition byCreatedAtDesc (a b : Bookmark) : option Z :=
  match Date_parse (b_createdAt b), Date_parse (b_createdAt a) with
  | Some tb, Some ta => Some (tb - ta)
  | _, _ => None
  end.

Definition loadBookmarks (app : App) (searchQuery : jsstring) : App :=
  let '(all, filtered) :=
    if truthy searchQuery then (allBookmarks app, search (db app) searchQuery)
    else (getAll (db app), getAll (db app)) in
  {| db := db app; currentPage := 1; itemsPerPage := itemsPerPage app;
     allBookmarks := all;
     filteredBookmarks := Array_sort byCreatedAtDesc filtered;
     currentEditId := currentEditId app; deleteTargetId := deleteTargetId app |}.

(** The cards [renderBookmarks] draws. *)
Definition pageBookmarks (app : App) : list Bookmark :=
  let startIndex := (currentPage app - 1) * itemsPerPage app in
  let endIndex := startIndex + itemsPerPage app in
  slice (filteredBookmarks app) startIndex endIndex.

Definition totalPages (app : App) : Z :=
  Math_ceil_div (Z.of_nat (length (filteredBookmarks app))) (itemsPerPage app).

Definition goToPage (app : App) (page : Z) : App :=
  if (page <? 1) || (totalPages app <? page) then app
  else
    {| db := db app; currentPage := page; itemsPerPage := itemsPerPage app;
       allBookmarks := allBookmarks app; filteredBookmarks := filteredBookmarks app;
       currentEditId := currentEditId app; deleteTargetId := deleteTargetId app |}.

Definition set_edit (app : App) (e : option nat) : App :=
  {| db := db app; currentPage := currentPage app; itemsPerPage := itemsPerPage app;
     allBookmarks := allBookmarks app; filteredBookmarks := filteredBookmarks app;
     currentEditId := e; deleteTargetId := deleteTargetId app |}.

Definition set_delete (app : App) (d : option nat) : App :=
  {| db := db app; currentPage := currentPage app; itemsPerPage := itemsPerPage app;
     allBookmarks := allBookmarks app; filteredBookmarks := filteredBookmarks app;
     currentEditId := currentEditId app; deleteTargetId := d |}.

Definition set_db (app : App) (store : ObjectStore) : App :=
  {| db := store; currentPage := currentPage app; itemsPerPage := itemsPerPage app;
     allBookmarks := allBookmarks app; filteredBookmarks := filteredBookmarks app;
     currentEditId := currentEditId app; deleteTargetId := deleteTargetId app |}.

Inductive Toast :=
  | Toast_required      (* '请填写必填项' *)
  | Toast_invalid_url   (* '请输入有效的网址' *)
  | Toast_updated       (* '更新成功' *)
  | Toast_added         (* '添加成功' *)
  | Toast_save_failed   (* '保存失败' *)
  | Toast_deleted       (* '删除成功' *)
  | Toast_missing       (* '找不到该收藏' *)
  | Toast_nothing_to_export (* '没有数据可导出' *)
  | Toast_exported.     (* '导出成功' *)

Definition showAddModal (app : App) : App := set_edit app None.

Definition showEditModal (app : App) (id : nat) : App * option Toast :=
  match get (db app) id with
  | None => (app, Some Toast_missing)
  | Some _ => (set_edit app (Some id), None)
  end.

Definition closeModal (app : App) : App := set_edit app None.
Definition showDeleteModal (app : App) (id : nat) : App := set_delete app (Some id).
Definition closeDeleteModal (app : App) : App := set_delete app None.

(** The class [[,;，；\s]] of the split in [handleFormSubmit]. *)
Definition isTagSeparator (c : N) : bool :=
  ((c =? 44) || (c =? 59) || (c =? 65292) || (c =? 65307))%N || isWhiteSpace c.

(** The loop over [tags] with its [Set] of lower-cased tags seen. *)
Fixpoint uniqueTags_loop (tags : list jsstring) (lowerCaseTags : gset jsstring)
    (uniqueTags : list jsstring) : list jsstring :=
  match tags with
  | [] => uniqueTags
  | tag :: rest =>
      let lowerTag := toLowerCase tag in
      if bool_decide (lowerTag ∈ lowerCaseTags)
      then uniqueTags_loop rest lowerCaseTags uniqueTags
      else uniqueTags_loop rest ({[lowerTag]} ∪ lowerCaseTags) (uniqueTags ++ [tag])
  end.

(** The tags of a submitted form, from the trimmed text of the field. *)
Definition formTags (tagsInput : jsstring) : list jsstring :=
  if truthy tagsInput then
    let tags :=
      List.filter (fun tag => (0 <? length tag)%nat)
        (List.map trim (split_runs isTagSeparator tagsInput)) in
    uniqueTags_loop tags ∅ []
  else [].

(** [handleFormSubmit]: the three field values and the text of the search
    box are what the handler reads from the page. *)
Definition handleFormSubmit (app : App) (now : Date)
    (bookmarkName bookmarkUrl bookmarkTags searchInput : jsstring) : App * Toast :=
  let name := trim bookmarkName in
  let url := trim bookmarkUrl in
  let tagsInput := trim bookmarkTags in
  if negb (truthy name) || negb (truthy url) then (app, Toast_required)
  else
    match URL_protocol url with
    | None => (app, Toast_invalid_url)
    | Some _ =>
        let tags := formTags tagsInput in
        match truthy_id (currentEditId app) with
        | Some editId =>
            match update (db app) editId
                    {| p_name := name; p_url := url; p_tags := tags; p_createdAt := None |} with
            | (db', Resolved _) =>
                (loadBookmarks (closeModal (set_db app db')) searchInput, Toast_updated)
            | (db', Rejected _) => (set_db app db', Toast_save_failed)
            end
        | None =>
            match add (db app) now {| d_name := name; d_url := url; d_tags := tags |} with
            | (db', Resolved _) =>
                (loadBookmarks (closeModal (set_db app db')) searchInput, Toast_added)
            | (db', Rejected _) => (set_db app db', Toast_save_failed)
            end
        end
    end.

Definition confirmDelete (app : App) (searchInput : jsstring) : App * option Toast :=
  match truthy_id (deleteTargetId app) with
  | None => (app, None)
  | Some target =>
      match delete (db app) target with
      | (db', Resolved _) =>
          (loadBookmarks (closeDeleteModal (set_db app db')) searchInput, Some Toast_deleted)
      | (db', Rejected _) => (set_db app db', Some Toast_save_failed)
      end
  end.

Definition handleSearch (app : App) (searchInput : jsstring) : App :=
  let query := trim searchInput in
  loadBookmarks app query.

(** ** Export *)

(** ['ID', '网站名称', '网址', '分类标签', '创建日期'] *)
Definition headers : list jsstring :=
  [ str "ID";
    [32593; 31449; 21517; 31216]%N;
    [32593; 22336]%N;
    [20998; 31867; 26631; 31614]%N;
    [21019; 24314; 26085; 26399]%N ].

Definition export_row (b : Bookmark) : list Cell :=
  [ CellNum (b_id b); CellStr (b_name b); CellStr (b_url b);
    CellStr (join [65292%N] (b_tags b)); CellStr (b_createdAt b) ].

(** [exportToExcel] up to [rows]; the CSV text and the download are the
    page's business. [None]: nothing is exported. *)
Definition exportToExcel (app : App) : option (list jsstring * list (list Cell)) * Toast :=
  let bookmarks := getAll (db app) in
  if (length bookmarks =? 0)%nat then (None, Toast_nothing_to_export)
  else
    let sorted := Array_sort byCreatedAtDesc bookmarks in
    (Some (headers, List.map export_row sorted), Toast_exported).

(** [exportToExcel] from [rows] on: every cell in double quotes, a double
    quote inside a cell written twice, cells joined by commas, lines by
    line feeds; the title line is joined as it is. *)
Definition csv_cell (cell : Cell) : jsstring :=
  [34%N] ++ replaceAll 34 [34; 34]%N (String_of_cell cell) ++ [34%N].

Definition csvContent (titles : list jsstring) (rows : list (list Cell)) : jsstring :=
  join [10%N]
    (join [44%N] titles :: List.map (fun row => join [44%N] (List.map csv_cell row)) rows).

(** The text of the downloaded file: a byte order mark, then the CSV. *)
Definition export_file (app : App) : option jsstring :=
  match fst (exportToExcel app) with
  | Some (titles, rows) => Some (65279%N :: csvContent titles rows)
  | None => None
  end.

(** ** Start and statistics *)

(** [init] once the database is open: the first load, without a query. *)
Definition init (store : ObjectStore) : App := loadBookmarks (new_App store) [].

(** [updateStats]: the two counters it writes. *)
Definition updateStats (app : App) : nat * nat :=
  (length (allBookmarks app), length (filteredBookmarks app)).

(** The values [showEditModal] puts in the name, url and tags fields. *)
Definition editFields (bookmark : Bookmark) : jsstring * jsstring * jsstring :=
  (b_name bookmark, b_url bookmark, join [65292%N] (b_tags bookmark)).

(** ** Pagination controls *)

Inductive PageItem :=
  | PageNum (n : Z)
  | PageDots.          (* '...' *)

Definition getPageNumbers (app : App) (totalPages : Z) : list PageItem :=
  let current := currentPage app in
  if totalPages <=? 7 then List.map PageNum (for_range 1 totalPages)
  else if current <=? 3 then
    List.map PageNum (for_range 1 4) ++ [PageDots] ++ [PageNum totalPages]
  else if totalPages - 2 <=? current then
    [PageNum 1] ++ [PageDots] ++ List.map PageNum (for_range (totalPages - 3) totalPages)
  else
    [PageNum 1] ++ [PageDots]
    ++ List.map PageNum (for_range (current - 1) (current + 1))
    ++ [PageDots] ++ [PageNum totalPages].

(** A button of the pagination bar: the page its [onclick] asks for,
    whether it is [disabled], whether it carries the class [active]. *)
Record PageButton := {
  target : Z;
  disabled : bool;
  active : bool
}.

Inductive Control :=
  | Control_button (b : PageButton)
  | Control_ellipsis.

Definition renderPagination (app : App) : list Control :=
  let totalPages := totalPages app in
  if totalPages <=? 1 then []
  else
    [Control_button {| target := currentPage app - 1;
                       disabled := currentPage app =? 1; active := false |}]
    ++ List.map (fun page =>
                   match page with
                   | PageDots => Control_ellipsis
                   | PageNum p =>
                       Control_button {| target := p; disabled := false;
                                         active := p =? currentPage app |}
                   end) (getPageNumbers app totalPages)
    ++ [Control_button {| target := currentPage app + 1;
                          disabled := currentPage app =? totalPages; active := false |}].

(** ** Utilities *)

Inductive RelativeDate :=
  | Today                 (* '今天' *)
  | Yesterday             (* '昨天' *)
  | DaysAgo (days : Z)    (* `${days}天前` *)
  | WeeksAgo (weeks : Z)  (* `${Math.floor(days / 7)}周前` *)
  | MonthsAgo (months : Z) (* `${Math.floor(days / 30)}个月前` *)
  | LocaleDate.           (* date.toLocaleDateString('zh-CN', ...) *)

(** [formatDate], with [now] the clock in milliseconds. For an invalid
    date [days] is [NaN], every comparison fails and the last line runs. *)
Definition formatDate (now : Z) (dateString : jsstring) : RelativeDate :=
  match Date_parse dateString with
  | None => LocaleDate
  | Some date =>
      let diff := now - date in
      let days := diff / (1000 * 60 * 60 * 24) in
      if days =? 0 then Today
      else if days =? 1 then Yesterday
      else if days <? 7 then DaysAgo days
      else if days <? 30 then WeeksAgo (days / 7)
      else if days <? 365 then MonthsAgo (days / 30)
      else LocaleDate
  end.

Context `{UrlParts}.

Definition truncateUrl (url : jsstring) : jsstring :=
  match URL_hostname_pathname url with
  | Some (hostname, pathname) =>
      let display := hostname ++ pathname in
      if (50 <? length display)%nat then take 47 display ++ str "..." else display
  | None =>
      if (50 <? length url)%nat then take 47 url ++ str "..." else url
  end.

End WithPlatform.
End Script.

(** * The second implementation (the file with [PAGE_SIZE] and [state]) *)

Module Unnamed.
Section WithPlatform.
Context `{Platform}.

Definition PAGE_SIZE : Z := 12.

Record State := {
  db : ObjectStore;
  items : list Bookmark;
  total : Z;
  page : Z;
  keyword : jsstring;
  deletingId : option nat
}.

Definition initial_state (store : ObjectStore) : State :=
  {| db := store; items := []; total := 0; page := 1; keyword := []; deletingId := None |}.

(** ** Utilities *)

Definition pad (n : Z) : jsstring := padStart 2 48 (String_of n).

Definition fmtDate (d : Date) : jsstring :=
  let year := String_of (getFullYear d) in
  let month := pad (getMonth d + 1) in
  let day := pad (getDate d) in
  let hh := pad (getHours d) in
  let mm := pad (getMinutes d) in
  year ++ str "-" ++ month ++ str "-" ++ day ++ str " " ++ hh ++ str ":" ++ mm.

Definition isValidUrl (url : jsstring) : bool :=
  match URL_protocol url with
  | Some protocol =>
      bool_decide (protocol = str "http:") || bool_decide (protocol = str "https:")
  | None => false
  end.

Definition parseTags (input : jsstring) : list jsstring :=
  if negb (truthy input) then []
  else
    slice (List.filter truthy (List.map trim (split_char 44 input))) 0 12.

(** ** IndexedDB helpers *)

Definition addBookmark (store : ObjectStore) (data : Item) : ObjectStore * Promise nat :=
  let '(store', key) := IDB_add store data in
  (store', Resolved key).

(** [{ ...val, ...data, id }] *)
Definition merge (val : Bookmark) (data : Patch) (id : nat) : Bookmark :=
  {| b_id := id; b_name := p_name data; b_url := p_url data; b_tags := p_tags data;
     b_createdAt := match p_createdAt data with
                    | Some c => c
                    | None => b_createdAt val
                    end |}.

Definition updateBookmark (store : ObjectStore) (id : nat) (data : Patch)
  : ObjectStore * Promise bool :=
  match IDB_get store id with
  | None => (store, Rejected Error_not_found)
  | Some val =>
      let next := merge val data id in
      let '(store', _) := IDB_put store next in
      (store', Resolved true)
  end.

Definition deleteBookmark (store : ObjectStore) (id : nat) : ObjectStore * Promise bool :=
  (IDB_delete store id, Resolved true).

Definition getAllBookmarks (store : ObjectStore) : list Bookmark := IDB_getAll store.

(** ** Search *)

(** [item.name || ''] and the like are the field itself: every stored
    record has its four fields. *)
Definition matchesKeyword (item : Bookmark) (kw : jsstring) : bool :=
  if negb (truthy kw) then true
  else
    let s := toLowerCase kw in
    let name := toLowerCase (b_name item) in
    let url := toLowerCase (b_url item) in
    let tags := toLowerCase (join (str ",") (b_tags item)) in
    includes name s || includes url s || includes tags s.

(** ** Rendering *)

Definition set_page (st : State) (p : Z) : State :=
  {| db := db st; items := items st; total := total st; page := p;
     keyword := keyword st; deletingId := deletingId st |}.

Definition pages_of (n : nat) : Z :=
  Z.max 1 (Math_ceil_div (Z.of_nat n) PAGE_SIZE).

(** [renderList]: the state it leaves and the cards it draws. *)
Definition renderList (st : State) : State * list Bookmark :=
  let total := Z.of_nat (length (items st)) in
  let pages := pages_of (length (items st)) in
  let page' := if pages <? page st then pages else page st in
  let start := (page' - 1) * PAGE_SIZE in
  ({| db := db st; items := items st; total := total; page := page';
      keyword := keyword st; deletingId := deletingId st |},
   slice (items st) start (start + PAGE_SIZE)).

(** [onPageClick] for a finite page number [p]. *)
Definition onPageClick (st : State) (p : Z) : State * list Bookmark :=
  renderList (set_page st p).

(** ** Data pipeline *)

(** [new Date(x.createdAt || 0).getTime()] *)
Definition time_of (x : Bookmark) : option Z :=
  if truthy (b_createdAt x) then Date_parse (b_createdAt x) else Some 0.

Definition byCreatedAtDesc (a b : Bookmark) : option Z :=
  match time_of a, time_of b with
  | Some da, Some db => Some (db - da)
  | _, _ => None
  end.

Definition refreshList (st : State) : State * list Bookmark :=
  let all := getAllBookmarks (db st) in
  let filtered :=
    if truthy (keyword st) then List.filter (fun x => matchesKeyword x (keyword st)) all
    else all in
  renderList
    {| db := db st; items := Array_sort byCreatedAtDesc filtered; total := total st;
       page := page st; keyword := keyword st; deletingId := deletingId st |}.

(** ** Form submit *)

Inductive Mode := mode_add | mode_edit.

Inductive Outcome :=
  | Invalid_url     (* '请输入合法的网址 (http/https)' *)
  | Invalid_name    (* '请输入网站名称' *)
  | Saved
  | Save_failed.    (* alert('保存失败，请重试') *)

Definition set_db (st : State) (store : ObjectStore) : State :=
  {| db := store; items := items st; total := total st; page := page st;
     keyword := keyword st; deletingId := deletingId st |}.

(** [onFormSubmit]: [mode] is the form's [data-mode], [f_id] the number
    in the id field, the four texts the values of the other fields. *)
Definition onFormSubmit (st : State) (now : Date) (mode : Mode) (f_id : nat)
    (f_url f_name f_tags f_createdAt : jsstring) : State * Outcome :=
  let url := trim f_url in
  let name := trim f_name in
  let tags := parseTags f_tags in
  let createdAt := trim f_createdAt in
  if negb (isValidUrl url) then (st, Invalid_url)
  else if negb (truthy name) then (st, Invalid_name)
  else
    let '(store', saved) :=
      match mode with
      | mode_add =>
          let item := {| i_name := name; i_url := url; i_tags := tags;
                         i_createdAt := fmtDate now |} in
          let '(s, r) := addBookmark (db st) item in
          (s, match r with Resolved _ => true | Rejected _ => false end)
      | mode_edit =>
          let data := {| p_name := name; p_url := url; p_tags := tags;
                         p_createdAt := if truthy createdAt then Some createdAt else None |} in
          let '(s, r) := updateBookmark (db st) f_id data in
          (s, match r with Resolved _ => true | Rejected _ => false end)
      end in
    if saved then (fst (refreshList (set_db st store')), Saved)
    else (set_db st store', Save_failed).

Definition onConfirmDelete (st : State) : State :=
  match truthy_id (deletingId st) with
  | None => st
  | Some target =>
      let '(store', _) := deleteBookmark (db st) target in
      fst (refreshList
             {| db := store'; items := items st; total := total st; page := page st;
                keyword := keyword st; deletingId := None |})
  end.

Definition onSearch (st : State) (searchInput : jsstring) : State * list Bookmark :=
  refreshList
    {| db := db st; items := items st; total := total st; page := 1;
       keyword := trim searchInput; deletingId := deletingId st |}.

(** ** Export *)

(** One row object of [exportToExcel]: its keys in the order written,
    which is the column order of the sheet. *)
Definition export_row (item : Bookmark) : list (jsstring * Cell) :=
  [ (str "ID", CellNum (b_id item));
    ([32593; 31449; 21517; 31216]%N, CellStr (b_name item));
    ([32593; 22336]%N, CellStr (b_url item));
    ([20998; 31867; 26631; 31614]%N, CellStr (join (str ", ") (b_tags item)));
    ([21019; 24314; 26085; 26399]%N, CellStr (b_createdAt item)) ].

Definition exportToExcel (st : State) : list (list (jsstring * Cell)) :=
  List.map export_row (getAllBookmarks (db st)).

(** ** Escaping *)

Definition escapeHtml (s : jsstring) : jsstring :=
  replaceAll 39 (str "&#39;")
    (replaceAll 34 (str "&quot;")
       (replaceAll 62 (str "&gt;")
          (replaceAll 60 (str "&lt;")
             (replaceAll 38 (str "&amp;") s)))).

Definition escapeAttr (s : jsstring) : jsstring :=
  replaceAll 34 (str "&quot;") (escapeHtml s).

(** ** Pagination controls *)

(** A button of the pagination bar: its [data-page], its label, whether
    it carries the class [active]. *)
Record PageBtn := {
  data_page : Z;
  label : jsstring;
  btn_active : bool
}.

Definition renderPagination (st : State) (pages : Z) : list PageBtn :=
  let page := page st in
  if pages <=? 1 then []
  else
    let windowSize := 5 in
    let start := Z.max 1 (page - windowSize / 2) in
    let end_ := Z.min pages (start + windowSize - 1) in
    let realStart := Z.max 1 (end_ - windowSize + 1) in
    [{| data_page := Z.max 1 (page - 1); label := [8249%N]; btn_active := false |}]
    ++ List.map (fun p => {| data_page := p; label := String_of p; btn_active := p =? page |})
         (for_range realStart end_)
    ++ [{| data_page := Z.min pages (page + 1); label := [8250%N]; btn_active := false |}].

(** The bar [renderList] draws after the cards. *)
Definition pagination_of (st : State) : list PageBtn :=
  renderPagination (fst (renderList st)) (pages_of (length (items st))).

(** ** The form *)

Record Form := {
  mode : Mode;
  f_id : nat;
  f_url : jsstring;
  f_name : jsstring;
  f_tags : jsstring;
  f_createdAt : jsstring
}.

Definition resetForm : Form :=
  {| mode := mode_add; f_id := 0; f_url := []; f_name := []; f_tags := [];
     f_createdAt := [] |}.

Definition fillFormForEdit (item : Bookmark) : Form :=
  {| mode := mode_edit; f_id := b_id item; f_url := b_url item; f_name := b_name item;
     f_tags := join (str ", ") (b_tags item); f_createdAt := b_createdAt item |}.

Inductive Action := action_edit | action_delete.

(** [onCardActionClick] on the card of [id]: the state it leaves and the
    form it fills, if it does. *)
Definition onCardActionClick (st : State) (id : nat) (action : Action)
  : State * option Form :=
  match action with
  | action_edit =>
      match List.find (fun x => (b_id x =? id)%nat) (items st) with
      | None => (st, None)
      | Some item => (st, Some (fillFormForEdit item))
      end
  | action_delete =>
      ({| db := db st; items := items st; total := total st; page := page st;
          keyword := keyword st; deletingId := Some id |}, None)
  end.

(** [onFormSubmit] reading its values from the form. *)
Definition submit (st : State) (now : Date) (form : Form) : State * Outcome :=
  onFormSubmit st now (mode form) (f_id form) (f_url form) (f_name form) (f_tags form)
    (f_createdAt form).

(** [boot] once the database is open. *)
Definition boot (store : ObjectStore) : State := fst (refreshList (initial_state store)).

End WithPlatform.
End Unnamed.

(** * Facts about the platform

    What the theorems below need of the built-ins, and a platform for ASCII
    text that has these properties, to run the code on concrete input. *)

Definition isAscii (c : N) : bool := (c <? 128)%N.

Definition ascii_lower (c : N) : N :=
  if ((65 <=? c) && (c <=? 90))%N then (c + 32)%N else c.

Definition isAsciiAlpha (c : N) : bool :=
  ((65 <=? c) && (c <=? 90) || (97 <=? c) && (c <=? 122))%N.

Definition isAsciiDigit (c : N) : bool := ((48 <=? c) && (c <=? 57))%N.

(** The URL parser first strips C0 controls and spaces from both ends and
    removes tabs and newlines. *)
Fixpoint strip_leading_c0 (s : jsstring) : jsstring :=
  match s with
  | c :: s' => if (c <=? 32)%N then strip_leading_c0 s' else s
  | [] => []
  end.

Definition url_preprocess (s : jsstring) : jsstring :=
  List.filter (fun c => negb ((c =? 9) || (c =? 10) || (c =? 13))%N)
    (rev (strip_leading_c0 (rev (strip_leading_c0 s)))).

(** The scheme state of the parser: scheme characters up to a colon. *)
Fixpoint scheme_state (buffer s : jsstring) : option jsstring :=
  match s with
  | [] => None
  | c :: s' =>
      if isAsciiAlpha c || isAsciiDigit c || (c =? 43)%N || (c =? 45)%N || (c =? 46)%N
      then scheme_state (ascii_lower c :: buffer) s'
      else if (c =? 58)%N then Some (rev buffer)
      else None
  end.

(** The scheme of a URL text, lower-cased; [None] when the text does not
    start with one. *)
Definition scheme_of (s : jsstring) : option jsstring :=
  match url_preprocess s with
  | c :: s' => if isAsciiAlpha c then scheme_state [ascii_lower c] s' else None
  | [] => None
  end.

Class PlatformLaws `{Platform} : Prop := {
  (** On ASCII text, lower-casing maps A-Z to a-z and nothing else. *)
  toLowerCase_ascii : forall s : jsstring,
    forallb isAscii s = true -> toLowerCase s = List.map ascii_lower s;
  (** Without a base URL, a text with no scheme does not parse. *)
  URL_needs_scheme : forall s : jsstring,
    scheme_of s = None -> URL_protocol s = None
}.

(** ** A platform for ASCII text *)

Definition digit_value (c : N) : option Z :=
  if isAsciiDigit c then Some (Z.of_N c - 48) else None.

(** Days from 1970-01-01 to a date of the proleptic Gregorian calendar. *)
Definition days_from_civil (y m d : Z) : Z :=
  let y' := if m <=? 2 then y - 1 else y in
  let era := y' / 400 in
  let yoe := y' - era * 400 in
  let doy := (153 * (if 2 <? m then m - 3 else m + 9) + 2) / 5 + d - 1 in
  let doe := yoe * 365 + yoe / 4 - yoe / 100 + doy in
  era * 146097 + doe - 719468.

(** Reads "YYYY-MM-DD HH:MM" into its five numbers. *)
Definition read_stamp (s : jsstring) : option (Z * Z * Z * Z * Z) :=
  match s with
  | [y1; y2; y3; y4; 45; m1; m2; 45; d1; d2; 32; h1; h2; 58; n1; n2]%N =>
      match List.map digit_value [y1; y2; y3; y4; m1; m2; d1; d2; h1; h2; n1; n2] with
      | [Some a; Some b; Some c; Some d; Some e; Some f; Some g; Some h;
         Some i; Some j; Some k; Some l] =>
          Some (1000 * a + 100 * b + 10 * c + d, 10 * e + f, 10 * g + h,
                10 * i + j, 10 * k + l)
      | _ => None
      end
  | _ => None
  end.

(** The text "YYYY-MM-DD HH:MM" as milliseconds since 1970, read as UTC. *)
Definition stamp_millis (s : jsstring) : option Z :=
  match read_stamp s with
  | Some (y, m, d, hh, mm) =>
      if (1 <=? m) && (m <=? 12) && (1 <=? d) && (d <=? 31) && (hh <=? 23) && (mm <=? 59)
      then Some ((((days_from_civil y m d) * 24 + hh) * 60 + mm) * 60000)
      else None
  | None => None
  end.

Definition ascii_platform : Platform :=
  {| toLowerCase := List.map ascii_lower;
     Date_parse := stamp_millis;
     URL_protocol := fun s =>
       match scheme_of s with
       | Some scheme => Some (scheme ++ str ":")
       | None => None
       end |}.

(** The shape "YYYY-MM-DD HH:MM": digits and the four punctuation marks. *)
Definition is_minute_stamp (s : jsstring) : bool :=
  match read_stamp s with
  | Some _ => true
  | None => false
  end.

(** A clock reading of the years 1000 to 9999. *)
Definition calendar (d : Date) : Prop :=
  1000 <= getFullYear d <= 9999 /\ 0 <= getMonth d <= 11 /\ 1 <= getDate d <= 31
  /\ 0 <= getHours d <= 23 /\ 0 <= getMinutes d <= 59.

(** * Specification-side definitions and example data

    What the theorems below are stated with: readers of the printed clock,
    the meaning of "tokens", "substring", "newest first" and "page", and
    the stores of the specification's scenarios. *)

(** ** Reading digits back *)

(** Four digits as a number, [None] for anything else. *)
Definition read4 (s : jsstring) : option Z :=
  match s with
  | [a; b; c; d] =>
      match digit_value a, digit_value b, digit_value c, digit_value d with
      | Some a, Some b, Some c, Some d => Some (1000 * a + 100 * b + 10 * c + d)
      | _, _, _, _ => None
      end
  | _ => None
  end.

(** Two digits as a number, [None] for anything else. *)
Definition read2 (s : jsstring) : option Z :=
  match s with
  | [a; b] =>
      match digit_value a, digit_value b with
      | Some a, Some b => Some (10 * a + b)
      | _, _ => None
      end
  | _ => None
  end.

(** ** Tokens *)

(** What "split on any run of separators, discard empty tokens" means: the
    text is a run of separators (possibly empty), then a token of one or
    more other characters, and so on; what follows a token is the end of
    the text or a separator. *)
Definition at_boundary (cls : N -> bool) (s : jsstring) : Prop :=
  match s with
  | [] => True
  | c :: _ => cls c = true
  end.

Inductive Tokens (cls : N -> bool) : jsstring -> list jsstring -> Prop :=
  | Tokens_done (g : jsstring) :
      forallb cls g = true -> Tokens cls g []
  | Tokens_next (g t s : jsstring) (ts : list jsstring) :
      forallb cls g = true ->
      t <> [] ->
      forallb (fun c => negb (cls c)) t = true ->
      at_boundary cls s ->
      Tokens cls s ts ->
      Tokens cls (g ++ t ++ s) (t :: ts).

(** The pieces the code keeps: trim each, drop the empty ones. *)
Definition kept_pieces (pieces : list jsstring) : list jsstring :=
  List.filter (fun tag => (0 <? length tag)%nat) (List.map trim pieces).

(** ** Substrings *)

Definition substring_of (sub s : jsstring) : Prop :=
  exists pre post, s = pre ++ sub ++ post.

(** ** Newest first *)

(** On the elements of [l] the comparator is the difference of a numeric
    key, second argument minus first. *)
Definition by_key_desc {A} (cmp : A -> A -> option Z) (key : A -> Z) (l : list A) : Prop :=
  forall a b, a ∈ l -> b ∈ l -> cmp a b = Some (key b - key a).

(** [out] is [source] sorted by time, newest first, stably: the same
    records; a record with a later time stands before every record with an
    earlier one; the records of one time are in the order of [source]. *)
Definition newest_first (time : Bookmark -> option Z) (source out : list Bookmark) : Prop :=
  out ≡ₚ source
  /\ (forall (i j : nat) (a b : Bookmark) (ta tb : Z),
        out !! i = Some a -> out !! j = Some b ->
        time a = Some ta -> time b = Some tb -> tb < ta -> (i < j)%nat)
  /\ (forall t : Z,
        List.filter (fun b => bool_decide (time b = Some t)) out
        = List.filter (fun b => bool_decide (time b = Some t)) source).

(** Every record of [l] has a time: its [createdAt] is not an invalid date. *)
Definition timed (time : Bookmark -> option Z) (l : list Bookmark) : Prop :=
  Forall (fun b => is_Some (time b)) l.


(** ** Pages *)

(** The slice both implementations take for page [k] of size [P]. *)
Definition page_slice {A} (P : Z) (l : list A) (k : Z) : list A :=
  slice l ((k - 1) * P) ((k - 1) * P + P).

(** ** Example data *)

Definition demo_now : Date :=
  {| getFullYear := 2026; getMonth := 10; getDate := 2; getHours := 9; getMinutes := 5 |}.

Definition demo_draft : Draft :=
  {| d_name := str "Rocq"; d_url := str "https://rocq-prover.org/";
     d_tags := [str "dev"; str "tools"] |}.

(** A store with one record. *)
Definition demo_store : ObjectStore := fst (Script.add empty_store demo_now demo_draft).

Definition demo_record : Bookmark :=
  {| b_id := 1; b_name := str "Rocq"; b_url := str "https://rocq-prover.org/";
     b_tags := [str "dev"; str "tools"]; b_createdAt := str "2026-11-02 09:05" |}.

Definition demo_patch : Patch :=
  {| p_name := str "Rocq Prover"; p_url := str "https://rocq-prover.org/docs";
     p_tags := [str "proofs"]; p_createdAt := Some (str "2000-01-01 00:00") |}.

Definition minute_past_nine (m : Z) : Date :=
  {| getFullYear := 2026; getMonth := 10; getDate := 2; getHours := 9; getMinutes := m |}.

Definition named (n : string) : Draft :=
  {| d_name := str n; d_url := str "https://example.org/"; d_tags := [] |}.

(** Scenario A of the specification: three creates at increasing minutes. *)
Definition store_abc : ObjectStore :=
  let s1 := fst (Script.add empty_store (minute_past_nine 1) (named "Alpha")) in
  let s2 := fst (Script.add s1 (minute_past_nine 2) (named "Beta")) in
  fst (Script.add s2 (minute_past_nine 3) (named "Gamma")).

(** Scenario C of the specification: thirteen records. *)
Definition store13 : ObjectStore :=
  fold_left (fun s m => fst (Script.add s (minute_past_nine (Z.of_nat m)) (named "site")))
    (seq 1 13) empty_store.

Definition app13 : Script.App :=
  @Script.loadBookmarks ascii_platform (Script.new_App store13) [].

(** ** Sessions

    What the page can ask of [script.js], one event at a time, as
    [bindEvents] and the inline [onclick] handlers wire it; [goToPage] is
    reachable with any number through the global [app]. *)

Inductive ScriptEvent :=
  | Ev_search (searchInput : jsstring)
  | Ev_goToPage (page : Z)
  | Ev_showAdd
  | Ev_showEdit (id : nat)
  | Ev_closeModal
  | Ev_showDelete (id : nat)
  | Ev_closeDelete
  | Ev_submit (now : Date) (bookmarkName bookmarkUrl bookmarkTags searchInput : jsstring)
  | Ev_confirmDelete (searchInput : jsstring).

Definition Script_step `{Platform} (app : Script.App) (ev : ScriptEvent) : Script.App :=
  match ev with
  | Ev_search searchInput => Script.handleSearch app searchInput
  | Ev_goToPage page => Script.goToPage app page
  | Ev_showAdd => Script.showAddModal app
  | Ev_showEdit id => fst (Script.showEditModal app id)
  | Ev_closeModal => Script.closeModal app
  | Ev_showDelete id => Script.showDeleteModal app id
  | Ev_closeDelete => Script.closeDeleteModal app
  | Ev_submit now n u t q => fst (Script.handleFormSubmit app now n u t q)
  | Ev_confirmDelete q => fst (Script.confirmDelete app q)
  end.

Definition Script_run `{Platform} (app : Script.App) (evs : list ScriptEvent) : Script.App :=
  fold_left Script_step evs app.

(** What every state of a session of [script.js] satisfies. *)
Definition Script_inv (app : Script.App) : Prop :=
  store_wf (Script.db app)
  /\ Script.itemsPerPage app = 12
  /\ 1 <= Script.currentPage app <= Z.max 1 (Script.totalPages app)
  /\ (forall b, b ∈ Script.filteredBookmarks app ->
                Script.get (Script.db app) (b_id b) = Some b).

(** The same for the second implementation: a click on the pagination bar
    is a click on one of the buttons drawn, the [n]-th. *)
Inductive UnnamedEvent :=
  | Un_search (searchInput : jsstring)
  | Un_pageClick (n : nat)
  | Un_card (id : nat) (action : Unnamed.Action)
  | Un_submit (now : Date) (form : Unnamed.Form)
  | Un_confirmDelete.

Definition Unnamed_step `{Platform} (st : Unnamed.State) (ev : UnnamedEvent)
  : Unnamed.State :=
  match ev with
  | Un_search searchInput => fst (Unnamed.onSearch st searchInput)
  | Un_pageClick n =>
      match Unnamed.pagination_of st !! n with
      | Some b => fst (Unnamed.onPageClick st (Unnamed.data_page b))
      | None => st
      end
  | Un_card id action => fst (Unnamed.onCardActionClick st id action)
  | Un_submit now form => fst (Unnamed.submit st now form)
  | Un_confirmDelete => Unnamed.onConfirmDelete st
  end.

Definition Unnamed_run `{Platform} (st : Unnamed.State) (evs : list UnnamedEvent)
  : Unnamed.State :=
  fold_left Unnamed_step evs st.

Definition Unnamed_inv (st : Unnamed.State) : Prop :=
  store_wf (Unnamed.db st)
  /\ 1 <= Unnamed.page st <= Unnamed.pages_of (length (Unnamed.items st))
  /\ (forall b, b ∈ Unnamed.items st -> IDB_get (Unnamed.db st) (b_id b) = Some b).

(** ** Pagination bars *)

(** The page numbers among the items of [getPageNumbers]. *)
Definition page_numbers (items : list Script.PageItem) : list Z :=
  omap (fun i => match i with
                 | Script.PageNum n => Some n
                 | Script.PageDots => None
                 end) items.

(** The pages the buttons that can be clicked ask for. *)
Definition enabled_targets (controls : list Script.Control) : list Z :=
  omap (fun c => match c with
                 | Script.Control_button b =>
                     if Script.disabled b then None else Some (Script.target b)
                 | Script.Control_ellipsis => None
                 end) controls.

(** ** Escaped text *)

(** What one character becomes in escaped HTML. *)
Definition escape_char (c : N) : jsstring :=
  if (c =? 38)%N then str "&amp;"
  else if (c =? 60)%N then str "&lt;"
  else if (c =? 62)%N then str "&gt;"
  else if (c =? 34)%N then str "&quot;"
  else if (c =? 39)%N then str "&#39;"
  else [c].

(** Reading escaped HTML back: each of the five entities is its character,
    anything else is itself. [skip] counts the characters of an entity still
    to pass over. *)
Fixpoint unescape_go (skip : nat) (s : jsstring) : jsstring :=
  match s with
  | [] => []
  | c :: s' =>
      match skip with
      | S k => unescape_go k s'
      | O =>
          if startsWith s (str "&amp;") then 38%N :: unescape_go 4 s'
          else if startsWith s (str "&lt;") then 60%N :: unescape_go 3 s'
          else if startsWith s (str "&gt;") then 62%N :: unescape_go 3 s'
          else if startsWith s (str "&quot;") then 34%N :: unescape_go 5 s'
          else if startsWith s (str "&#39;") then 39%N :: unescape_go 4 s'
          else c :: unescape_go 0 s'
      end
  end.

Definition unescapeHtml (s : jsstring) : jsstring := unescape_go 0 s.

(** ** Reading CSV

    A reader of CSV text as RFC 4180 describes it: fields separated by
    commas, records by line feeds; a field in double quotes may hold
    commas, line feeds and, written twice, double quotes. [cur] is the
    current field, [fields] the fields of the current record and [rows] the
    records read, all three in reverse. *)

Inductive CsvState := csv_start | csv_plain | csv_quoted | csv_after_quote.

Fixpoint csv_go (st : CsvState) (cur : jsstring) (fields : list jsstring)
    (rows : list (list jsstring)) (s : jsstring) : option (list (list jsstring)) :=
  match s with
  | [] =>
      match st with
      | csv_quoted => None
      | _ => Some (rev (rev (rev cur :: fields) :: rows))
      end
  | c :: s' =>
      match st with
      | csv_start =>
          if (c =? 34)%N then csv_go csv_quoted [] fields rows s'
          else if (c =? 44)%N then csv_go csv_start [] ([] :: fields) rows s'
          else if (c =? 10)%N then csv_go csv_start [] [] (rev ([] :: fields) :: rows) s'
          else csv_go csv_plain [c] fields rows s'
      | csv_plain =>
          if (c =? 34)%N then None
          else if (c =? 44)%N then csv_go csv_start [] (rev cur :: fields) rows s'
          else if (c =? 10)%N
          then csv_go csv_start [] [] (rev (rev cur :: fields) :: rows) s'
          else csv_go csv_plain (c :: cur) fields rows s'
      | csv_quoted =>
          if (c =? 34)%N then csv_go csv_after_quote cur fields rows s'
          else csv_go csv_quoted (c :: cur) fields rows s'
      | csv_after_quote =>
          if (c =? 34)%N then csv_go csv_quoted (34%N :: cur) fields rows s'
          else if (c =? 44)%N then csv_go csv_start [] (rev cur :: fields) rows s'
          else if (c =? 10)%N
          then csv_go csv_start [] [] (rev (rev cur :: fields) :: rows) s'
          else None
      end
  end.

Definition csv_parse (s : jsstring) : option (list (list jsstring)) :=
  csv_go csv_start [] [] [] s.

(** A character that needs no quoting. *)
Definition csv_plain_char (c : N) : bool :=
  negb ((c =? 34) || (c =? 44) || (c =? 10))%N.

(** ** Normal tags *)

(** A tag as the form of [script.js] stores it: not empty, with no
    separator of the tags field in it. *)
Definition tag_word (t : jsstring) : Prop :=
  t <> [] /\ forallb (fun c => negb (Script.isTagSeparator c)) t = true.

(** A tag as [parseTags] of the second implementation returns it: not
    empty, trimmed, without a comma. *)
Definition plain_tag (t : jsstring) : Prop :=
  t <> [] /\ trim t = t /\ 44%N ∉ t.

(** ** Normal records *)

(** A record as the form of [script.js] writes it: name and url trimmed
    and not empty, a url the [URL] constructor accepts, normal tags. *)
Definition Script_normal `{Platform} (b : Bookmark) : Prop :=
  b_name b <> [] /\ trim (b_name b) = b_name b
  /\ b_url b <> [] /\ trim (b_url b) = b_url b
  /\ is_Some (URL_protocol (b_url b))
  /\ Forall tag_word (b_tags b)
  /\ NoDup (toLowerCase <$> b_tags b).

(** A record as the form of the second implementation writes it: name and
    url trimmed, the name not empty, a url [isValidUrl] accepts, at most
    twelve plain tags, a trimmed [createdAt]. *)
Definition Unnamed_normal `{Platform} (b : Bookmark) : Prop :=
  b_name b <> [] /\ trim (b_name b) = b_name b
  /\ trim (b_url b) = b_url b
  /\ Unnamed.isValidUrl (b_url b) = true
  /\ Forall plain_tag (b_tags b)
  /\ (length (b_tags b) <= 12)%nat
  /\ trim (b_createdAt b) = b_createdAt b.

(** Every record of the store has the property [P]. *)
Definition all_records (P : Bookmark -> Prop) (store : ObjectStore) : Prop :=
  forall k b, records store !! k = Some b -> P b.

(** ** Example sessions *)

(** A session that creates two records, deletes the first and edits the
    second. *)
Definition demo_session : list ScriptEvent :=
  [ Ev_showAdd;
    Ev_submit (minute_past_nine 1) (str " Alpha ") (str "https://a.example/") (str "x, X;y") [];
    Ev_submit (minute_past_nine 2) (str "Beta") (str "https://b.example/") [] [];
    Ev_showDelete 1; Ev_confirmDelete [];
    Ev_showEdit 2;
    Ev_submit (minute_past_nine 3) (str "Beta 2") (str "https://b.example/") (str "z") [];
    Ev_goToPage 5; Ev_search (str "beta") ].

(** A session of the second implementation: two creates, a page click, a
    delete, an edit. *)
Definition demo_session2 : list UnnamedEvent :=
  [ Un_submit (minute_past_nine 1)
      {| Unnamed.mode := Unnamed.mode_add; Unnamed.f_id := 0;
         Unnamed.f_url := str "https://a.example/"; Unnamed.f_name := str "Alpha";
         Unnamed.f_tags := str "x, y"; Unnamed.f_createdAt := [] |};
    Un_submit (minute_past_nine 2)
      {| Unnamed.mode := Unnamed.mode_add; Unnamed.f_id := 0;
         Unnamed.f_url := str "https://b.example/"; Unnamed.f_name := str "Beta";
         Unnamed.f_tags := []; Unnamed.f_createdAt := [] |};
    Un_pageClick 0; Un_card 1 Unnamed.action_delete; Un_confirmDelete;
    Un_search (str "beta") ].


(** * Theorems *)

(** ** The built-ins on small inputs *)

Example str_ex : str "a,b" = [97; 44; 98]%N.
Proof. reflexivity. Qed.

Example trim_ex : trim (str "  a b  ") = str "a b".
Proof. reflexivity. Qed.

Example includes_ex : includes (str "bookmark") (str "okm") = true /\ includes (str "abc") (str "ca") = false.
Proof. split; reflexivity. Qed.

Example split_runs_ex :
  split_runs (fun c => (c =? 44)%N) (str ",a,,b,") = [str ""; str "a"; str "b"; str ""].
Proof. reflexivity. Qed.

Example split_char_ex :
  split_char 44 (str "a,,b") = [str "a"; str ""; str "b"].
Proof. reflexivity. Qed.

Example String_of_ex :
  String_of 2026 = str "2026" /\ String_of 0 = str "0" /\ String_of (-5) = str "-5".
Proof. repeat split; reflexivity. Qed.

Example padStart_ex : padStart 2 48 (str "7") = str "07" /\ padStart 2 48 (str "123") = str "123".
Proof. split; reflexivity. Qed.

Example slice_ex :
  slice [1; 2; 3; 4; 5] (-2) 9 = [4; 5] /\ slice [1; 2; 3; 4; 5] 1 3 = [2; 3]
  /\ slice [1; 2; 3] (-12) 0 = [].
Proof. repeat split; reflexivity. Qed.

Example Math_ceil_div_ex : Math_ceil_div 13 12 = 2 /\ Math_ceil_div 12 12 = 1 /\ Math_ceil_div 0 12 = 0.
Proof. repeat split; reflexivity. Qed.

Example Array_sort_ex :
  Array_sort (fun a b => Some (snd b - snd a))
    [(1%nat, 5); (2%nat, 7); (3%nat, 5); (4%nat, 9)]
  = [(4%nat, 9); (2%nat, 7); (1%nat, 5); (3%nat, 5)].
Proof. reflexivity. Qed.

Example scheme_of_ex :
  scheme_of (str "HTTPS://Example.org/") = Some (str "https")
  /\ scheme_of (str "not a url") = None /\ scheme_of (str "") = None.
Proof. repeat split; reflexivity. Qed.

Example stamp_millis_ex : stamp_millis (str "1970-01-02 00:01") = Some 86460000.
Proof. reflexivity. Qed.

(** ** The ASCII platform *)

#[global] Instance ascii_platform_laws : @PlatformLaws ascii_platform.
Proof.
  split.
  - reflexivity.
  - intros s Hs. cbn. rewrite Hs. reflexivity.
Qed.

(** ** Printing the clock *)

Lemma forallb_seqZ (f : Z -> bool) (m n : Z) :
  forallb f (seqZ m n) = true -> forall x, m <= x < m + n -> f x = true.
Proof.
  intros Hall x Hx. rewrite forallb_forall in Hall. apply Hall.
  apply list_elem_of_In, elem_of_seqZ. lia.
Qed.

Lemma String_of_year (y : Z) :
  1000 <= y <= 9999 -> read4 (String_of y) = Some y.
Proof.
  intros Hy.
  assert (Hall : forallb (fun y => bool_decide (read4 (String_of y) = Some y))
                   (seqZ 1000 9000) = true) by (vm_compute; reflexivity).
  eapply bool_decide_eq_true_1. apply (forallb_seqZ _ _ _ Hall y). lia.
Qed.

Lemma padStart_two (n : Z) :
  0 <= n <= 99 -> read2 (padStart 2 48 (String_of n)) = Some n.
Proof.
  intros Hn.
  assert (Hall : forallb (fun n => bool_decide (read2 (padStart 2 48 (String_of n)) = Some n))
                   (seqZ 0 100) = true) by (vm_compute; reflexivity).
  eapply bool_decide_eq_true_1. apply (forallb_seqZ _ _ _ Hall n). lia.
Qed.

Lemma read_stamp_fields (Y M D h m : jsstring) (y mo d hh mm : Z) :
  read4 Y = Some y -> read2 M = Some mo -> read2 D = Some d ->
  read2 h = Some hh -> read2 m = Some mm ->
  read_stamp (Y ++ str "-" ++ M ++ str "-" ++ D ++ str " " ++ h ++ str ":" ++ m)
  = Some (y, mo, d, hh, mm).
Proof.
  intros HY HM HD Hh Hm.
  destruct Y as [|y1 [|y2 [|y3 [|y4 [|? ?]]]]]; try discriminate.
  destruct M as [|m1 [|m2 [|? ?]]]; try discriminate.
  destruct D as [|d1 [|d2 [|? ?]]]; try discriminate.
  destruct h as [|h1 [|h2 [|? ?]]]; try discriminate.
  destruct m as [|n1 [|n2 [|? ?]]]; try discriminate.
  unfold read4 in HY. unfold read2 in HM, HD, Hh, Hm.
  unfold read_stamp. cbn [app str list_ascii_of_string List.map].
  change (N_of_ascii "-") with 45%N. change (N_of_ascii " ") with 32%N.
  change (N_of_ascii ":") with 58%N.
  cbn [List.map].
  destruct (digit_value y1), (digit_value y2), (digit_value y3), (digit_value y4);
    try discriminate.
  destruct (digit_value m1), (digit_value m2); try discriminate.
  destruct (digit_value d1), (digit_value d2); try discriminate.
  destruct (digit_value h1), (digit_value h2); try discriminate.
  destruct (digit_value n1), (digit_value n2); try discriminate.
  congruence.
Qed.

Lemma Script_formattedDate_reads (now : Date) :
  calendar now ->
  read_stamp (Script.formattedDate now)
  = Some (getFullYear now, getMonth now + 1, getDate now, getHours now, getMinutes now).
Proof.
  intros (Hy & Hm & Hd & Hh & Hn). unfold Script.formattedDate.
  apply read_stamp_fields; try apply String_of_year; try apply padStart_two; lia.
Qed.

Lemma Unnamed_fmtDate_reads (now : Date) :
  calendar now ->
  read_stamp (Unnamed.fmtDate now)
  = Some (getFullYear now, getMonth now + 1, getDate now, getHours now, getMinutes now).
Proof.
  intros (Hy & Hm & Hd & Hh & Hn). unfold Unnamed.fmtDate, Unnamed.pad.
  apply read_stamp_fields; try apply String_of_year; try apply padStart_two; lia.
Qed.

(** The two implementations print the clock alike. *)
Lemma fmtDate_formattedDate (now : Date) :
  Unnamed.fmtDate now = Script.formattedDate now.
Proof. reflexivity. Qed.

(** ** Create, then get *)

Lemma IDB_get_add (store : ObjectStore) (it : Item) :
  IDB_get (fst (IDB_add store it)) (snd (IDB_add store it))
  = Some (keyed (S (keygen store)) it).
Proof. unfold IDB_get, IDB_add. cbn. apply lookup_insert_eq. Qed.

Lemma demo_now_calendar : calendar demo_now.
Proof. unfold calendar; cbn; lia. Qed.

(** C1. Whatever the draft, creating it and then getting the returned id
    gives a record with the draft's name, url and tags, the id the key
    generator assigned, and a [createdAt] of the shape "YYYY-MM-DD HH:MM"
    that reads back as the clock's year, month, day, hour and minute. This
    holds for [BookmarkDB.add] followed by [BookmarkDB.get] of [script.js]
    and for the second implementation's [addBookmark] of the item its form
    handler builds. The clock is any date of the years 1000 to 9999. *)
Theorem C1_create_then_get (store : ObjectStore) (now : Date) (draft : Draft) :
  calendar now ->
  let stamp := Script.formattedDate now in
  let created :=
    {| b_id := S (keygen store); b_name := d_name draft; b_url := d_url draft;
       b_tags := d_tags draft; b_createdAt := stamp |} in
  (exists db' id,
      Script.add store now draft = (db', Resolved id)
      /\ Script.get db' id = Some created /\ b_id created = id)
  /\ (exists db' id,
      Unnamed.addBookmark store
        {| i_name := d_name draft; i_url := d_url draft; i_tags := d_tags draft;
           i_createdAt := Unnamed.fmtDate now |} = (db', Resolved id)
      /\ IDB_get db' id = Some created /\ b_id created = id)
  /\ is_minute_stamp stamp = true
  /\ read_stamp stamp
     = Some (getFullYear now, getMonth now + 1, getDate now, getHours now, getMinutes now).
Proof.
  intros Hcal stamp created.
  pose proof (Script_formattedDate_reads now Hcal) as Hread.
  split; [|split; [|split]].
  - eexists _, _. split; [reflexivity|]. split; [|reflexivity].
    unfold Script.get. apply (IDB_get_add store).
  - eexists _, _. split; [reflexivity|]. split; [|reflexivity].
    apply (IDB_get_add store).
  - unfold is_minute_stamp, stamp. by rewrite Hread.
  - exact Hread.
Qed.

Lemma C1_create_then_get_witness :
  calendar demo_now
  /\ exists db' id,
      Script.add empty_store demo_now demo_draft = (db', Resolved id)
      /\ Script.get db' id
         = Some {| b_id := 1; b_name := str "Rocq"; b_url := str "https://rocq-prover.org/";
                   b_tags := [str "dev"; str "tools"];
                   b_createdAt := str "2026-11-02 09:05" |}
      /\ 1%nat = id.
Proof.
  split; [exact demo_now_calendar|].
  exact (proj1 (C1_create_then_get empty_store demo_now demo_draft demo_now_calendar)).
Defined.

(** Outside the four-digit years the year prints with as many digits as it
    has, and the text no longer has the shape. *)
Lemma formattedDate_year_999 :
  is_minute_stamp
    (Script.formattedDate
       {| getFullYear := 999; getMonth := 0; getDate := 1; getHours := 0; getMinutes := 0 |})
  = false.
Proof. reflexivity. Qed.

(** ** The key generator's invariant *)

Lemma empty_store_wf : store_wf empty_store.
Proof. intros k b Hk. cbn in Hk. by rewrite lookup_empty in Hk. Qed.

Lemma IDB_add_wf (store : ObjectStore) (it : Item) :
  store_wf store -> store_wf (fst (IDB_add store it)).
Proof.
  intros Hwf k b. cbn. rewrite lookup_insert. case_decide as Hk.
  - intros [= <-]. subst k. cbn. lia.
  - intros Hb. apply Hwf in Hb. lia.
Qed.

Lemma IDB_put_wf (store : ObjectStore) (b : Bookmark) :
  store_wf store -> (1 <= b_id b)%nat -> store_wf (fst (IDB_put store b)).
Proof.
  intros Hwf Hid k b'. cbn. rewrite lookup_insert. case_decide as Hk.
  - intros [= <-]. subst k. lia.
  - intros Hb. apply Hwf in Hb. lia.
Qed.

Lemma IDB_delete_wf (store : ObjectStore) (k : nat) :
  store_wf store -> store_wf (IDB_delete store k).
Proof.
  intros Hwf k' b. cbn. rewrite lookup_delete. case_decide; [done|]. apply Hwf.
Qed.

(** ** Update *)

Lemma Script_update_found (store : ObjectStore) (id : nat) (val : Bookmark) (patch : Patch) :
  IDB_get store id = Some val ->
  exists store',
    Script.update store id patch = (store', Resolved (b_id val))
    /\ IDB_get store' (b_id val)
       = Some {| b_id := b_id val; b_name := p_name patch; b_url := p_url patch;
                 b_tags := p_tags patch; b_createdAt := b_createdAt val |}.
Proof.
  intros Hget. unfold Script.update. rewrite Hget. cbn.
  eexists. split; [reflexivity|]. unfold IDB_get. cbn. apply lookup_insert_eq.
Qed.

Lemma Unnamed_updateBookmark_found (store : ObjectStore) (id : nat) (val : Bookmark)
    (data : Patch) :
  IDB_get store id = Some val ->
  exists store',
    Unnamed.updateBookmark store id data = (store', Resolved true)
    /\ IDB_get store' id = Some (Unnamed.merge val data id).
Proof.
  intros Hget. unfold Unnamed.updateBookmark. rewrite Hget. cbn.
  eexists. split; [reflexivity|]. unfold IDB_get. cbn. apply lookup_insert_eq.
Qed.

Lemma Unnamed_renderList_db `{Platform} (st : Unnamed.State) :
  Unnamed.db (fst (Unnamed.renderList st)) = Unnamed.db st.
Proof. reflexivity. Qed.

Lemma Unnamed_refreshList_db `{Platform} (st : Unnamed.State) :
  Unnamed.db (fst (Unnamed.refreshList st)) = Unnamed.db st.
Proof. reflexivity. Qed.

Lemma demo_store_get : IDB_get demo_store 1 = Some demo_record.
Proof. reflexivity. Qed.

Lemma demo_store_wf : store_wf demo_store.
Proof. apply IDB_add_wf, empty_store_wf. Qed.

(** C2, where the claim fails: [BookmarkDB.update] of [script.js] is given
    a patch with a non-empty [createdAt], and the stored [createdAt] stays
    what it was. *)
Lemma C2_counterexample :
  exists db',
    Script.update demo_store 1 demo_patch = (db', Resolved 1%nat)
    /\ p_createdAt demo_patch = Some (str "2000-01-01 00:00")
    /\ b_createdAt <$> Script.get db' 1 = Some (str "2026-11-02 09:05").
Proof. eexists. split; [reflexivity|]. split; reflexivity. Qed.

(** C2, amended. For a record that exists:
    - in the second implementation, [updateBookmark] stores the patch's
      name, url and tags, and the patch's [createdAt] when it has one, the
      old [createdAt] when it has none; the edit form leaves [createdAt] out
      of the patch when its field is empty or blank and supplies the trimmed
      text otherwise;
    - in [script.js], [BookmarkDB.update] stores the patch's name, url and
      tags and keeps the old [createdAt], whatever the patch supplies. *)
Theorem C2_update_createdAt `{Platform} (store : ObjectStore) (id : nat) (val : Bookmark)
    (patch : Patch) :
  store_wf store ->
  IDB_get store id = Some val ->
  (exists store',
      Unnamed.updateBookmark store id patch = (store', Resolved true)
      /\ IDB_get store' id
         = Some {| b_id := id; b_name := p_name patch; b_url := p_url patch;
                   b_tags := p_tags patch;
                   b_createdAt := match p_createdAt patch with
                                  | Some c => c
                                  | None => b_createdAt val
                                  end |})
  /\ (forall (st : Unnamed.State) (now : Date) (f_url f_name f_tags f_createdAt : jsstring),
      Unnamed.db st = store ->
      Unnamed.isValidUrl (trim f_url) = true ->
      truthy (trim f_name) = true ->
      exists st',
        Unnamed.onFormSubmit st now Unnamed.mode_edit id f_url f_name f_tags f_createdAt
        = (st', Unnamed.Saved)
        /\ IDB_get (Unnamed.db st') id
           = Some {| b_id := id; b_name := trim f_name; b_url := trim f_url;
                     b_tags := Unnamed.parseTags f_tags;
                     b_createdAt := if truthy (trim f_createdAt) then trim f_createdAt
                                    else b_createdAt val |})
  /\ (exists store',
      Script.update store id patch = (store', Resolved id)
      /\ Script.get store' id
         = Some {| b_id := id; b_name := p_name patch; b_url := p_url patch;
                   b_tags := p_tags patch; b_createdAt := b_createdAt val |}).
Proof.
  intros Hwf Hget. split; [|split].
  - destruct (Unnamed_updateBookmark_found store id val patch Hget) as (store' & Hup & Hnew).
    exists store'. split; [exact Hup|]. exact Hnew.
  - intros st now f_url f_name f_tags f_createdAt Hdb Hurl Hname. subst store.
    unfold Unnamed.onFormSubmit. rewrite Hurl, Hname. cbn [negb].
    set (data := {| p_name := trim f_name; p_url := trim f_url;
                    p_tags := Unnamed.parseTags f_tags;
                    p_createdAt := if truthy (trim f_createdAt)
                                   then Some (trim f_createdAt) else None |}).
    destruct (Unnamed_updateBookmark_found (Unnamed.db st) id val data Hget)
      as (store' & Hup & Hnew).
    rewrite Hup. eexists. split; [reflexivity|].
    rewrite Unnamed_refreshList_db. cbn. rewrite Hnew. unfold Unnamed.merge, data. cbn.
    by destruct (truthy (trim f_createdAt)).
  - destruct (Hwf id val Hget) as [Hid _].
    destruct (Script_update_found store id val patch Hget) as (store' & Hup & Hnew).
    rewrite Hid in Hup, Hnew. exists store'. split; [exact Hup|]. exact Hnew.
Qed.

Lemma C2_update_createdAt_witness :
  store_wf demo_store /\ IDB_get demo_store 1 = Some demo_record
  /\ (exists store',
        Unnamed.updateBookmark demo_store 1 demo_patch = (store', Resolved true)
        /\ b_createdAt <$> IDB_get store' 1 = Some (str "2000-01-01 00:00"))
  /\ (exists store',
        Script.update demo_store 1 demo_patch = (store', Resolved 1%nat)
        /\ b_createdAt <$> Script.get store' 1 = Some (str "2026-11-02 09:05"))
  /\ (exists st',
        @Unnamed.onFormSubmit ascii_platform (Unnamed.initial_state demo_store) demo_now
          Unnamed.mode_edit 1 (str "https://rocq-prover.org/docs") (str "Rocq Prover")
          (str "proofs") (str "  ") = (st', Unnamed.Saved)
        /\ b_createdAt <$> IDB_get (Unnamed.db st') 1 = Some (str "2026-11-02 09:05")).
Proof.
  pose proof (@C2_update_createdAt ascii_platform demo_store 1%nat demo_record demo_patch
                demo_store_wf demo_store_get) as (Hu & Hf & Hs).
  split; [exact demo_store_wf|]. split; [exact demo_store_get|]. split; [|split].
  - destruct Hu as (store' & Hup & Hnew). exists store'. split; [exact Hup|].
    rewrite Hnew. reflexivity.
  - destruct Hs as (store' & Hup & Hnew). exists store'. split; [exact Hup|].
    rewrite Hnew. reflexivity.
  - destruct (Hf (Unnamed.initial_state demo_store) demo_now
                (str "https://rocq-prover.org/docs") (str "Rocq Prover") (str "proofs")
                (str "  ") eq_refl eq_refl eq_refl) as (st' & Hsub & Hnew).
    exists st'. split; [exact Hsub|]. rewrite Hnew. reflexivity.
Defined.

(** ** Splitting into tokens *)

Section Splitting.
Variable cls : N -> bool.
Hypothesis cls_space : forall c, isWhiteSpace c = true -> cls c = true.

Lemma trimStart_word (t : jsstring) :
  forallb (fun c => negb (cls c)) t = true -> trimStart t = t.
Proof.
  destruct t as [|c t]; [done|]. cbn. intros [Hc _]%andb_true_iff.
  destruct (isWhiteSpace c) eqn:Hw; [|done].
  apply cls_space in Hw. by rewrite Hw in Hc.
Qed.

Lemma forallb_rev (f : N -> bool) (t : jsstring) :
  forallb f (rev t) = forallb f t.
Proof.
  induction t as [|c t IH]; [done|]. cbn. rewrite forallb_app, IH. cbn.
  rewrite andb_true_r. apply andb_comm.
Qed.

Lemma trim_word (t : jsstring) :
  forallb (fun c => negb (cls c)) t = true -> trim t = t.
Proof.
  intros Ht. unfold trim, trimEnd. rewrite (trimStart_word t Ht).
  rewrite trimStart_word; [apply rev_involutive|]. by rewrite forallb_rev.
Qed.

Lemma split_gap_skip (g s : jsstring) :
  forallb cls g = true -> split_gap cls (g ++ s) = split_gap cls s.
Proof.
  induction g as [|c g IH]; [done|]. cbn. intros [Hc Hg]%andb_true_iff.
  rewrite Hc. destruct s; by rewrite IH.
Qed.

Lemma split_piece_word (t cur s : jsstring) :
  forallb (fun c => negb (cls c)) t = true ->
  split_piece cls cur (t ++ s) = split_piece cls (rev t ++ cur) s.
Proof.
  revert cur. induction t as [|c t IH]; intros cur; [done|].
  cbn. intros [Hc Ht]%andb_true_iff. apply negb_true_iff in Hc. rewrite Hc.
  rewrite IH by done. by rewrite <- app_assoc.
Qed.

(** After a separator the two readers keep the same pieces. *)
Lemma kept_gap_piece (s : jsstring) :
  kept_pieces (split_gap cls s) = kept_pieces (split_piece cls [] s).
Proof.
  destruct s as [|c s]; [done|]. cbn. by destruct (cls c).
Qed.

Lemma kept_gap_only (g : jsstring) :
  forallb cls g = true -> kept_pieces (split_gap cls g) = [].
Proof.
  intros Hg. rewrite <- (app_nil_r g). by rewrite split_gap_skip.
Qed.

Lemma kept_word_then (t s : jsstring) :
  t <> [] ->
  forallb (fun c => negb (cls c)) t = true ->
  at_boundary cls s ->
  kept_pieces (split_piece cls [] (t ++ s)) = t :: kept_pieces (split_gap cls s).
Proof.
  intros Hne Ht Hs. rewrite split_piece_word by done. rewrite app_nil_r.
  assert (Hkeep : forall rest, kept_pieces (rev (rev t) :: rest) = t :: kept_pieces rest).
  { intros rest. unfold kept_pieces. cbn. rewrite rev_involutive, trim_word by done.
    destruct t; [done|]. reflexivity. }
  destruct s as [|c s].
  - cbn [split_piece]. rewrite Hkeep. reflexivity.
  - cbn in Hs. cbn [split_piece split_gap]. rewrite Hs. rewrite Hkeep. reflexivity.
Qed.

Lemma kept_next (g t s : jsstring) :
  forallb cls g = true ->
  t <> [] ->
  forallb (fun c => negb (cls c)) t = true ->
  at_boundary cls s ->
  kept_pieces (split_runs cls (g ++ t ++ s)) = t :: kept_pieces (split_runs cls s).
Proof.
  intros Hg Hne Ht Hs. unfold split_runs.
  rewrite <- !kept_gap_piece. rewrite split_gap_skip by done.
  rewrite kept_gap_piece. by apply kept_word_then.
Qed.

(** The tokens of a text are the pieces the code keeps. *)
Lemma Tokens_kept (s : jsstring) (ts : list jsstring) :
  Tokens cls s ts -> kept_pieces (split_runs cls s) = ts.
Proof.
  induction 1 as [g Hg|g t s ts Hg Hne Ht Hs _ IH].
  - unfold split_runs. rewrite <- kept_gap_piece. by apply kept_gap_only.
  - rewrite kept_next by done. by rewrite IH.
Qed.

Lemma leading_run (f : N -> bool) (s : jsstring) :
  exists g r, s = g ++ r /\ forallb f g = true
              /\ match r with [] => True | c :: _ => f c = false end.
Proof.
  induction s as [|c s (g & r & -> & Hg & Hr)].
  - by exists [], [].
  - destruct (f c) eqn:Hc.
    + exists (c :: g), r. cbn. by rewrite Hc, Hg.
    + by exists [], (c :: g ++ r).
Qed.

(** Every text has tokens. *)
Lemma Tokens_exist (s : jsstring) : exists ts, Tokens cls s ts.
Proof.
  remember (length s) as n eqn:Hn. revert s Hn.
  induction n as [n IH] using lt_wf_ind. intros s ->.
  destruct (leading_run cls s) as (g & r & -> & Hg & Hr).
  destruct r as [|c r].
  - exists []. rewrite app_nil_r. by constructor.
  - destruct (leading_run (fun c => negb (cls c)) r) as (t & s' & -> & Ht & Hs').
    destruct (IH (length s')) with (s := s') as [ts Hts]; [|done|].
    { rewrite !length_app. cbn. rewrite length_app. lia. }
    exists ((c :: t) :: ts).
    change (g ++ c :: t ++ s') with (g ++ (c :: t) ++ s').
    constructor; try done.
    + cbn. by rewrite Hr, Ht.
    + destruct s' as [|c' s']; [done|]. cbn. by apply negb_false_iff in Hs'.
Qed.

(** A token is not empty, has no separator in it, and trimming leaves it
    as it is. *)
Lemma Tokens_words (s : jsstring) (ts : list jsstring) :
  Tokens cls s ts -> Forall (fun t => t <> [] /\ trim t = t) ts.
Proof.
  induction 1 as [g Hg|g t s ts Hg Hne Ht Hs _ IH]; constructor; [|done].
  split; [done|]. by apply trim_word.
Qed.

Lemma kept_Tokens (s : jsstring) : Tokens cls s (kept_pieces (split_runs cls s)).
Proof.
  destruct (Tokens_exist s) as [ts Hts].
  by rewrite (Tokens_kept s ts Hts).
Qed.

End Splitting.

Lemma isTagSeparator_space (c : N) :
  isWhiteSpace c = true -> Script.isTagSeparator c = true.
Proof. unfold Script.isTagSeparator. intros ->. apply orb_true_r. Qed.

(** ** Removing duplicate tags *)

Section Unique.
Context `{Platform}.

(** A tag appended at the end is kept exactly when no tag before it, and no
    entry of the set, has the same lower-case form. *)
Lemma uniqueTags_loop_snoc (tags : list jsstring) (seen : gset jsstring)
    (acc : list jsstring) (t : jsstring) :
  Script.uniqueTags_loop (tags ++ [t]) seen acc
  = Script.uniqueTags_loop tags seen acc
    ++ (if decide (toLowerCase t ∈ seen \/ toLowerCase t ∈ toLowerCase <$> tags)
        then [] else [t]).
Proof.
  revert seen acc. induction tags as [|tag tags IH]; intros seen acc; cbn.
  - case_bool_decide as Hin.
    + rewrite decide_True by auto. by rewrite app_nil_r.
    + rewrite decide_False; [done|]. intros [?|Hnil]; [done|]. by apply elem_of_nil in Hnil.
  - case_bool_decide as Hin; rewrite IH; f_equal; apply decide_ext.
    + rewrite elem_of_cons. split; [tauto|]. intros [?|[Heq|?]]; auto.
      left. by rewrite Heq.
    + rewrite elem_of_union, elem_of_singleton, elem_of_cons. tauto.
Qed.

Lemma uniqueTags_loop_NoDup (tags : list jsstring) (seen : gset jsstring)
    (acc : list jsstring) :
  NoDup (toLowerCase <$> acc) ->
  (forall x, x ∈ toLowerCase <$> acc -> x ∈ seen) ->
  NoDup (toLowerCase <$> Script.uniqueTags_loop tags seen acc).
Proof.
  revert seen acc. induction tags as [|tag tags IH]; intros seen acc Hnd Hsub; cbn; [done|].
  case_bool_decide as Hin; [by apply IH|]. apply IH.
  - rewrite fmap_app. apply NoDup_app. split; [done|]. split.
    + intros x Hx. cbn. rewrite list_elem_of_singleton. intros ->. auto.
    + cbn. apply NoDup_singleton.
  - intros x. rewrite fmap_app, elem_of_app. cbn. rewrite list_elem_of_singleton.
    rewrite elem_of_union, elem_of_singleton. intros [Hx| ->]; auto.
Qed.

Lemma uniqueTags_loop_sublist (tags : list jsstring) (seen : gset jsstring)
    (acc : list jsstring) :
  exists kept, Script.uniqueTags_loop tags seen acc = acc ++ kept /\ kept `sublist_of` tags.
Proof.
  revert seen acc. induction tags as [|tag tags IH]; intros seen acc; cbn.
  - exists []. by rewrite app_nil_r.
  - case_bool_decide as Hin.
    + destruct (IH seen acc) as (kept & -> & Hsub). exists kept. split; [done|].
      by apply sublist_cons.
    + destruct (IH ({[toLowerCase tag]} ∪ seen) (acc ++ [tag])) as (kept & -> & Hsub).
      exists (tag :: kept). rewrite <- app_assoc. split; [done|]. by apply sublist_skip.
Qed.

(** On ASCII tags every platform that obeys the laws removes the same
    duplicates as the ASCII platform. *)
Lemma uniqueTags_loop_ascii `{!PlatformLaws} (tags : list jsstring) (seen : gset jsstring)
    (acc : list jsstring) :
  forallb (forallb isAscii) tags = true ->
  Script.uniqueTags_loop tags seen acc
  = @Script.uniqueTags_loop ascii_platform tags seen acc.
Proof.
  revert seen acc. induction tags as [|tag tags IH]; intros seen acc; cbn; [done|].
  intros [Htag Htags]%andb_true_iff. rewrite (toLowerCase_ascii tag Htag).
  case_bool_decide; by rewrite IH.
Qed.

End Unique.

(** ** Splitting at commas *)

Lemma join_split_at (sep : N) (cur s : jsstring) :
  join [sep] (split_at sep cur s) = rev cur ++ s.
Proof.
  revert cur. induction s as [|c s IH]; intros cur; cbn [split_at].
  - cbn. by rewrite app_nil_r.
  - destruct (N.eqb_spec c sep) as [->|Hne].
    + specialize (IH []). cbn in IH.
      change (join [sep] (rev cur :: split_at sep [] s))
        with (match split_at sep [] s with
              | [] => rev cur
              | _ :: _ => rev cur ++ [sep] ++ join [sep] (split_at sep [] s)
              end).
      destruct (split_at sep [] s) eqn:Hsp.
      * destruct s; cbn in Hsp; [done|]. by destruct (_ =? _)%N.
      * by rewrite IH.
    + rewrite IH. cbn. by rewrite <- app_assoc.
Qed.

Lemma elem_of_rev_iff (x : N) (l : jsstring) : x ∈ rev l <-> x ∈ l.
Proof. rewrite !list_elem_of_In. symmetry. apply in_rev. Qed.

Lemma split_at_no_sep (sep : N) (cur s : jsstring) :
  sep ∉ cur -> Forall (fun piece => sep ∉ piece) (split_at sep cur s).
Proof.
  revert cur. induction s as [|c s IH]; intros cur Hcur; cbn [split_at].
  - constructor; [|constructor]. by rewrite elem_of_rev_iff.
  - destruct (N.eqb_spec c sep) as [->|Hne].
    + constructor; [by rewrite elem_of_rev_iff|]. apply IH. apply not_elem_of_nil.
    + apply IH. rewrite elem_of_cons. intros [?|?]; by auto.
Qed.

Lemma slice_from_0 {A} (l : list A) (n : Z) :
  0 <= n -> slice l 0 n = take (Z.to_nat n) l.
Proof.
  intros Hn. unfold slice. cbn [Z.ltb Z.compare].
  destruct (n <? 0) eqn:Hlt; [lia|].
  rewrite (Z.min_l 0) by lia. rewrite Z.sub_0_r.
  change (Z.to_nat 0) with 0%nat. rewrite drop_0.
  destruct (Z.min_spec n (Z.of_nat (length l))) as [[Hle ->]|[Hle ->]]; [done|].
  rewrite Nat2Z.id. rewrite firstn_all. symmetry. apply take_ge. lia.
Qed.

(** ** Tag normalization *)

Lemma Script_formTags_tokens `{Platform} (input : jsstring) :
  Script.formTags input
  = Script.uniqueTags_loop (kept_pieces (split_runs Script.isTagSeparator input)) ∅ [].
Proof. destruct input; reflexivity. Qed.

(** C3, where the claim fails: the second implementation's [parseTags]
    returns three tags for "dev, Dev ,  tools", both casings of "dev" among
    them, and it does not split at a full-width comma. *)
Lemma C3_counterexample :
  Unnamed.parseTags (str "dev, Dev ,  tools") = [str "dev"; str "Dev"; str "tools"]
  /\ Unnamed.parseTags (str "dev, Dev ,  tools") <> [str "dev"; str "tools"]
  /\ Unnamed.parseTags [97; 65292; 98]%N = [[97; 65292; 98]%N].
Proof. split; [reflexivity|]. split; [discriminate|reflexivity]. Qed.

(** C3, amended. In [script.js], for every text of the tags field:
    - the text has exactly one sequence of tokens (the maximal runs of
      characters other than ASCII or full-width comma, ASCII or full-width
      semicolon, and whitespace); a token is not empty and is trimmed; the
      stored tags are these tokens with duplicates removed, in the order of
      the tokens;
    - removing duplicates keeps a tag exactly when no earlier tag has the
      same lower-case form, in the original order, so no two stored tags
      are equal ignoring case;
    - "dev, Dev ,  tools" gives ["dev", "tools"], and the empty text gives
      no tags.
    In the second implementation, [parseTags] cuts the text at ASCII commas
    only (the pieces joined by commas are the text again, and no piece has
    a comma), trims the pieces, drops the empty ones and keeps the first
    twelve; duplicates stay. *)
Theorem C3_tag_normalization `{Platform} `{!PlatformLaws} :
  (forall input : jsstring,
      exists tokens,
        Tokens Script.isTagSeparator input tokens
        /\ (forall tokens', Tokens Script.isTagSeparator input tokens' -> tokens' = tokens)
        /\ Forall (fun t => t <> [] /\ trim t = t) tokens
        /\ Script.formTags input = Script.uniqueTags_loop tokens ∅ []
        /\ Script.formTags input `sublist_of` tokens)
  /\ Script.uniqueTags_loop [] ∅ [] = []
  /\ (forall (tags : list jsstring) (t : jsstring),
      Script.uniqueTags_loop (tags ++ [t]) ∅ []
      = Script.uniqueTags_loop tags ∅ []
        ++ (if decide (toLowerCase t ∈ toLowerCase <$> tags) then [] else [t]))
  /\ (forall input : jsstring,
      NoDup (toLowerCase <$> Script.formTags input))
  /\ Script.formTags (str "dev, Dev ,  tools") = [str "dev"; str "tools"]
  /\ Script.formTags [] = []
  /\ (forall input : jsstring,
      Unnamed.parseTags input
      = take 12 (List.filter truthy (List.map trim (split_char 44 input)))
      /\ join (str ",") (split_char 44 input) = input
      /\ Forall (fun piece => 44%N ∉ piece) (split_char 44 input)).
Proof.
  repeat apply conj.
  - intros input. exists (kept_pieces (split_runs Script.isTagSeparator input)).
    pose proof (kept_Tokens _ isTagSeparator_space input) as Htokens.
    split; [exact Htokens|]. split; [|split; [|split]].
    + intros tokens' Htok. symmetry. by apply Tokens_kept; [apply isTagSeparator_space|].
    + by apply (Tokens_words _ isTagSeparator_space input).
    + apply Script_formTags_tokens.
    + rewrite Script_formTags_tokens.
      destruct (uniqueTags_loop_sublist
                  (kept_pieces (split_runs Script.isTagSeparator input)) ∅ [])
        as (kept & -> & Hsub). exact Hsub.
  - reflexivity.
  - intros tags t. rewrite uniqueTags_loop_snoc. f_equal. apply decide_ext.
    rewrite elem_of_empty. tauto.
  - intros input. rewrite Script_formTags_tokens. apply uniqueTags_loop_NoDup.
    + constructor.
    + intros x Hx. by apply elem_of_nil in Hx.
  - rewrite Script_formTags_tokens.
    assert (Hk : kept_pieces (split_runs Script.isTagSeparator (str "dev, Dev ,  tools"))
                 = [str "dev"; str "Dev"; str "tools"]) by (vm_compute; reflexivity).
    rewrite Hk, uniqueTags_loop_ascii by reflexivity. vm_compute. reflexivity.
  - reflexivity.
  - intros input. split; [|split].
    + unfold Unnamed.parseTags. destruct input as [|c input]; [reflexivity|].
      cbn [truthy negb]. by rewrite slice_from_0.
    + unfold split_char. apply (join_split_at 44 [] input).
    + unfold split_char. apply split_at_no_sep, not_elem_of_nil.
Qed.

Lemma C3_tag_normalization_witness :
  @Script.formTags ascii_platform (str "dev, Dev ,  tools") = [str "dev"; str "tools"]
  /\ @Script.formTags ascii_platform [] = [].
Proof.
  pose proof (@C3_tag_normalization ascii_platform ascii_platform_laws)
    as (_ & _ & _ & _ & Hdev & Hnil & _).
  split; [exact Hdev | exact Hnil].
Defined.

(** ** At most twelve tags *)

(** C10. The second implementation's [parseTags] returns at most twelve
    tags for every input: they are the first twelve of the trimmed,
    non-empty pieces between commas, and what comes after the twelfth is
    dropped; the function has a result for every input. *)
Theorem C10_parseTags_cap (input : jsstring) :
  let all := List.filter truthy (List.map trim (split_char 44 input)) in
  (length (Unnamed.parseTags input) <= 12)%nat
  /\ Unnamed.parseTags input = take 12 all
  /\ all = Unnamed.parseTags input ++ drop 12 all.
Proof.
  intros all.
  assert (Hp : Unnamed.parseTags input = take 12 all).
  { unfold Unnamed.parseTags. destruct input as [|c input]; [reflexivity|].
    cbn [truthy negb]. by rewrite slice_from_0. }
  split; [|split].
  - rewrite Hp, length_take. lia.
  - exact Hp.
  - rewrite Hp. symmetry. apply take_drop.
Qed.

Lemma parseTags_thirteen :
  Unnamed.parseTags (str "a,b,c,d,e,f,g,h,i,j,k,l,m")
  = [str "a"; str "b"; str "c"; str "d"; str "e"; str "f"; str "g"; str "h";
     str "i"; str "j"; str "k"; str "l"].
Proof. reflexivity. Qed.

(** ** Sorting *)

Section SortFacts.
Context {A : Type} (cmp : A -> A -> option Z).

Lemma sort_insert_Permutation (x : A) (l : list A) :
  sort_insert cmp x l ≡ₚ x :: l.
Proof.
  induction l as [|y l IH]; cbn; [done|].
  destruct (cmp_positive (cmp x y)); [|done].
  rewrite IH. apply Permutation_swap.
Qed.

Lemma Array_sort_Permutation (l : list A) : Array_sort cmp l ≡ₚ l.
Proof.
  induction l as [|x l IH]; cbn; [done|].
  rewrite sort_insert_Permutation. by rewrite IH.
Qed.

Lemma Array_sort_elem_of (l : list A) (x : A) : x ∈ Array_sort cmp l <-> x ∈ l.
Proof. by rewrite Array_sort_Permutation. Qed.

Variable key : A -> Z.

Lemma by_key_desc_cons (x : A) (l : list A) :
  by_key_desc cmp key (x :: l) -> by_key_desc cmp key l.
Proof. intros Hk a b Ha Hb. apply Hk; by apply elem_of_cons; right. Qed.

Lemma sort_insert_sorted (x : A) (l : list A) :
  by_key_desc cmp key (x :: l) ->
  StronglySorted (fun a b => key b <= key a) l ->
  StronglySorted (fun a b => key b <= key a) (sort_insert cmp x l).
Proof.
  intros Hk Hs. induction Hs as [|y l Hs IH Hy]; cbn.
  - constructor; constructor.
  - rewrite (Hk x y) by (rewrite !elem_of_cons; auto). cbn.
    destruct (Z.ltb_spec 0 (key y - key x)) as [Hlt|Hge].
    + constructor.
      * apply IH. intros a b Ha Hb. apply Hk; rewrite elem_of_cons in *;
          rewrite elem_of_cons; tauto.
      * rewrite Forall_forall. intros z Hz.
        rewrite sort_insert_Permutation in Hz. apply elem_of_cons in Hz as [->|Hz]; [lia|].
        rewrite Forall_forall in Hy. by apply Hy.
    + constructor; [by constructor|].
      rewrite Forall_forall. intros z Hz.
      apply elem_of_cons in Hz as [->|Hz]; [lia|].
      rewrite Forall_forall in Hy. specialize (Hy z Hz). lia.
Qed.

Lemma by_key_desc_sorted_tail (x : A) (l : list A) :
  by_key_desc cmp key (x :: l) -> by_key_desc cmp key (x :: Array_sort cmp l).
Proof.
  intros Hk a b Ha Hb. apply Hk.
  - rewrite elem_of_cons in *. by rewrite Array_sort_elem_of in Ha.
  - rewrite elem_of_cons in *. by rewrite Array_sort_elem_of in Hb.
Qed.

(** The result is in descending order of the key. *)
Lemma Array_sort_sorted (l : list A) :
  by_key_desc cmp key l ->
  StronglySorted (fun a b => key b <= key a) (Array_sort cmp l).
Proof.
  induction l as [|x l IH]; intros Hk; cbn; [constructor|].
  apply sort_insert_sorted.
  - by apply by_key_desc_sorted_tail.
  - apply IH. by apply by_key_desc_cons in Hk.
Qed.

Lemma sort_insert_stable (x : A) (l : list A) (k : Z) :
  by_key_desc cmp key (x :: l) ->
  List.filter (fun a => key a =? k) (sort_insert cmp x l)
  = List.filter (fun a => key a =? k) (x :: l).
Proof.
  induction l as [|y l IH]; intros Hk; [done|].
  cbn [sort_insert]. rewrite (Hk x y) by (rewrite !elem_of_cons; auto). cbn [cmp_positive].
  destruct (Z.ltb_spec 0 (key y - key x)) as [Hlt|Hge]; [|done].
  cbn [List.filter]. rewrite IH.
  - cbn [List.filter].
    destruct (Z.eqb_spec (key y) k) as [Hy|Hy], (Z.eqb_spec (key x) k) as [Hx|Hx];
      try done. lia.
  - intros a b Ha Hb. apply Hk; rewrite elem_of_cons in *; rewrite elem_of_cons; tauto.
Qed.

(** Stability: the elements of one key keep the order they came in. *)
Lemma Array_sort_stable (l : list A) (k : Z) :
  by_key_desc cmp key l ->
  List.filter (fun a => key a =? k) (Array_sort cmp l)
  = List.filter (fun a => key a =? k) l.
Proof.
  induction l as [|x l IH]; intros Hk; [done|].
  cbn [Array_sort]. rewrite sort_insert_stable by by apply by_key_desc_sorted_tail.
  cbn [List.filter]. rewrite IH by by apply by_key_desc_cons in Hk. done.
Qed.

(** In a list in descending order, an element with a greater key stands
    before every element with a smaller one. *)
Lemma sorted_later_first (l : list A) (i j : nat) (a b : A) :
  StronglySorted (fun a b => key b <= key a) l ->
  l !! i = Some a -> l !! j = Some b -> key b < key a -> (i < j)%nat.
Proof.
  intros Hs. revert i j. induction Hs as [|y l Hs IH Hy]; intros i j Hi Hj Hlt; [done|].
  rewrite Forall_forall in Hy.
  destruct i as [|i], j as [|j]; cbn in Hi, Hj.
  - injection Hi as ->. injection Hj as ->. lia.
  - lia.
  - injection Hj as ->. apply list_elem_of_lookup_2, Hy in Hi. lia.
  - specialize (IH i j Hi Hj Hlt). lia.
Qed.


End SortFacts.

(** ** Reading the whole store *)



(** Under the generator's invariant [getAll] misses no record. *)
Lemma IDB_getAll_elem_of (store : ObjectStore) (b : Bookmark) :
  store_wf store ->
  b ∈ IDB_getAll store <-> records store !! b_id b = Some b.
Proof.
  intros Hwf. unfold IDB_getAll. rewrite list_elem_of_omap. split.
  - intros (k & _ & Hk). destruct (Hwf k b Hk) as [-> _]. done.
  - intros Hb. exists (b_id b). split; [|done].
    destruct (Hwf _ _ Hb) as [_ Hrange]. apply elem_of_seq. lia.
Qed.

(** ** Newest first *)

Section NewestFirst.
Variable time : Bookmark -> option Z.
Variable cmp : Bookmark -> Bookmark -> option Z.
Hypothesis cmp_time : forall a b ta tb,
  time a = Some ta -> time b = Some tb -> cmp a b = Some (tb - ta).

Lemma timed_by_key (l : list Bookmark) :
  timed time l -> by_key_desc cmp (fun b => default 0 (time b)) l.
Proof.
  intros Ht a b Ha Hb. unfold timed in Ht. rewrite Forall_forall in Ht.
  destruct (Ht a Ha) as [ta Hta], (Ht b Hb) as [tb Htb].
  rewrite (cmp_time a b ta tb Hta Htb). by rewrite Hta, Htb.
Qed.

Lemma filter_time_key (l : list Bookmark) (t : Z) :
  timed time l ->
  List.filter (fun b => bool_decide (time b = Some t)) l
  = List.filter (fun b => default 0 (time b) =? t) l.
Proof.
  intros Ht. apply filter_ext_in. intros b Hb. unfold timed in Ht.
  rewrite Forall_forall in Ht. destruct (Ht b) as [tb Htb]; [by apply list_elem_of_In|].
  rewrite Htb. cbn. case_bool_decide as Heq.
  - injection Heq as ->. symmetry. apply Z.eqb_refl.
  - symmetry. apply Z.eqb_neq. congruence.
Qed.

Lemma Array_sort_newest_first (l : list Bookmark) :
  timed time l -> newest_first time l (Array_sort cmp l).
Proof.
  intros Ht. pose proof (timed_by_key l Ht) as Hk.
  assert (Ht' : timed time (Array_sort cmp l)).
  { unfold timed. by rewrite Array_sort_Permutation. }
  split; [apply Array_sort_Permutation|]. split.
  - intros i j a b ta tb Hi Hj Hta Htb Hlt.
    apply (sorted_later_first (fun b => default 0 (time b)) (Array_sort cmp l) i j a b);
      try done.
    + by apply Array_sort_sorted.
    + by rewrite Hta, Htb.
  - intros t. rewrite !filter_time_key by done. by apply Array_sort_stable.
Qed.


End NewestFirst.

Lemma Script_cmp_time `{Platform} (a b : Bookmark) (ta tb : Z) :
  Date_parse (b_createdAt a) = Some ta -> Date_parse (b_createdAt b) = Some tb ->
  Script.byCreatedAtDesc a b = Some (tb - ta).
Proof. intros Ha Hb. unfold Script.byCreatedAtDesc. by rewrite Ha, Hb. Qed.

Lemma Unnamed_cmp_time `{Platform} (a b : Bookmark) (ta tb : Z) :
  Unnamed.time_of a = Some ta -> Unnamed.time_of b = Some tb ->
  Unnamed.byCreatedAtDesc a b = Some (tb - ta).
Proof. intros Ha Hb. unfold Unnamed.byCreatedAtDesc. by rewrite Ha, Hb. Qed.


Lemma Script_search_filter `{Platform} (store : ObjectStore) (query : jsstring) :
  exists f, Script.search store query = List.filter f (Script.getAll store).
Proof.
  unfold Script.search. destruct (negb _).
  - exists (fun _ => true). symmetry. apply forallb_filter_id. by apply forallb_forall.
  - eexists. reflexivity.
Qed.

Lemma Script_loadBookmarks_sorted `{Platform} (app : Script.App) (query : jsstring) :
  Script.filteredBookmarks (Script.loadBookmarks app query)
  = Array_sort Script.byCreatedAtDesc
      (if truthy query then Script.search (Script.db app) query
       else Script.getAll (Script.db app)).
Proof. unfold Script.loadBookmarks. by destruct (truthy query). Qed.

Lemma Unnamed_refreshList_sorted `{Platform} (st : Unnamed.State) :
  Unnamed.items (fst (Unnamed.refreshList st))
  = Array_sort Unnamed.byCreatedAtDesc
      (if truthy (Unnamed.keyword st)
       then List.filter (fun x => Unnamed.matchesKeyword x (Unnamed.keyword st))
              (Unnamed.getAllBookmarks (Unnamed.db st))
       else Unnamed.getAllBookmarks (Unnamed.db st)).
Proof. reflexivity. Qed.

(** ** The second implementation reads [createdAt] only when it is there *)









Lemma store_abc_timed :
  timed (fun b => @Date_parse ascii_platform (b_createdAt b)) (Script.getAll store_abc).
Proof. repeat constructor; eexists; vm_compute; reflexivity. Qed.



(** ** Keyword filter *)

Lemma startsWith_spec (s p : jsstring) :
  startsWith s p = true <-> exists post, s = p ++ post.
Proof.
  revert s. induction p as [|c p IH]; intros s.
  - destruct s; cbn; split; eauto.
  - destruct s as [|d s]; cbn.
    + split; [done|]. intros [post Hpost]. discriminate.
    + rewrite andb_true_iff, IH, N.eqb_eq. split.
      * intros [-> [post ->]]. by exists post.
      * intros [post [= -> ->]]. eauto.
Qed.

Lemma includes_spec (s sub : jsstring) :
  includes s sub = true <-> substring_of sub s.
Proof.
  unfold substring_of. induction s as [|d s IH].
  - cbn [includes]. rewrite orb_false_r, startsWith_spec. split.
    + intros [post Hpost]. by exists [], post.
    + intros (pre & post & Heq). destruct pre; [|discriminate]. by exists post.
  - cbn [includes]. rewrite orb_true_iff, IH, startsWith_spec. split.
    + intros [[post Hpost]|(pre & post & ->)].
      * by exists [], post.
      * by exists (d :: pre), post.
    + intros (pre & post & Heq). destruct pre as [|e pre].
      * left. by exists post.
      * right. injection Heq as -> ->. by exists pre, post.
Qed.

Lemma filter_sublist {A} (f : A -> bool) (l : list A) : List.filter f l `sublist_of` l.
Proof.
  induction l as [|x l IH]; cbn; [done|].
  destruct (f x); [by apply sublist_skip | by apply sublist_cons].
Qed.

Lemma filter_all {A} (f : A -> bool) (l : list A) :
  (forall x, f x = true) -> List.filter f l = l.
Proof. intros Hf. apply forallb_filter_id, forallb_forall. auto. Qed.

(** C4, where the claim fails: in the second implementation the keyword
    "v,t" retains a record whose tags are "dev" and "tools", though it is
    a substring of neither tag, nor of the name or the url. *)
Lemma C4_counterexample :
  @Unnamed.matchesKeyword ascii_platform demo_record (str "v,t") = true
  /\ Unnamed.items
       (fst (@Unnamed.onSearch ascii_platform (Unnamed.initial_state demo_store) (str "v,t")))
     = [demo_record]
  /\ b_tags demo_record = [str "dev"; str "tools"]
  /\ includes (@toLowerCase ascii_platform (b_name demo_record))
       (@toLowerCase ascii_platform (str "v,t")) = false
  /\ includes (@toLowerCase ascii_platform (b_url demo_record))
       (@toLowerCase ascii_platform (str "v,t")) = false
  /\ existsb (fun tag => includes (@toLowerCase ascii_platform tag)
                           (@toLowerCase ascii_platform (str "v,t")))
       (b_tags demo_record) = false.
Proof. repeat split; vm_compute; reflexivity. Qed.

(** C4, amended. In [script.js], with the keyword the query lower-cased and
    trimmed, [search] retains, in the order of [getAll], exactly the records
    where the keyword is a substring of the lower-cased name, of the
    lower-cased url, or of at least one lower-cased tag; a query that is
    empty or blank after trimming retains every record. In the second
    implementation a non-empty keyword matches a record when, lower-cased,
    it is a substring of the lower-cased name, of the lower-cased url, or of
    the lower-cased text of the tags joined by commas; the list holds
    exactly the stored records that match, and an empty or blank search text
    retains every record. *)
Theorem C4_keyword_filter `{Platform} :
  (forall (store : ObjectStore) (query : jsstring) (b : Bookmark),
      let kw := trim (toLowerCase query) in
      b ∈ Script.search store query
      <-> b ∈ Script.getAll store
          /\ (substring_of kw (toLowerCase (b_name b))
              \/ substring_of kw (toLowerCase (b_url b))
              \/ exists tag, tag ∈ b_tags b /\ substring_of kw (toLowerCase tag)))
  /\ (forall (store : ObjectStore) (query : jsstring),
      Script.search store query `sublist_of` Script.getAll store)
  /\ (forall (store : ObjectStore) (query : jsstring),
      trim (toLowerCase query) = [] -> Script.search store query = Script.getAll store)
  /\ (forall (app : Script.App) (searchInput : jsstring),
      trim searchInput = [] ->
      Script.filteredBookmarks (Script.handleSearch app searchInput)
      ≡ₚ Script.getAll (Script.db app))
  /\ (forall (item : Bookmark) (kw : jsstring),
      kw <> [] ->
      Unnamed.matchesKeyword item kw = true
      <-> substring_of (toLowerCase kw) (toLowerCase (b_name item))
          \/ substring_of (toLowerCase kw) (toLowerCase (b_url item))
          \/ substring_of (toLowerCase kw) (toLowerCase (join (str ",") (b_tags item))))
  /\ (forall (st : Unnamed.State) (b : Bookmark),
      b ∈ Unnamed.items (fst (Unnamed.refreshList st))
      <-> b ∈ Unnamed.getAllBookmarks (Unnamed.db st)
          /\ Unnamed.matchesKeyword b (Unnamed.keyword st) = true)
  /\ (forall (st : Unnamed.State) (searchInput : jsstring),
      trim searchInput = [] ->
      Unnamed.items (fst (Unnamed.onSearch st searchInput))
      ≡ₚ Unnamed.getAllBookmarks (Unnamed.db st)).
Proof.
  repeat apply conj.
  - intros store query b kw. subst kw. unfold Script.search.
    destruct (trim (toLowerCase query)) as [|c kw]; cbn [truthy negb].
    + split; [|tauto]. intros Hb. split; [done|]. left. by exists [], (toLowerCase (b_name b)).
    + rewrite list_elem_of_In, filter_In, <- list_elem_of_In.
      rewrite !orb_true_iff, !includes_spec, existsb_exists.
      setoid_rewrite includes_spec. setoid_rewrite <- list_elem_of_In. tauto.
  - intros store query. destruct (Script_search_filter store query) as [f ->].
    apply filter_sublist.
  - intros store query Hkw. unfold Script.search. by rewrite Hkw.
  - intros app searchInput Htrim. unfold Script.handleSearch.
    rewrite Script_loadBookmarks_sorted, Htrim. cbn [truthy].
    apply Array_sort_Permutation.
  - intros item kw Hkw. unfold Unnamed.matchesKeyword.
    destruct kw as [|c kw]; [done|]. cbn [truthy negb].
    rewrite !orb_true_iff, !includes_spec. tauto.
  - intros st b. rewrite Unnamed_refreshList_sorted, Array_sort_elem_of.
    destruct (truthy (Unnamed.keyword st)) eqn:Hkw.
    + by rewrite list_elem_of_In, filter_In, <- list_elem_of_In.
    + destruct (Unnamed.keyword st); [|done]. cbn. tauto.
  - intros st searchInput Htrim. unfold Unnamed.onSearch.
    rewrite Unnamed_refreshList_sorted. cbn [Unnamed.keyword Unnamed.db].
    rewrite Htrim. cbn [truthy]. apply Array_sort_Permutation.
Qed.

Lemma C4_keyword_filter_witness :
  trim (str "  ") = []
  /\ Script.filteredBookmarks
       (@Script.handleSearch ascii_platform (Script.new_App store_abc) (str "  "))
     ≡ₚ Script.getAll store_abc
  /\ Unnamed.items
       (fst (@Unnamed.onSearch ascii_platform (Unnamed.initial_state store_abc) (str "  ")))
     ≡ₚ Unnamed.getAllBookmarks store_abc.
Proof.
  pose proof (@C4_keyword_filter ascii_platform) as (_ & _ & _ & Hs & _ & _ & Hu).
  split; [reflexivity|]. split.
  - exact (Hs (Script.new_App store_abc) (str "  ") eq_refl).
  - exact (Hu (Unnamed.initial_state store_abc) (str "  ") eq_refl).
Defined.

(** ** Pages *)

Lemma Math_ceil_div_spec (a b : Z) :
  0 < b -> b * (Math_ceil_div a b - 1) < a <= b * Math_ceil_div a b.
Proof.
  intros Hb. unfold Math_ceil_div.
  pose proof (Z.div_mod (- a) b ltac:(lia)) as Hdm.
  pose proof (Z.mod_pos_bound (- a) b Hb) as Hmod. nia.
Qed.

Lemma slice_nonneg {A} (l : list A) (a b : Z) :
  0 <= a <= b -> slice l a b = take (Z.to_nat (b - a)) (drop (Z.to_nat a) l).
Proof.
  intros Hab. unfold slice.
  destruct (Z.ltb_spec a 0) as [?|_]; [lia|]. destruct (Z.ltb_spec b 0) as [?|_]; [lia|].
  set (len := Z.of_nat (length l)).
  destruct (Z.le_gt_cases len a) as [Hge|Hlt].
  - rewrite !Z.min_r by lia. rewrite !drop_ge by lia. by rewrite !take_nil.
  - rewrite (Z.min_l a) by lia.
    destruct (Z.le_gt_cases b len) as [Hb|Hb].
    + by rewrite Z.min_l by lia.
    + rewrite Z.min_r by lia. rewrite !take_ge; [done| |]; rewrite length_drop; lia.
Qed.

Section Pages.
Context {A : Type} (P : Z) (l : list A).
Hypothesis P_pos : 0 < P.

Lemma page_slice_take (k : Z) :
  1 <= k ->
  page_slice P l k = take (Z.to_nat P) (drop (Z.to_nat (k - 1) * Z.to_nat P) l).
Proof.
  intros Hk. unfold page_slice. rewrite slice_nonneg by nia.
  f_equal; [f_equal; lia|]. f_equal. nia.
Qed.

(** Position [n] of page [k] is position [(k - 1) * P + n] of the list. *)
Lemma page_slice_lookup (k : Z) (n : nat) :
  1 <= k -> (n < Z.to_nat P)%nat ->
  page_slice P l k !! n = l !! (Z.to_nat (k - 1) * Z.to_nat P + n)%nat.
Proof.
  intros Hk Hn. rewrite page_slice_take by done.
  rewrite lookup_take_lt by done. by rewrite lookup_drop.
Qed.

Lemma page_slice_length (k : Z) :
  1 <= k -> (length (page_slice P l k) <= Z.to_nat P)%nat.
Proof. intros Hk. rewrite page_slice_take by done. rewrite length_take. lia. Qed.

Lemma pages_prefix (m : nat) :
  concat (List.map (page_slice P l) (seqZ 1 (Z.of_nat m))) = take (m * Z.to_nat P) l.
Proof.
  induction m as [|m IH]; [by rewrite take_0|].
  rewrite seqZ_S. rewrite map_app, concat_app, IH.
  cbn [List.map concat]. rewrite app_nil_r, page_slice_take by lia.
  replace (Z.to_nat (1 + Z.of_nat m - 1)) with m by lia.
  rewrite take_take_drop. f_equal. lia.
Qed.

(** The pages, in order, make up the list. *)
Lemma pages_concat (pages : Z) :
  Z.of_nat (length l) <= P * pages ->
  concat (List.map (page_slice P l) (seqZ 1 pages)) = l.
Proof.
  intros Hlen. assert (0 <= pages) by nia.
  rewrite <- (Z2Nat.id pages) by done. rewrite pages_prefix.
  apply take_ge. nia.
Qed.

(** Different pages hold different positions, so different elements when
    the list has no element twice. *)
Lemma pages_disjoint (k1 k2 : Z) (x : A) :
  NoDup l -> 1 <= k1 -> 1 <= k2 ->
  x ∈ page_slice P l k1 -> x ∈ page_slice P l k2 -> k1 = k2.
Proof.
  intros Hnd Hk1 Hk2 [n1 H1]%list_elem_of_lookup [n2 H2]%list_elem_of_lookup.
  pose proof (lookup_lt_Some _ _ _ H1) as Hn1.
  pose proof (lookup_lt_Some _ _ _ H2) as Hn2.
  pose proof (page_slice_length k1 Hk1). pose proof (page_slice_length k2 Hk2).
  rewrite page_slice_lookup in H1 by (done || lia).
  rewrite page_slice_lookup in H2 by (done || lia).
  pose proof (NoDup_lookup _ _ _ _ Hnd H1 H2) as Heq. nia.
Qed.

End Pages.

Lemma Script_goToPage_in_range (app : Script.App) (k : Z) :
  1 <= k <= Script.totalPages app ->
  Script.currentPage (Script.goToPage app k) = k
  /\ Script.pageBookmarks (Script.goToPage app k)
     = page_slice (Script.itemsPerPage app) (Script.filteredBookmarks app) k.
Proof.
  intros Hk. unfold Script.goToPage.
  destruct (Z.ltb_spec k 1) as [?|_]; [lia|].
  destruct (Z.ltb_spec (Script.totalPages app) k) as [?|_]; [lia|]. by cbn.
Qed.

Lemma Unnamed_onPageClick_in_range (st : Unnamed.State) (k : Z) :
  1 <= k <= Unnamed.pages_of (length (Unnamed.items st)) ->
  Unnamed.page (fst (Unnamed.onPageClick st k)) = k
  /\ snd (Unnamed.onPageClick st k) = page_slice Unnamed.PAGE_SIZE (Unnamed.items st) k.
Proof.
  intros Hk. unfold Unnamed.onPageClick, Unnamed.renderList. cbn.
  destruct (Z.ltb_spec (Unnamed.pages_of (length (Unnamed.items st))) k) as [?|_]; [lia|].
  done.
Qed.

Lemma Unnamed_onPageClick_beyond (st : Unnamed.State) (k : Z) :
  Unnamed.pages_of (length (Unnamed.items st)) < k ->
  Unnamed.page (fst (Unnamed.onPageClick st k)) = Unnamed.pages_of (length (Unnamed.items st))
  /\ snd (Unnamed.onPageClick st k)
     = page_slice Unnamed.PAGE_SIZE (Unnamed.items st)
         (Unnamed.pages_of (length (Unnamed.items st))).
Proof.
  intros Hk. unfold Unnamed.onPageClick, Unnamed.renderList. cbn.
  destruct (Z.ltb_spec (Unnamed.pages_of (length (Unnamed.items st))) k) as [_|?]; [|lia].
  done.
Qed.

Lemma map_seqZ_ext {B} (f g : Z -> B) (m n : Z) :
  (forall k, m <= k < m + n -> f k = g k) -> List.map f (seqZ m n) = List.map g (seqZ m n).
Proof.
  intros Hfg. apply map_ext_in. intros k Hk. apply Hfg.
  apply list_elem_of_In, elem_of_seqZ in Hk. lia.
Qed.

(** C6, where the claim fails: with thirteen records and two pages,
    [goToPage(3)] of [script.js] leaves the first page showing, and
    [goToPage(0)] called on page 2 leaves page 2 showing. *)
Lemma C6_counterexample :
  length (Script.filteredBookmarks app13) = 13%nat
  /\ Script.totalPages app13 = 2
  /\ Script.currentPage app13 = 1
  /\ Script.currentPage (Script.goToPage app13 3) = 1
  /\ Script.pageBookmarks (Script.goToPage app13 3) = take 12 (Script.filteredBookmarks app13)
  /\ Script.currentPage (Script.goToPage app13 2) = 2
  /\ Script.currentPage (Script.goToPage (Script.goToPage app13 2) 0) = 2.
Proof. repeat split; vm_compute; reflexivity. Qed.

(** C6, amended. For a list of N records and a page size P > 0:
    - [script.js] counts ceil(N/P) pages; the second implementation, whose
      page size is 12, counts one page when there is no record and
      ceil(N/12) pages otherwise;
    - in both, page k of 1..pages shows the slice from (k-1)*P of length
      at most P, the slices in page order make up the whole list, and two
      different pages share no record when no record is listed twice;
    - in the second implementation a page number greater than the page
      count shows the last page and sets the page to it;
    - in [script.js], [goToPage] with a page number below 1 or greater than
      the page count changes nothing: the page shown stays. *)
Theorem C6_pagination :
  (forall app : Script.App,
      0 < Script.itemsPerPage app ->
      let P := Script.itemsPerPage app in
      let N := Z.of_nat (length (Script.filteredBookmarks app)) in
      let pages := Script.totalPages app in
      P * (pages - 1) < N <= P * pages
      /\ (forall k, 1 <= k <= pages ->
            Script.currentPage (Script.goToPage app k) = k
            /\ Script.pageBookmarks (Script.goToPage app k)
               = page_slice P (Script.filteredBookmarks app) k)
      /\ concat (List.map (fun k => Script.pageBookmarks (Script.goToPage app k))
                   (seqZ 1 pages))
         = Script.filteredBookmarks app
      /\ (NoDup (Script.filteredBookmarks app) ->
          forall k1 k2 x, 1 <= k1 <= pages -> 1 <= k2 <= pages ->
            x ∈ Script.pageBookmarks (Script.goToPage app k1) ->
            x ∈ Script.pageBookmarks (Script.goToPage app k2) -> k1 = k2)
      /\ (forall page, page < 1 \/ pages < page -> Script.goToPage app page = app))
  /\ (forall st : Unnamed.State,
      let N := Z.of_nat (length (Unnamed.items st)) in
      let pages := Unnamed.pages_of (length (Unnamed.items st)) in
      (N = 0 /\ pages = 1 \/ 0 < N /\ 12 * (pages - 1) < N <= 12 * pages)
      /\ (forall k, 1 <= k <= pages ->
            Unnamed.page (fst (Unnamed.onPageClick st k)) = k
            /\ snd (Unnamed.onPageClick st k) = page_slice 12 (Unnamed.items st) k)
      /\ concat (List.map (fun k => snd (Unnamed.onPageClick st k)) (seqZ 1 pages))
         = Unnamed.items st
      /\ (NoDup (Unnamed.items st) ->
          forall k1 k2 x, 1 <= k1 <= pages -> 1 <= k2 <= pages ->
            x ∈ snd (Unnamed.onPageClick st k1) ->
            x ∈ snd (Unnamed.onPageClick st k2) -> k1 = k2)
      /\ (forall k, pages < k ->
            Unnamed.page (fst (Unnamed.onPageClick st k)) = pages
            /\ snd (Unnamed.onPageClick st k) = snd (Unnamed.onPageClick st pages))).
Proof.
  split.
  - intros app HP P N pages.
    pose proof (Math_ceil_div_spec N P HP) as Hceil. fold (Script.totalPages app) in Hceil.
    fold pages in Hceil.
    split; [exact Hceil|]. split; [apply Script_goToPage_in_range|]. split; [|split].
    + rewrite (map_seqZ_ext _ (page_slice P (Script.filteredBookmarks app))).
      * apply pages_concat; [done|]. exact (proj2 Hceil).
      * intros k Hk. apply Script_goToPage_in_range. fold pages. lia.
    + intros Hnd k1 k2 x Hk1 Hk2.
      rewrite (proj2 (Script_goToPage_in_range app k1 Hk1)).
      rewrite (proj2 (Script_goToPage_in_range app k2 Hk2)).
      apply pages_disjoint; (done || lia).
    + intros page Hpage. unfold Script.goToPage. fold pages.
      destruct (Z.ltb_spec page 1), (Z.ltb_spec pages page); (done || lia).
  - intros st N pages.
    pose proof (Math_ceil_div_spec N 12 ltac:(lia)) as Hceil.
    assert (Hpages : pages = Z.max 1 (Math_ceil_div N 12)) by reflexivity.
    assert (Hrange : N = 0 /\ pages = 1 \/ 0 < N /\ 12 * (pages - 1) < N <= 12 * pages) by lia.
    split; [exact Hrange|]. split; [apply Unnamed_onPageClick_in_range|]. split; [|split].
    + rewrite (map_seqZ_ext _ (page_slice 12 (Unnamed.items st))).
      * apply pages_concat; [done|]. fold N. clearbody N pages. lia.
      * intros k Hk. apply Unnamed_onPageClick_in_range. fold pages. lia.
    + intros Hnd k1 k2 x Hk1 Hk2.
      rewrite (proj2 (Unnamed_onPageClick_in_range st k1 Hk1)).
      rewrite (proj2 (Unnamed_onPageClick_in_range st k2 Hk2)).
      apply pages_disjoint; (done || lia).
    + intros k Hk. split; [by apply Unnamed_onPageClick_beyond|].
      rewrite (proj2 (Unnamed_onPageClick_beyond st k Hk)).
      symmetry. apply Unnamed_onPageClick_in_range. fold pages. lia.
Qed.

Lemma C6_pagination_witness :
  0 < Script.itemsPerPage app13
  /\ concat (List.map (fun k => Script.pageBookmarks (Script.goToPage app13 k))
               (seqZ 1 (Script.totalPages app13)))
     = Script.filteredBookmarks app13
  /\ length (Script.pageBookmarks (Script.goToPage app13 1)) = 12%nat
  /\ length (Script.pageBookmarks (Script.goToPage app13 2)) = 1%nat
  /\ Unnamed.page
       (fst (Unnamed.onPageClick
               (fst (@Unnamed.refreshList ascii_platform (Unnamed.initial_state store13))) 3))
     = 2.
Proof.
  assert (HP : 0 < Script.itemsPerPage app13) by (vm_compute; reflexivity).
  split; [exact HP|]. split.
  - exact (proj1 (proj2 (proj2 (proj1 C6_pagination app13 HP)))).
  - repeat split; vm_compute; reflexivity.
Defined.

(** ** Delete *)

Lemma IDB_delete_absent (store : ObjectStore) (id : nat) :
  IDB_get store id = None -> IDB_delete store id = store.
Proof.
  intros Hget. destruct store as [m g]. unfold IDB_delete, IDB_get in *. cbn in *.
  by rewrite delete_id.
Qed.

(** C7, where the claim fails: no record has id 1 in the empty store, and
    deleting id 1 resolves in both implementations. *)
Lemma C7_counterexample :
  Script.get empty_store 1 = None
  /\ Script.delete empty_store 1 = (empty_store, Resolved tt)
  /\ Unnamed.deleteBookmark empty_store 1 = (empty_store, Resolved true).
Proof. repeat split; reflexivity. Qed.

(** C7, amended. In both implementations deleting an id always resolves;
    afterwards getting that id finds nothing and every other id is as it
    was; when no record had the id, the store is unchanged. *)
Theorem C7_delete (store : ObjectStore) (id : nat) :
  (exists store',
      Script.delete store id = (store', Resolved tt)
      /\ Script.get store' id = None
      /\ (forall k, k <> id -> Script.get store' k = Script.get store k)
      /\ (Script.get store id = None -> store' = store))
  /\ (exists store',
      Unnamed.deleteBookmark store id = (store', Resolved true)
      /\ IDB_get store' id = None
      /\ (forall k, k <> id -> IDB_get store' k = IDB_get store k)
      /\ (IDB_get store id = None -> store' = store)).
Proof.
  split; exists (IDB_delete store id); (split; [reflexivity|]); (split; [|split]).
  - apply lookup_delete_eq.
  - intros k Hk. by apply lookup_delete_ne.
  - apply IDB_delete_absent.
  - apply lookup_delete_eq.
  - intros k Hk. by apply lookup_delete_ne.
  - apply IDB_delete_absent.
Qed.

Lemma C7_delete_witness :
  exists store',
    Script.delete demo_store 1 = (store', Resolved tt)
    /\ Script.get store' 1 = None
    /\ (forall k, k <> 1%nat -> Script.get store' k = Script.get demo_store k)
    /\ (Script.get demo_store 1 = None -> store' = demo_store).
Proof. exact (proj1 (C7_delete demo_store 1)). Defined.

(** ** Validation *)

Lemma truthy_nil_iff (s : jsstring) : truthy s = false <-> s = [].
Proof. by destruct s. Qed.

(** C8. In both implementations a submitted form whose name is empty (or
    blank), whose url is empty (or blank), or whose url the URL parser
    rejects, is reported as invalid and the application state, with the
    store in it, is returned as it was: nothing is written. The url
    "not a url" has no scheme, so the parser rejects it. *)
Theorem C8_validation `{Platform} `{!PlatformLaws} :
  (forall (app : Script.App) (now : Date) (name url tags searchInput : jsstring),
      trim name = [] \/ trim url = [] \/ URL_protocol (trim url) = None ->
      exists toast,
        Script.handleFormSubmit app now name url tags searchInput = (app, toast)
        /\ (toast = Script.Toast_required \/ toast = Script.Toast_invalid_url))
  /\ (forall (app : Script.App) (now : Date) (name tags searchInput : jsstring),
      exists toast,
        Script.handleFormSubmit app now name (str "not a url") tags searchInput = (app, toast)
        /\ (toast = Script.Toast_required \/ toast = Script.Toast_invalid_url))
  /\ (forall (st : Unnamed.State) (now : Date) (mode : Unnamed.Mode) (id : nat)
        (url name tags createdAt : jsstring),
      trim name = [] \/ trim url = [] \/ URL_protocol (trim url) = None ->
      exists outcome,
        Unnamed.onFormSubmit st now mode id url name tags createdAt = (st, outcome)
        /\ (outcome = Unnamed.Invalid_url \/ outcome = Unnamed.Invalid_name))
  /\ (forall (st : Unnamed.State) (now : Date) (mode : Unnamed.Mode) (id : nat)
        (name tags createdAt : jsstring),
      Unnamed.onFormSubmit st now mode id (str "not a url") name tags createdAt
      = (st, Unnamed.Invalid_url)).
Proof.
  assert (Hscript : forall app now name url tags searchInput,
    trim name = [] \/ trim url = [] \/ URL_protocol (trim url) = None ->
    exists toast,
      Script.handleFormSubmit app now name url tags searchInput = (app, toast)
      /\ (toast = Script.Toast_required \/ toast = Script.Toast_invalid_url)).
  { intros app now name url tags searchInput Hbad. unfold Script.handleFormSubmit.
    destruct (truthy (trim name)) eqn:Hn; cbn [negb orb]; [|eauto].
    destruct (truthy (trim url)) eqn:Hu; cbn [negb]; [|eauto].
    destruct Hbad as [Hbad|[Hbad|Hbad]].
    - by rewrite Hbad in Hn.
    - by rewrite Hbad in Hu.
    - rewrite Hbad. eauto. }
  assert (Hnot : URL_protocol (trim (str "not a url")) = None).
  { apply URL_needs_scheme. vm_compute. reflexivity. }
  assert (Hunnamed : forall st now mode id url name tags createdAt,
    trim name = [] \/ trim url = [] \/ URL_protocol (trim url) = None ->
    exists outcome,
      Unnamed.onFormSubmit st now mode id url name tags createdAt = (st, outcome)
      /\ (outcome = Unnamed.Invalid_url \/ outcome = Unnamed.Invalid_name)).
  { intros st now mode id url name tags createdAt Hbad. unfold Unnamed.onFormSubmit.
    destruct (Unnamed.isValidUrl (trim url)) eqn:Hv; cbn [negb]; [|eauto].
    destruct (truthy (trim name)) eqn:Hn; cbn [negb]; [|eauto].
    exfalso. unfold Unnamed.isValidUrl in Hv.
    destruct Hbad as [Hbad|[Hbad|Hbad]].
    - by rewrite Hbad in Hn.
    - rewrite Hbad, (URL_needs_scheme []) in Hv; [done|reflexivity].
    - by rewrite Hbad in Hv. }
  split; [exact Hscript|]. split; [|split; [exact Hunnamed|]].
  - intros app now name tags searchInput. apply Hscript. auto.
  - intros st now mode id name tags createdAt. unfold Unnamed.onFormSubmit, Unnamed.isValidUrl.
    by rewrite Hnot.
Qed.

Lemma C8_validation_witness :
  @URL_protocol ascii_platform (trim (str "not a url")) = None
  /\ (exists toast,
        @Script.handleFormSubmit ascii_platform (Script.new_App demo_store) demo_now
          (str "Site") (str "not a url") (str "a, b") [] = (Script.new_App demo_store, toast)
        /\ (toast = Script.Toast_required \/ toast = Script.Toast_invalid_url))
  /\ @Unnamed.onFormSubmit ascii_platform (Unnamed.initial_state demo_store) demo_now
       Unnamed.mode_add 0 (str "not a url") (str "Site") (str "a, b") []
     = (Unnamed.initial_state demo_store, Unnamed.Invalid_url).
Proof.
  pose proof (@C8_validation ascii_platform ascii_platform_laws) as (Hs & _ & _ & Hu).
  assert (Hnone : @URL_protocol ascii_platform (trim (str "not a url")) = None)
    by reflexivity.
  split; [exact Hnone|]. split.
  - exact (Hs (Script.new_App demo_store) demo_now (str "Site") (str "not a url")
             (str "a, b") [] (or_intror (or_intror Hnone))).
  - exact (Hu (Unnamed.initial_state demo_store) demo_now Unnamed.mode_add 0%nat
             (str "Site") (str "a, b") []).
Defined.

(** ** Export *)

(** [getAll] lists the records by ascending id. *)
Lemma IDB_getAll_ids (store : ObjectStore) (a n : nat) :
  store_wf store ->
  StronglySorted lt (b_id <$> omap (fun k => records store !! k) (seq a n))
  /\ Forall (fun i => (a <= i)%nat) (b_id <$> omap (fun k => records store !! k) (seq a n)).
Proof.
  intros Hwf. revert a. induction n as [|n IH]; intros a; cbn.
  - split; constructor.
  - destruct (IH (S a)) as [Hs Hf].
    assert (Hf' : Forall (fun i => (a <= i)%nat)
                    (b_id <$> omap (fun k => records store !! k) (seq (S a) n))).
    { eapply Forall_impl; [exact Hf|]. cbn. lia. }
    destruct (records store !! a) as [b|] eqn:Hb; [|done].
    destruct (Hwf a b Hb) as [Hid _]. cbn. rewrite Hid. split.
    + constructor; [done|]. eapply Forall_impl; [exact Hf|]. cbn. lia.
    + constructor; [lia|done].
Qed.

(** C9, where the claim fails: the second implementation exports the
    three records of scenario A by ascending id, the oldest first, while
    [script.js] exports the newest first. *)
Lemma C9_counterexample :
  List.map (fun row => snd <$> row !! 0%nat)
    (Unnamed.exportToExcel (Unnamed.initial_state store_abc))
  = [Some (CellNum 1); Some (CellNum 2); Some (CellNum 3)]
  /\ List.map (fun row => snd <$> row !! 4%nat)
       (Unnamed.exportToExcel (Unnamed.initial_state store_abc))
     = [Some (CellStr (str "2026-11-02 09:01")); Some (CellStr (str "2026-11-02 09:02"));
        Some (CellStr (str "2026-11-02 09:03"))]
  /\ (exists t1 t3,
        @Date_parse ascii_platform (str "2026-11-02 09:01") = Some t1
        /\ @Date_parse ascii_platform (str "2026-11-02 09:03") = Some t3
        /\ t1 < t3)
  /\ (snd <$> fst (@Script.exportToExcel ascii_platform (Script.new_App store_abc)))
     = Some (List.map Script.export_row
               (rev (Script.getAll store_abc))).
Proof.
  split; [vm_compute; reflexivity|]. split; [vm_compute; reflexivity|]. split.
  - eexists _, _. split; [vm_compute; reflexivity|]. split; [vm_compute; reflexivity|]. lia.
  - vm_compute. reflexivity.
Qed.

(** C9, amended. Every exported row has the five columns id, name, url,
    tags joined by a separator, and createdAt, in that order, in both
    implementations (the separator is a full-width comma in [script.js],
    a comma and a space in the second implementation, and the column titles
    are the same). [script.js] exports nothing when the store is empty, and
    otherwise, when every stored [createdAt] is a date the engine can read,
    the rows of all records sorted by [createdAt], newest first and stably.
    The second implementation exports the rows of all records in the order
    of [getAll], that is by ascending id. *)
Theorem C9_export `{Platform} :
  (forall b : Bookmark,
      Script.export_row b
      = [CellNum (b_id b); CellStr (b_name b); CellStr (b_url b);
         CellStr (join [65292%N] (b_tags b)); CellStr (b_createdAt b)]
      /\ List.map snd (Unnamed.export_row b)
         = [CellNum (b_id b); CellStr (b_name b); CellStr (b_url b);
            CellStr (join (str ", ") (b_tags b)); CellStr (b_createdAt b)]
      /\ List.map fst (Unnamed.export_row b) = Script.headers)
  /\ (forall app : Script.App,
      Script.getAll (Script.db app) = [] -> fst (Script.exportToExcel app) = None)
  /\ (forall app : Script.App,
      Script.getAll (Script.db app) <> [] ->
      timed (fun b => Date_parse (b_createdAt b)) (Script.getAll (Script.db app)) ->
      exists sorted,
        fst (Script.exportToExcel app)
        = Some (Script.headers, List.map Script.export_row sorted)
        /\ newest_first (fun b => Date_parse (b_createdAt b))
             (Script.getAll (Script.db app)) sorted)
  /\ (forall st : Unnamed.State,
      Unnamed.exportToExcel st
      = List.map Unnamed.export_row (Unnamed.getAllBookmarks (Unnamed.db st)))
  /\ (forall st : Unnamed.State,
      store_wf (Unnamed.db st) ->
      StronglySorted lt (b_id <$> Unnamed.getAllBookmarks (Unnamed.db st))).
Proof.
  repeat apply conj.
  - intros b. repeat split.
  - intros app Hnil. unfold Script.exportToExcel. by rewrite Hnil.
  - intros app Hne Ht. unfold Script.exportToExcel.
    destruct (Script.getAll (Script.db app)) as [|b l] eqn:Hall; [done|].
    cbn [length Nat.eqb fst]. eexists. split; [reflexivity|].
    apply Array_sort_newest_first; [apply @Script_cmp_time|done].
  - reflexivity.
  - intros st Hwf. apply (IDB_getAll_ids (Unnamed.db st) 1 (keygen (Unnamed.db st)) Hwf).
Qed.

Lemma store_abc_wf : store_wf store_abc.
Proof. repeat apply IDB_add_wf. apply empty_store_wf. Qed.

Lemma C9_export_witness :
  Script.getAll store_abc <> []
  /\ timed (fun b => @Date_parse ascii_platform (b_createdAt b)) (Script.getAll store_abc)
  /\ store_wf store_abc
  /\ (exists sorted,
        fst (@Script.exportToExcel ascii_platform (Script.new_App store_abc))
        = Some (Script.headers, List.map Script.export_row sorted)
        /\ newest_first (fun b => @Date_parse ascii_platform (b_createdAt b))
             (Script.getAll store_abc) sorted)
  /\ StronglySorted lt (b_id <$> Unnamed.getAllBookmarks store_abc).
Proof.
  assert (Hne : Script.getAll store_abc <> []) by (vm_compute; discriminate).
  pose proof (@C9_export ascii_platform) as (_ & _ & Hs & _ & Hu).
  split; [exact Hne|]. split; [exact store_abc_timed|]. split; [exact store_abc_wf|]. split.
  - exact (Hs (Script.new_App store_abc) Hne store_abc_timed).
  - exact (Hu (Unnamed.initial_state store_abc) store_abc_wf).
Defined.

(** ** The scenarios of the specification, run on the ASCII platform *)

(** Scenario B in [script.js]: the form with tags "dev, Dev ,  tools". *)
Example scenario_B_script :
  let '(app, toast) :=
    @Script.handleFormSubmit ascii_platform (Script.new_App empty_store) demo_now
      (str "Rocq") (str "https://rocq-prover.org/") (str "dev, Dev ,  tools") [] in
  toast = Script.Toast_added
  /\ Script.get (Script.db app) 1 = Some demo_record.
Proof. vm_compute. split; reflexivity. Qed.

(** Scenario B in the second implementation: both casings are stored. *)
Example scenario_B_unnamed :
  let '(st, outcome) :=
    @Unnamed.onFormSubmit ascii_platform (Unnamed.initial_state empty_store) demo_now
      Unnamed.mode_add 0 (str "https://rocq-prover.org/") (str "Rocq")
      (str "dev, Dev ,  tools") [] in
  outcome = Unnamed.Saved
  /\ b_tags <$> IDB_get (Unnamed.db st) 1 = Some [str "dev"; str "Dev"; str "tools"].
Proof. vm_compute. split; reflexivity. Qed.

(** Scenario C in the second implementation: thirteen records, and a
    stale page 3 is clamped to page 2, which has one card. *)
Example scenario_C_unnamed :
  let st := fst (@Unnamed.refreshList ascii_platform (Unnamed.initial_state store13)) in
  length (snd (Unnamed.onPageClick st 1)) = 12%nat
  /\ length (snd (Unnamed.onPageClick st 2)) = 1%nat
  /\ Unnamed.page (fst (Unnamed.onPageClick st 3)) = 2
  /\ length (snd (Unnamed.onPageClick st 3)) = 1%nat.
Proof. vm_compute. repeat split; reflexivity. Qed.

(** An update of an id that is not there rejects and writes nothing. *)
Example update_not_found :
  Script.update demo_store 7 demo_patch = (demo_store, Rejected Error_not_found)
  /\ Unnamed.updateBookmark demo_store 7 demo_patch = (demo_store, Rejected Error_not_found).
Proof. split; reflexivity. Qed.

(** * The rest of the code *)

(** ** Sessions of [script.js] *)

Lemma page_slice_nonempty {A} (P : Z) (l : list A) (k : Z) :
  0 < P -> 1 <= k -> P * (k - 1) < Z.of_nat (length l) -> page_slice P l k <> [].
Proof.
  intros HP Hk Hlt. rewrite page_slice_take by done.
  assert (Hd : (Z.to_nat (k - 1) * Z.to_nat P < length l)%nat) by nia.
  destruct (drop (Z.to_nat (k - 1) * Z.to_nat P) l) as [|x rest] eqn:Hdrop.
  - apply (f_equal length) in Hdrop. rewrite length_drop in Hdrop. cbn in Hdrop. lia.
  - destruct (Z.to_nat P) eqn:HPn; [lia|]. done.
Qed.

Section ScriptSessions.
Context `{Platform}.

Lemma Script_search_elem_of (store : ObjectStore) (query : jsstring) (b : Bookmark) :
  b ∈ Script.search store query -> b ∈ Script.getAll store.
Proof.
  destruct (Script_search_filter store query) as [f ->].
  rewrite list_elem_of_In, filter_In, <- list_elem_of_In. tauto.
Qed.

Lemma Script_loadBookmarks_inv (app : Script.App) (query : jsstring) :
  store_wf (Script.db app) -> Script.itemsPerPage app = 12 ->
  Script_inv (Script.loadBookmarks app query).
Proof.
  intros Hwf HP. unfold Script_inv.
  assert (Hdb : Script.db (Script.loadBookmarks app query) = Script.db app)
    by (unfold Script.loadBookmarks; by destruct (truthy query)).
  assert (Hpage : Script.currentPage (Script.loadBookmarks app query) = 1)
    by (unfold Script.loadBookmarks; by destruct (truthy query)).
  assert (Hper : Script.itemsPerPage (Script.loadBookmarks app query)
                 = Script.itemsPerPage app)
    by (unfold Script.loadBookmarks; by destruct (truthy query)).
  rewrite Hdb, Hpage, Hper. split; [done|]. split; [done|]. split; [lia|].
  intros b. rewrite Script_loadBookmarks_sorted, Array_sort_elem_of. intros Hb.
  assert (Hall : b ∈ Script.getAll (Script.db app)).
  { destruct (truthy query); [by apply Script_search_elem_of in Hb | done]. }
  by apply IDB_getAll_elem_of in Hall.
Qed.

Lemma Script_inv_same (app app' : Script.App) :
  Script.db app' = Script.db app ->
  Script.itemsPerPage app' = Script.itemsPerPage app ->
  Script.currentPage app' = Script.currentPage app ->
  Script.filteredBookmarks app' = Script.filteredBookmarks app ->
  Script_inv app -> Script_inv app'.
Proof.
  unfold Script_inv, Script.totalPages. intros -> -> -> ->. done.
Qed.

Lemma Script_goToPage_inv (app : Script.App) (page : Z) :
  Script_inv app -> Script_inv (Script.goToPage app page).
Proof.
  intros Hinv. unfold Script.goToPage.
  destruct (Z.ltb_spec page 1) as [|Hlo]; [done|].
  destruct (Z.ltb_spec (Script.totalPages app) page) as [|Hhi]; [done|]. cbn [orb].
  destruct Hinv as (Hwf & HP & Hpage & Hshown).
  split; [done|]. split; [done|]. split; [|done].
  cbn. unfold Script.totalPages in *. cbn. lia.
Qed.

Lemma Script_update_wf (store : ObjectStore) (id : nat) (patch : Patch) :
  store_wf store -> store_wf (fst (Script.update store id patch)).
Proof.
  intros Hwf. unfold Script.update, IDB_get.
  destruct (records store !! id) as [data|] eqn:Hget; [|done].
  apply IDB_put_wf; [done|]. cbn. destruct (Hwf id data Hget). lia.
Qed.

Lemma Script_handleFormSubmit_inv (app : Script.App) (now : Date)
    (n u t q : jsstring) :
  Script_inv app -> Script_inv (fst (Script.handleFormSubmit app now n u t q)).
Proof.
  intros Hinv. pose proof Hinv as (Hwf & HP & _ & _). unfold Script.handleFormSubmit.
  destruct (negb (truthy (trim n)) || negb (truthy (trim u))); [done|].
  destruct (URL_protocol (trim u)); [|done].
  destruct (truthy_id (Script.currentEditId app)) as [editId|].
  - pose proof (Script_update_wf (Script.db app) editId
                  {| p_name := trim n; p_url := trim u;
                     p_tags := Script.formTags (trim t); p_createdAt := None |} Hwf) as Hwf'.
    destruct (Script.update _ _ _) as [db' [key|e]] eqn:Hup; cbn [fst] in *.
    + by apply Script_loadBookmarks_inv.
    + assert (db' = Script.db app) as ->.
      { unfold Script.update in Hup. destruct (IDB_get _ _); [done|]. by injection Hup. }
      by eapply Script_inv_same; [..|exact Hinv].
  - cbn [fst]. apply Script_loadBookmarks_inv; [|done]. cbn. by apply IDB_add_wf.
Qed.

Lemma Script_confirmDelete_inv (app : Script.App) (q : jsstring) :
  Script_inv app -> Script_inv (fst (Script.confirmDelete app q)).
Proof.
  intros Hinv. pose proof Hinv as (Hwf & HP & _ & _). unfold Script.confirmDelete.
  destruct (truthy_id (Script.deleteTargetId app)) as [target|]; [|done].
  cbn. apply Script_loadBookmarks_inv; [|done]. cbn. by apply IDB_delete_wf.
Qed.

Lemma Script_step_inv (app : Script.App) (ev : ScriptEvent) :
  Script_inv app -> Script_inv (Script_step app ev).
Proof.
  intros Hinv. pose proof Hinv as (Hwf & HP & _ & _).
  destruct ev as [q|page| |id| |id| |now n u t q|q]; cbn [Script_step].
  - by apply Script_loadBookmarks_inv.
  - by apply Script_goToPage_inv.
  - by eapply Script_inv_same; [..|exact Hinv].
  - unfold Script.showEditModal. destruct (Script.get _ _); [|done].
    by eapply Script_inv_same; [..|exact Hinv].
  - by eapply Script_inv_same; [..|exact Hinv].
  - by eapply Script_inv_same; [..|exact Hinv].
  - by eapply Script_inv_same; [..|exact Hinv].
  - by apply Script_handleFormSubmit_inv.
  - by apply Script_confirmDelete_inv.
Qed.

Lemma Script_run_inv (app : Script.App) (evs : list ScriptEvent) :
  Script_inv app -> Script_inv (Script_run app evs).
Proof.
  revert app. induction evs as [|ev evs IH]; intros app Hinv; [done|].
  cbn. apply IH. by apply Script_step_inv.
Qed.

Lemma Script_init_inv (store : ObjectStore) :
  store_wf store -> Script_inv (Script.init store).
Proof. intros Hwf. by apply Script_loadBookmarks_inv. Qed.

Lemma Script_loadBookmarks_db (app : Script.App) (q : jsstring) :
  Script.db (Script.loadBookmarks app q) = Script.db app.
Proof. unfold Script.loadBookmarks. by destruct (truthy q). Qed.

(** The key generator never goes back. *)
Lemma Script_step_keygen (app : Script.App) (ev : ScriptEvent) :
  (keygen (Script.db app) <= keygen (Script.db (Script_step app ev)))%nat.
Proof.
  destruct ev as [q|page| |id| |id| |now n u t q|q]; cbn [Script_step]; try done.
  - unfold Script.handleSearch. by rewrite Script_loadBookmarks_db.
  - unfold Script.goToPage. by destruct (_ || _).
  - unfold Script.showEditModal. by destruct (Script.get _ _).
  - unfold Script.handleFormSubmit.
    destruct (negb (truthy (trim n)) || negb (truthy (trim u))); [done|].
    destruct (URL_protocol (trim u)); [|done].
    destruct (truthy_id (Script.currentEditId app)) as [editId|].
    + unfold Script.update. destruct (IDB_get (Script.db app) editId); [|done].
      cbn [fst IDB_put]. rewrite Script_loadBookmarks_db. cbn. lia.
    + cbn [fst Script.add IDB_add]. rewrite Script_loadBookmarks_db. cbn. lia.
  - unfold Script.confirmDelete.
    destruct (truthy_id (Script.deleteTargetId app)); [|done].
    cbn [fst Script.delete]. rewrite Script_loadBookmarks_db. done.
Qed.

Lemma Script_run_keygen (app : Script.App) (evs : list ScriptEvent) :
  (keygen (Script.db app) <= keygen (Script.db (Script_run app evs)))%nat.
Proof.
  revert app. induction evs as [|ev evs IH]; intros app; [done|].
  cbn. etrans; [apply (Script_step_keygen app ev)|apply IH].
Qed.

End ScriptSessions.

(** In every state of a session of [script.js], started on a store whose
    keys came from the generator: every stored record carries its key as
    id and no key exceeds the generator; the page size is 12; the current
    page is at least 1 and at most the page count (1 when the list is
    empty); and every record in the list shown is in the store, as stored. *)
Theorem Script_session_invariant `{Platform} (store : ObjectStore)
    (evs : list ScriptEvent) :
  store_wf store ->
  let app := Script_run (Script.init store) evs in
  store_wf (Script.db app)
  /\ Script.itemsPerPage app = 12
  /\ 1 <= Script.currentPage app <= Z.max 1 (Script.totalPages app)
  /\ (forall b, b ∈ Script.filteredBookmarks app ->
                Script.get (Script.db app) (b_id b) = Some b).
Proof. intros Hwf. by apply Script_run_inv, Script_init_inv. Qed.

Lemma Script_session_invariant_witness :
  store_wf empty_store
  /\ let app := @Script_run ascii_platform (@Script.init ascii_platform empty_store)
                  demo_session in
     store_wf (Script.db app)
     /\ Script.itemsPerPage app = 12
     /\ 1 <= Script.currentPage app <= Z.max 1 (Script.totalPages app)
     /\ (forall b, b ∈ Script.filteredBookmarks app ->
                   Script.get (Script.db app) (b_id b) = Some b).
Proof.
  split; [exact empty_store_wf|].
  exact (@Script_session_invariant ascii_platform empty_store demo_session empty_store_wf).
Defined.

(** In every state of a session of [script.js], when the list shown has a
    record the page shown has a card: no sequence of deletions, searches
    and page requests leaves the user on an empty page of a non-empty
    list. *)
Theorem Script_page_never_empty `{Platform} (store : ObjectStore)
    (evs : list ScriptEvent) :
  store_wf store ->
  let app := Script_run (Script.init store) evs in
  Script.filteredBookmarks app <> [] -> Script.pageBookmarks app <> [].
Proof.
  intros Hwf app Hne.
  destruct (Script_run_inv (Script.init store) evs (Script_init_inv store Hwf))
    as (_ & HP & Hpage & _). fold app in HP, Hpage.
  pose proof (Math_ceil_div_spec (Z.of_nat (length (Script.filteredBookmarks app)))
                (Script.itemsPerPage app) ltac:(lia)) as Hceil.
  fold (Script.totalPages app) in Hceil.
  assert (0 < Z.of_nat (length (Script.filteredBookmarks app)))
    by (destruct (Script.filteredBookmarks app); [done|cbn; lia]).
  change (Script.pageBookmarks app)
    with (page_slice (Script.itemsPerPage app) (Script.filteredBookmarks app)
            (Script.currentPage app)).
  apply page_slice_nonempty; nia.
Qed.

Lemma Script_page_never_empty_witness :
  store_wf empty_store
  /\ let app := @Script_run ascii_platform (@Script.init ascii_platform empty_store)
                  demo_session in
     Script.filteredBookmarks app <> [] /\ Script.pageBookmarks app <> [].
Proof.
  split; [exact empty_store_wf|].
  assert (Hne : Script.filteredBookmarks
                  (@Script_run ascii_platform (@Script.init ascii_platform empty_store)
                     demo_session) <> []) by (vm_compute; discriminate).
  split; [exact Hne|].
  exact (@Script_page_never_empty ascii_platform empty_store demo_session
           empty_store_wf Hne).
Defined.

(** An id is never given twice in [script.js]: a record created at any
    later point of a session gets an id greater than the id of every record
    the store held before, whether or not that record was deleted in
    between, and no record has that id yet. *)
Theorem Script_ids_never_reused `{Platform} (store : ObjectStore)
    (before after : list ScriptEvent) (b : Bookmark) (now : Date) (draft : Draft) :
  store_wf store ->
  let app1 := Script_run (Script.init store) before in
  let app2 := Script_run app1 after in
  b ∈ Script.getAll (Script.db app1) ->
  exists db' id,
    Script.add (Script.db app2) now draft = (db', Resolved id)
    /\ (b_id b < id)%nat
    /\ Script.get (Script.db app2) id = None.
Proof.
  intros Hwf app1 app2 Hb.
  pose proof (Script_run_inv _ before (Script_init_inv store Hwf)) as (Hwf1 & _).
  fold app1 in Hwf1.
  pose proof (Script_run_inv _ after
                (Script_run_inv _ before (Script_init_inv store Hwf))) as (Hwf2 & _).
  fold app1 in Hwf2. fold app2 in Hwf2.
  pose proof (Script_run_keygen app1 after) as Hmono. fold app2 in Hmono.
  apply IDB_getAll_elem_of in Hb; [|done]. destruct (Hwf1 _ _ Hb) as [_ Hk].
  eexists _, _. split; [reflexivity|]. split; [lia|].
  unfold Script.get, IDB_get.
  destruct (records (Script.db app2) !! S (keygen (Script.db app2))) as [b'|] eqn:Hget;
    [|done].
  destruct (Hwf2 _ _ Hget). lia.
Qed.

Lemma Script_ids_never_reused_witness :
  store_wf demo_store
  /\ demo_record ∈ Script.getAll demo_store
  /\ exists db' id,
       Script.add
         (Script.db (@Script_run ascii_platform
                       (@Script_run ascii_platform (@Script.init ascii_platform demo_store) [])
                       [Ev_showDelete 1; Ev_confirmDelete []]))
         demo_now demo_draft = (db', Resolved id)
       /\ (b_id demo_record < id)%nat
       /\ Script.get
            (Script.db (@Script_run ascii_platform
                          (@Script_run ascii_platform (@Script.init ascii_platform demo_store) [])
                          [Ev_showDelete 1; Ev_confirmDelete []])) id = None.
Proof.
  assert (Hin : demo_record ∈ Script.getAll demo_store) by (vm_compute; apply list_elem_of_here).
  split; [exact demo_store_wf|]. split; [exact Hin|].
  exact (@Script_ids_never_reused ascii_platform demo_store []
           [Ev_showDelete 1; Ev_confirmDelete []] demo_record demo_now demo_draft
           demo_store_wf Hin).
Defined.

(** ** Sessions of the second implementation *)

Lemma for_range_elem_of (a b x : Z) : x ∈ for_range a b <-> a <= x <= b.
Proof. unfold for_range. rewrite elem_of_seqZ. lia. Qed.

Lemma pages_of_ge_1 (n : nat) : 1 <= Unnamed.pages_of n.
Proof. unfold Unnamed.pages_of. lia. Qed.

Section UnnamedSessions.
Context `{Platform}.

Lemma Unnamed_renderList_inv (st : Unnamed.State) :
  store_wf (Unnamed.db st) -> 1 <= Unnamed.page st ->
  (forall b, b ∈ Unnamed.items st -> IDB_get (Unnamed.db st) (b_id b) = Some b) ->
  Unnamed_inv (fst (Unnamed.renderList st)).
Proof.
  intros Hwf Hpage Hitems. unfold Unnamed_inv, Unnamed.renderList. cbn.
  split; [done|]. split; [|done].
  pose proof (pages_of_ge_1 (length (Unnamed.items st))).
  destruct (Z.ltb_spec (Unnamed.pages_of (length (Unnamed.items st))) (Unnamed.page st)); lia.
Qed.

Lemma Unnamed_refreshList_inv (st : Unnamed.State) :
  store_wf (Unnamed.db st) -> 1 <= Unnamed.page st ->
  Unnamed_inv (fst (Unnamed.refreshList st)).
Proof.
  intros Hwf Hpage. unfold Unnamed.refreshList. apply Unnamed_renderList_inv; cbn; [done..|].
  intros b. rewrite Array_sort_elem_of. intros Hb.
  assert (Hall : b ∈ IDB_getAll (Unnamed.db st)).
  { destruct (truthy (Unnamed.keyword st)); [|done].
    apply list_elem_of_In, filter_In in Hb as [Hb _]. by apply list_elem_of_In. }
  by apply IDB_getAll_elem_of in Hall.
Qed.

(** When the page is in range every button of the bar asks for a page in
    range. *)
Lemma Unnamed_renderPagination_targets (st : Unnamed.State) (pages : Z) (b : Unnamed.PageBtn) :
  1 <= Unnamed.page st <= pages ->
  b ∈ Unnamed.renderPagination st pages ->
  1 <= Unnamed.data_page b <= pages.
Proof.
  intros Hpage. unfold Unnamed.renderPagination.
  destruct (Z.leb_spec pages 1) as [|Hp]; [by intros ?%elem_of_nil|].
  rewrite !elem_of_app, !list_elem_of_singleton, list_elem_of_In, in_map_iff.
  intros [->|[(p & <- & Hp')| ->]]; cbn; [lia| |lia].
  apply list_elem_of_In, for_range_elem_of in Hp'. change (5 / 2) with 2 in Hp'. lia.
Qed.

Lemma Unnamed_onPageClick_inv (st : Unnamed.State) (p : Z) :
  Unnamed_inv st -> 1 <= p -> Unnamed_inv (fst (Unnamed.onPageClick st p)).
Proof.
  intros (Hwf & _ & Hitems) Hp. unfold Unnamed.onPageClick. by apply Unnamed_renderList_inv.
Qed.

Lemma Unnamed_renderList_same (st : Unnamed.State) :
  Unnamed_inv st ->
  snd (Unnamed.renderList st)
  = page_slice 12 (Unnamed.items st) (Unnamed.page st)
  /\ Unnamed.page (fst (Unnamed.renderList st)) = Unnamed.page st.
Proof.
  intros (_ & Hpage & _). unfold Unnamed.renderList. cbn.
  destruct (Z.ltb_spec (Unnamed.pages_of (length (Unnamed.items st))) (Unnamed.page st));
    [lia|done].
Qed.

Lemma Unnamed_updateBookmark_wf (store : ObjectStore) (id : nat) (data : Patch) :
  store_wf store -> store_wf (fst (Unnamed.updateBookmark store id data)).
Proof.
  intros Hwf. unfold Unnamed.updateBookmark, IDB_get.
  destruct (records store !! id) as [val|] eqn:Hget; [|done].
  apply IDB_put_wf; [done|]. cbn. destruct (Hwf id val Hget). lia.
Qed.

Lemma Unnamed_inv_same (st st' : Unnamed.State) :
  Unnamed.db st' = Unnamed.db st -> Unnamed.page st' = Unnamed.page st ->
  Unnamed.items st' = Unnamed.items st -> Unnamed_inv st -> Unnamed_inv st'.
Proof. unfold Unnamed_inv. intros -> -> ->. done. Qed.

Lemma Unnamed_onFormSubmit_inv (st : Unnamed.State) (now : Date) (m : Unnamed.Mode)
    (id : nat) (u n t c : jsstring) :
  Unnamed_inv st -> Unnamed_inv (fst (Unnamed.onFormSubmit st now m id u n t c)).
Proof.
  intros Hinv. pose proof Hinv as (Hwf & Hpage & _). unfold Unnamed.onFormSubmit.
  destruct (negb (Unnamed.isValidUrl (trim u))); [done|].
  destruct (negb (truthy (trim n))); [done|].
  destruct m.
  - cbn -[Unnamed.refreshList]. apply Unnamed_refreshList_inv; cbn; [by apply IDB_add_wf|lia].
  - match goal with |- context [Unnamed.updateBookmark ?s ?i ?d] =>
      pose proof (Unnamed_updateBookmark_wf s i d Hwf) as Hwf';
      destruct (Unnamed.updateBookmark s i d) as [store' [v|e]] eqn:Hup end; cbn [fst] in *.
    + apply Unnamed_refreshList_inv; cbn; [done|lia].
    + assert (store' = Unnamed.db st) as ->.
      { unfold Unnamed.updateBookmark in Hup. destruct (IDB_get _ _); [done|]. by injection Hup. }
      by eapply Unnamed_inv_same; [..|exact Hinv].
Qed.

Lemma Unnamed_step_inv (st : Unnamed.State) (ev : UnnamedEvent) :
  Unnamed_inv st -> Unnamed_inv (Unnamed_step st ev).
Proof.
  intros Hinv. pose proof Hinv as (Hwf & Hpage & Hitems).
  destruct ev as [q|n|id action|now form|]; cbn [Unnamed_step].
  - unfold Unnamed.onSearch. apply Unnamed_refreshList_inv; cbn; [done|lia].
  - destruct (Unnamed.pagination_of st !! n) as [b|] eqn:Hb; [|done].
    apply Unnamed_onPageClick_inv; [done|].
    apply list_elem_of_lookup_2 in Hb. unfold Unnamed.pagination_of in Hb.
    apply Unnamed_renderPagination_targets in Hb; [lia|].
    by rewrite (proj2 (Unnamed_renderList_same st Hinv)).
  - unfold Unnamed.onCardActionClick. destruct action.
    + by destruct (List.find _ _).
    + by eapply Unnamed_inv_same; [..|exact Hinv].
  - by apply Unnamed_onFormSubmit_inv.
  - unfold Unnamed.onConfirmDelete. destruct (truthy_id (Unnamed.deletingId st)); [|done].
    cbn -[Unnamed.refreshList]. apply Unnamed_refreshList_inv; cbn; [by apply IDB_delete_wf|lia].
Qed.

Lemma Unnamed_run_inv (st : Unnamed.State) (evs : list UnnamedEvent) :
  Unnamed_inv st -> Unnamed_inv (Unnamed_run st evs).
Proof.
  revert st. induction evs as [|ev evs IH]; intros st Hinv; [done|].
  cbn. apply IH. by apply Unnamed_step_inv.
Qed.

Lemma Unnamed_boot_inv (store : ObjectStore) :
  store_wf store -> Unnamed_inv (Unnamed.boot store).
Proof. intros Hwf. unfold Unnamed.boot. apply Unnamed_refreshList_inv; cbn; [done|lia]. Qed.

End UnnamedSessions.

Section UnnamedSessionFacts.
Context `{Platform}.

Lemma Unnamed_refreshList_db_eq (st : Unnamed.State) :
  Unnamed.db (fst (Unnamed.refreshList st)) = Unnamed.db st.
Proof. reflexivity. Qed.

Lemma Unnamed_step_keygen (st : Unnamed.State) (ev : UnnamedEvent) :
  (keygen (Unnamed.db st) <= keygen (Unnamed.db (Unnamed_step st ev)))%nat.
Proof.
  destruct ev as [q|n|id action|now form|]; cbn [Unnamed_step]; try done.
  - by destruct (Unnamed.pagination_of st !! n).
  - unfold Unnamed.onCardActionClick. destruct action; [by destruct (List.find _ _)|done].
  - unfold Unnamed.submit, Unnamed.onFormSubmit.
    destruct (negb (Unnamed.isValidUrl _)); [done|]. destruct (negb (truthy _)); [done|].
    destruct (Unnamed.mode form).
    + cbn -[Unnamed.refreshList]. rewrite Unnamed_refreshList_db_eq. cbn. lia.
    + unfold Unnamed.updateBookmark. destruct (IDB_get _ _); [|done].
      cbn -[Unnamed.refreshList]. rewrite Unnamed_refreshList_db_eq. cbn. lia.
  - unfold Unnamed.onConfirmDelete. destruct (truthy_id _); [|done].
    cbn -[Unnamed.refreshList]. by rewrite Unnamed_refreshList_db_eq.
Qed.

Lemma Unnamed_run_keygen (st : Unnamed.State) (evs : list UnnamedEvent) :
  (keygen (Unnamed.db st) <= keygen (Unnamed.db (Unnamed_run st evs)))%nat.
Proof.
  revert st. induction evs as [|ev evs IH]; intros st; [done|].
  cbn. etrans; [apply (Unnamed_step_keygen st ev)|apply IH].
Qed.

End UnnamedSessionFacts.

(** In every state of a session of the second implementation, started on
    a store whose keys came from the generator: every stored record carries
    its key as id and no key exceeds the generator; the page is at least 1
    and at most the page count; and every record in the list shown is in
    the store, as stored. Page clicks are clicks on buttons of the bar. *)
Theorem Unnamed_session_invariant `{Platform} (store : ObjectStore)
    (evs : list UnnamedEvent) :
  store_wf store ->
  let st := Unnamed_run (Unnamed.boot store) evs in
  store_wf (Unnamed.db st)
  /\ 1 <= Unnamed.page st <= Unnamed.pages_of (length (Unnamed.items st))
  /\ (forall b, b ∈ Unnamed.items st -> IDB_get (Unnamed.db st) (b_id b) = Some b).
Proof. intros Hwf. by apply Unnamed_run_inv, Unnamed_boot_inv. Qed.

Lemma Unnamed_session_invariant_witness :
  store_wf empty_store
  /\ let st := @Unnamed_run ascii_platform (@Unnamed.boot ascii_platform empty_store)
                 demo_session2 in
     store_wf (Unnamed.db st)
     /\ 1 <= Unnamed.page st <= Unnamed.pages_of (length (Unnamed.items st))
     /\ (forall b, b ∈ Unnamed.items st -> IDB_get (Unnamed.db st) (b_id b) = Some b).
Proof.
  split; [exact empty_store_wf|].
  exact (@Unnamed_session_invariant ascii_platform empty_store demo_session2 empty_store_wf).
Defined.

(** In every state of a session of the second implementation,
    [renderList] leaves the page as it is and, when the list has a record,
    draws at least one card: deleting the last card of the last page moves
    the user to the page before rather than to an empty page. *)
Theorem Unnamed_page_never_empty `{Platform} (store : ObjectStore)
    (evs : list UnnamedEvent) :
  store_wf store ->
  let st := Unnamed_run (Unnamed.boot store) evs in
  Unnamed.page (fst (Unnamed.renderList st)) = Unnamed.page st
  /\ (Unnamed.items st <> [] -> snd (Unnamed.renderList st) <> []).
Proof.
  intros Hwf st.
  pose proof (Unnamed_run_inv _ evs (Unnamed_boot_inv store Hwf)) as Hinv. fold st in Hinv.
  destruct (Unnamed_renderList_same st Hinv) as [Hslice Hsame].
  split; [exact Hsame|]. intros Hne. rewrite Hslice.
  destruct Hinv as (_ & Hpage & _).
  pose proof (Math_ceil_div_spec (Z.of_nat (length (Unnamed.items st))) 12 ltac:(lia)) as Hceil.
  assert (0 < Z.of_nat (length (Unnamed.items st)))
    by (destruct (Unnamed.items st); [done|cbn; lia]).
  unfold Unnamed.pages_of, Unnamed.PAGE_SIZE in Hpage.
  apply page_slice_nonempty; lia.
Qed.

Lemma Unnamed_page_never_empty_witness :
  store_wf store13
  /\ let st := @Unnamed_run ascii_platform (@Unnamed.boot ascii_platform store13)
                 [Un_pageClick 2; Un_card 1 Unnamed.action_delete; Un_confirmDelete] in
     Unnamed.page st = 1 /\ length (snd (Unnamed.renderList st)) = 12%nat
     /\ Unnamed.page (fst (Unnamed.renderList st)) = Unnamed.page st.
Proof.
  assert (Hwf : store_wf store13).
  { unfold store13. cbn [fold_left seq]. repeat apply IDB_add_wf. apply empty_store_wf. }
  split; [exact Hwf|]. split; [vm_compute; reflexivity|]. split; [vm_compute; reflexivity|].
  exact (proj1 (@Unnamed_page_never_empty ascii_platform store13
                  [Un_pageClick 2; Un_card 1 Unnamed.action_delete; Un_confirmDelete] Hwf)).
Defined.

(** An id is never given twice in the second implementation either: a
    record created at any later point of a session gets an id greater than
    the id of every record the store held before, deleted since or not. *)
Theorem Unnamed_ids_never_reused `{Platform} (store : ObjectStore)
    (before after : list UnnamedEvent) (b : Bookmark) (item : Item) :
  store_wf store ->
  let st1 := Unnamed_run (Unnamed.boot store) before in
  let st2 := Unnamed_run st1 after in
  b ∈ Unnamed.getAllBookmarks (Unnamed.db st1) ->
  exists db' id,
    Unnamed.addBookmark (Unnamed.db st2) item = (db', Resolved id)
    /\ (b_id b < id)%nat
    /\ IDB_get (Unnamed.db st2) id = None.
Proof.
  intros Hwf st1 st2 Hb.
  pose proof (Unnamed_run_inv _ before (Unnamed_boot_inv store Hwf)) as Hinv1.
  fold st1 in Hinv1. pose proof Hinv1 as (Hwf1 & _).
  pose proof (Unnamed_run_inv st1 after Hinv1) as (Hwf2 & _). fold st2 in Hwf2.
  pose proof (Unnamed_run_keygen st1 after) as Hmono. fold st2 in Hmono.
  apply IDB_getAll_elem_of in Hb; [|done]. destruct (Hwf1 _ _ Hb) as [_ Hk].
  eexists _, _. split; [reflexivity|]. split; [lia|].
  unfold IDB_get.
  destruct (records (Unnamed.db st2) !! S (keygen (Unnamed.db st2))) as [b'|] eqn:Hget;
    [|done].
  destruct (Hwf2 _ _ Hget). lia.
Qed.

Lemma Unnamed_ids_never_reused_witness :
  store_wf demo_store
  /\ demo_record ∈ Unnamed.getAllBookmarks demo_store
  /\ exists db' id,
       Unnamed.addBookmark
         (Unnamed.db (@Unnamed_run ascii_platform
                        (@Unnamed_run ascii_platform (@Unnamed.boot ascii_platform demo_store) [])
                        [Un_card 1 Unnamed.action_delete; Un_confirmDelete]))
         {| i_name := str "n"; i_url := str "https://n.example/"; i_tags := [];
            i_createdAt := str "2026-11-02 09:09" |} = (db', Resolved id)
       /\ (b_id demo_record < id)%nat
       /\ IDB_get
            (Unnamed.db (@Unnamed_run ascii_platform
                           (@Unnamed_run ascii_platform (@Unnamed.boot ascii_platform demo_store) [])
                           [Un_card 1 Unnamed.action_delete; Un_confirmDelete])) id = None.
Proof.
  assert (Hin : demo_record ∈ Unnamed.getAllBookmarks demo_store)
    by (vm_compute; apply list_elem_of_here).
  split; [exact demo_store_wf|]. split; [exact Hin|].
  exact (@Unnamed_ids_never_reused ascii_platform demo_store []
           [Un_card 1 Unnamed.action_delete; Un_confirmDelete] demo_record _
           demo_store_wf Hin).
Defined.

(** ** The pagination bar of the second implementation *)

(** For a page within 1..pages: there is no bar for a single page;
    otherwise the bar is a previous button, numbered buttons for a run of
    consecutive pages that contains the current page and has five pages
    (all the pages when there are fewer than five), and a next button; the
    previous and next buttons stop at the first and last page. Every button
    asks for a page within 1..pages, and a click on it shows exactly that
    page. *)
Theorem Unnamed_pagination_bar (st : Unnamed.State) :
  let pages := Unnamed.pages_of (length (Unnamed.items st)) in
  let bar := Unnamed.renderPagination st pages in
  1 <= Unnamed.page st <= pages ->
  (pages = 1 -> bar = [])
  /\ (1 < pages ->
      exists a b,
        1 <= a /\ a <= Unnamed.page st <= b /\ b <= pages /\ b - a + 1 = Z.min pages 5
        /\ bar
           = {| Unnamed.data_page := Z.max 1 (Unnamed.page st - 1);
                Unnamed.label := [8249%N]; Unnamed.btn_active := false |}
             :: List.map (fun p => {| Unnamed.data_page := p; Unnamed.label := String_of p;
                                      Unnamed.btn_active := p =? Unnamed.page st |})
                  (for_range a b)
             ++ [{| Unnamed.data_page := Z.min pages (Unnamed.page st + 1);
                    Unnamed.label := [8250%N]; Unnamed.btn_active := false |}])
  /\ (forall btn, btn ∈ bar ->
        1 <= Unnamed.data_page btn <= pages
        /\ Unnamed.page (fst (Unnamed.onPageClick st (Unnamed.data_page btn)))
           = Unnamed.data_page btn
        /\ snd (Unnamed.onPageClick st (Unnamed.data_page btn))
           = page_slice 12 (Unnamed.items st) (Unnamed.data_page btn)).
Proof.
  intros pages bar Hpage. split; [|split].
  - intros Hone. unfold bar, Unnamed.renderPagination. by rewrite Hone.
  - intros Hmany. unfold bar, Unnamed.renderPagination.
    destruct (Z.leb_spec pages 1) as [|_]; [lia|]. change (5 / 2) with 2.
    eexists _, _. split; [|split; [|split; [|split; [|reflexivity]]]]; lia.
  - intros btn Hbtn.
    pose proof (Unnamed_renderPagination_targets st pages btn Hpage Hbtn) as Hin.
    split; [exact Hin|]. by apply Unnamed_onPageClick_in_range.
Qed.

Lemma Unnamed_pagination_bar_witness :
  let st := fst (@Unnamed.refreshList ascii_platform (Unnamed.initial_state store13)) in
  1 <= Unnamed.page st <= Unnamed.pages_of (length (Unnamed.items st))
  /\ List.map Unnamed.data_page
       (Unnamed.renderPagination st (Unnamed.pages_of (length (Unnamed.items st))))
     = [1; 1; 2; 2]
  /\ (1 < Unnamed.pages_of (length (Unnamed.items st)) ->
      exists a b,
        1 <= a /\ a <= Unnamed.page st <= b
        /\ b <= Unnamed.pages_of (length (Unnamed.items st))
        /\ b - a + 1 = Z.min (Unnamed.pages_of (length (Unnamed.items st))) 5
        /\ Unnamed.renderPagination st (Unnamed.pages_of (length (Unnamed.items st)))
           = {| Unnamed.data_page := Z.max 1 (Unnamed.page st - 1);
                Unnamed.label := [8249%N]; Unnamed.btn_active := false |}
             :: List.map (fun p => {| Unnamed.data_page := p; Unnamed.label := String_of p;
                                      Unnamed.btn_active := p =? Unnamed.page st |})
                  (for_range a b)
             ++ [{| Unnamed.data_page :=
                      Z.min (Unnamed.pages_of (length (Unnamed.items st))) (Unnamed.page st + 1);
                    Unnamed.label := [8250%N]; Unnamed.btn_active := false |}]).
Proof.
  intros st.
  assert (Hpage : 1 <= Unnamed.page st <= Unnamed.pages_of (length (Unnamed.items st)))
    by (vm_compute; split; discriminate).
  split; [exact Hpage|]. split; [vm_compute; reflexivity|].
  exact (proj1 (proj2 (Unnamed_pagination_bar st Hpage))).
Defined.

(** ** The pagination bar of [script.js] *)

Lemma seqZ_sorted (m : Z) (n : nat) : StronglySorted Z.lt (seqZ m (Z.of_nat n)).
Proof.
  revert m. induction n as [|n IH]; intros m; [constructor|].
  rewrite seqZ_cons by lia. replace (Z.pred (Z.of_nat (S n))) with (Z.of_nat n) by lia.
  constructor; [apply IH|]. rewrite Forall_forall. intros x Hx%elem_of_seqZ. lia.
Qed.

Lemma for_range_sorted (a b : Z) : StronglySorted Z.lt (for_range a b).
Proof.
  unfold for_range. destruct (Z.le_gt_cases 0 (b - a + 1)) as [Hle|Hgt].
  - rewrite <- (Z2Nat.id (b - a + 1)) by done. apply seqZ_sorted.
  - replace (seqZ a (b - a + 1)) with (@nil Z); [constructor|].
    unfold seqZ. by replace (Z.to_nat (b - a + 1)) with 0%nat by lia.
Qed.

Lemma page_numbers_PageNum (l : list Z) : page_numbers (List.map Script.PageNum l) = l.
Proof. unfold page_numbers. induction l as [|x l IH]; [done|]. cbn. by f_equal. Qed.

Lemma page_numbers_app (l k : list Script.PageItem) :
  page_numbers (l ++ k) = page_numbers l ++ page_numbers k.
Proof. apply omap_app. Qed.

Lemma for_range_few (a : Z) (n : nat) (b : Z) :
  b = a + Z.of_nat n - 1 -> for_range a b = seqZ a (Z.of_nat n).
Proof. intros ->. unfold for_range. f_equal. lia. Qed.

Lemma length_for_range (a b : Z) : a <= b + 1 -> Z.of_nat (length (for_range a b)) = b - a + 1.
Proof. intros Hab. unfold for_range. rewrite length_seqZ. lia. Qed.

(** What [getPageNumbers] lists when the current page is within
    1..totalPages. *)
Lemma Script_getPageNumbers_numbers (app : Script.App) (tp : Z) :
  1 <= Script.currentPage app <= tp ->
  let numbers := page_numbers (Script.getPageNumbers app tp) in
  StronglySorted Z.lt numbers
  /\ (forall n, n ∈ numbers -> 1 <= n <= tp)
  /\ 1 ∈ numbers /\ tp ∈ numbers /\ Script.currentPage app ∈ numbers
  /\ (length (Script.getPageNumbers app tp) <= 7)%nat.
Proof.
  intros Hcp. unfold Script.getPageNumbers.
  destruct (Z.leb_spec tp 7) as [Hsmall|Hbig].
  - cbn zeta. rewrite page_numbers_PageNum, length_map.
    split; [apply for_range_sorted|]. setoid_rewrite for_range_elem_of.
    split; [done|]. split; [lia|]. split; [lia|]. split; [lia|].
    pose proof (length_for_range 1 tp ltac:(lia)). lia.
  - destruct (Z.leb_spec (Script.currentPage app) 3) as [Hlow|Hmid].
    + cbn zeta. rewrite !page_numbers_app, page_numbers_PageNum.
      change (for_range 1 4) with [1; 2; 3; 4]. cbn.
      split; [repeat constructor; lia|].
      repeat setoid_rewrite elem_of_cons. setoid_rewrite elem_of_nil.
      split; [lia|]. split; [tauto|]. split; [tauto|]. split; [lia|]. cbn. lia.
    + destruct (Z.leb_spec (tp - 2) (Script.currentPage app)) as [Hhigh|Hmiddle].
      * cbn zeta. rewrite !page_numbers_app, page_numbers_PageNum.
        rewrite (for_range_few (tp - 3) 4 tp) by lia.
        change (seqZ (tp - 3) (Z.of_nat 4)) with [0 + (tp - 3); 1 + (tp - 3); 2 + (tp - 3); 3 + (tp - 3)].
        cbn.
        split; [repeat constructor; lia|].
        repeat setoid_rewrite elem_of_cons. setoid_rewrite elem_of_nil.
        split; [lia|]. split; [tauto|]. split; [lia|]. split; [lia|]. cbn. lia.
      * cbn zeta. rewrite !page_numbers_app, page_numbers_PageNum.
        rewrite (for_range_few (Script.currentPage app - 1) 3 (Script.currentPage app + 1))
          by lia.
        set (c := Script.currentPage app) in *.
        change (seqZ (c - 1) (Z.of_nat 3)) with [0 + (c - 1); 1 + (c - 1); 2 + (c - 1)].
        cbn.
        split; [repeat constructor; lia|].
        repeat setoid_rewrite elem_of_cons. setoid_rewrite elem_of_nil.
        split; [lia|]. split; [tauto|]. split; [tauto|]. split; [lia|]. cbn. lia.
Qed.

Lemma enabled_targets_numbers (cp : Z) (items : list Script.PageItem) :
  enabled_targets
    (List.map (fun page =>
                 match page with
                 | Script.PageDots => Script.Control_ellipsis
                 | Script.PageNum p =>
                     Script.Control_button
                       {| Script.target := p; Script.disabled := false;
                          Script.active := p =? cp |}
                 end) items)
  = page_numbers items.
Proof.
  unfold enabled_targets, page_numbers.
  induction items as [|[n|] items IH]; [done| |]; cbn; by f_equal.
Qed.

(** For a current page within 1..totalPages: there is no bar for a single
    page; the items between the previous and the next button are at most
    seven, their page numbers ascend, lie within 1..totalPages and include
    the first page, the last page and the current page; and every button
    that is not disabled asks for a page within 1..totalPages, so
    [goToPage] shows exactly that page. *)
Theorem Script_pagination_bar (app : Script.App) :
  let tp := Script.totalPages app in
  let numbers := page_numbers (Script.getPageNumbers app tp) in
  1 <= Script.currentPage app <= tp ->
  (tp <= 1 -> Script.renderPagination app = [])
  /\ StronglySorted Z.lt numbers
  /\ (forall n, n ∈ numbers -> 1 <= n <= tp)
  /\ 1 ∈ numbers /\ tp ∈ numbers /\ Script.currentPage app ∈ numbers
  /\ (length (Script.getPageNumbers app tp) <= 7)%nat
  /\ (forall t, t ∈ enabled_targets (Script.renderPagination app) ->
        1 <= t <= tp
        /\ Script.currentPage (Script.goToPage app t) = t
        /\ Script.pageBookmarks (Script.goToPage app t)
           = page_slice (Script.itemsPerPage app) (Script.filteredBookmarks app) t).
Proof.
  intros tp numbers Hcp.
  destruct (Script_getPageNumbers_numbers app tp Hcp) as (Hs & Hin & H1 & Htp & Hc & Hlen).
  split.
  { intros Hone. unfold Script.renderPagination. fold tp.
    destruct (Z.leb_spec tp 1); [done|lia]. }
  split; [exact Hs|]. split; [exact Hin|]. split; [exact H1|]. split; [exact Htp|].
  split; [exact Hc|]. split; [exact Hlen|].
  intros t Ht.
  assert (Hrange : 1 <= t <= tp).
  { unfold Script.renderPagination in Ht. fold tp in Ht.
    destruct (Z.leb_spec tp 1) as [|Hmany]; [by apply elem_of_nil in Ht|].
    unfold enabled_targets in Ht. rewrite !omap_app in Ht.
    fold (enabled_targets
            (List.map (fun page =>
               match page with
               | Script.PageDots => Script.Control_ellipsis
               | Script.PageNum p =>
                   Script.Control_button
                     {| Script.target := p; Script.disabled := false;
                        Script.active := p =? Script.currentPage app |}
               end) (Script.getPageNumbers app tp))) in Ht.
    rewrite enabled_targets_numbers in Ht.
    rewrite !elem_of_app in Ht. destruct Ht as [Ht|[Ht|Ht]].
    - cbn in Ht. destruct (Z.eqb_spec (Script.currentPage app) 1); cbn in Ht;
        [by apply elem_of_nil in Ht|]. apply list_elem_of_singleton in Ht. lia.
    - by apply Hin.
    - cbn in Ht. destruct (Z.eqb_spec (Script.currentPage app) tp); cbn in Ht;
        [by apply elem_of_nil in Ht|]. apply list_elem_of_singleton in Ht. lia. }
  split; [exact Hrange|]. by apply Script_goToPage_in_range.
Qed.

Lemma Script_pagination_bar_witness :
  1 <= Script.currentPage app13 <= Script.totalPages app13
  /\ enabled_targets (Script.renderPagination app13) = [1; 2; 2]
  /\ (forall t, t ∈ enabled_targets (Script.renderPagination app13) ->
        1 <= t <= Script.totalPages app13
        /\ Script.currentPage (Script.goToPage app13 t) = t
        /\ Script.pageBookmarks (Script.goToPage app13 t)
           = page_slice (Script.itemsPerPage app13) (Script.filteredBookmarks app13) t).
Proof.
  assert (Hcp : 1 <= Script.currentPage app13 <= Script.totalPages app13)
    by (vm_compute; split; discriminate).
  split; [exact Hcp|]. split; [vm_compute; reflexivity|].
  exact (proj2 (proj2 (proj2 (proj2 (proj2 (proj2 (proj2
           (Script_pagination_bar app13 Hcp)))))))).
Defined.

(** ** Escaping *)

Lemma escape_passes (c : N) :
  replaceAll 39 (str "&#39;")
    (replaceAll 34 (str "&quot;")
       (replaceAll 62 (str "&gt;")
          (replaceAll 60 (str "&lt;")
             (replaceAll 38 (str "&amp;") [c]))))
  = escape_char c.
Proof.
  unfold escape_char.
  destruct (N.eqb_spec c 38) as [->|H38]; [reflexivity|].
  destruct (N.eqb_spec c 60) as [->|H60]; [reflexivity|].
  destruct (N.eqb_spec c 62) as [->|H62]; [reflexivity|].
  destruct (N.eqb_spec c 34) as [->|H34]; [reflexivity|].
  destruct (N.eqb_spec c 39) as [->|H39]; [reflexivity|].
  unfold replaceAll. cbn [flat_map app].
  apply N.eqb_neq in H38, H60, H62, H34, H39.
  rewrite H38. cbn [flat_map app]. rewrite H60. cbn [flat_map app].
  rewrite H62. cbn [flat_map app]. rewrite H34. cbn [flat_map app].
  by rewrite H39.
Qed.

Lemma replaceAll_absent (c : N) (by_ s : jsstring) :
  Forall (fun d => d <> c) s -> replaceAll c by_ s = s.
Proof.
  unfold replaceAll. induction 1 as [|d rest Hd _ IH]; [done|].
  cbn [flat_map]. apply N.eqb_neq in Hd. by rewrite Hd, IH.
Qed.

(** The five passes of [escapeHtml] are one pass, character by
    character. *)
Lemma replaceAll_app (c : N) (by_ s t : jsstring) :
  replaceAll c by_ (s ++ t) = replaceAll c by_ s ++ replaceAll c by_ t.
Proof. apply flat_map_app. Qed.

(** The five passes of [escapeHtml] are one pass, character by
    character. *)
Lemma Unnamed_escapeHtml_flat_map (s : jsstring) :
  Unnamed.escapeHtml s = flat_map escape_char s.
Proof.
  induction s as [|c s IH]; [done|].
  change (c :: s) with ([c] ++ s) at 1. unfold Unnamed.escapeHtml in *.
  rewrite !replaceAll_app, IH, escape_passes. reflexivity.
Qed.

Lemma escape_char_safe (c : N) :
  Forall (fun d => d <> 60%N /\ d <> 62%N /\ d <> 34%N /\ d <> 39%N) (escape_char c).
Proof.
  unfold escape_char.
  destruct (N.eqb_spec c 38); [repeat constructor; discriminate|].
  destruct (N.eqb_spec c 60); [repeat constructor; discriminate|].
  destruct (N.eqb_spec c 62); [repeat constructor; discriminate|].
  destruct (N.eqb_spec c 34); [repeat constructor; discriminate|].
  destruct (N.eqb_spec c 39); [repeat constructor; discriminate|].
  by repeat constructor.
Qed.

Lemma unescape_escape_char (c : N) (rest : jsstring) :
  unescape_go 0 (escape_char c ++ rest) = c :: unescape_go 0 rest.
Proof.
  unfold escape_char.
  destruct (N.eqb_spec c 38) as [->|H38]; [by destruct rest|].
  destruct (N.eqb_spec c 60) as [->|H60]; [by destruct rest|].
  destruct (N.eqb_spec c 62) as [->|H62]; [by destruct rest|].
  destruct (N.eqb_spec c 34) as [->|H34]; [by destruct rest|].
  destruct (N.eqb_spec c 39) as [->|H39]; [by destruct rest|].
  cbn [app unescape_go].
  assert (Hamp : (38 =? c)%N = false) by (apply N.eqb_neq; congruence).
  cbn [startsWith str list_ascii_of_string List.map].
  change (N_of_ascii "&") with 38%N. by rewrite Hamp.
Qed.

(** [escapeHtml] of the second implementation: every character is
    replaced on its own (an ampersand written by a later pass is not
    escaped again); the result has no [<], [>], double or single quote;
    reading the five entities back gives the text again, so two texts with
    the same escaped form are equal; and [escapeAttr] gives the same result
    as [escapeHtml], its own replacement finding nothing left to replace. *)
Theorem Unnamed_escapeHtml_safe (s : jsstring) :
  Unnamed.escapeHtml s = flat_map escape_char s
  /\ Forall (fun d => d <> 60%N /\ d <> 62%N /\ d <> 34%N /\ d <> 39%N)
       (Unnamed.escapeHtml s)
  /\ unescapeHtml (Unnamed.escapeHtml s) = s
  /\ Unnamed.escapeAttr s = Unnamed.escapeHtml s.
Proof.
  assert (Hsafe : Forall (fun d => d <> 60%N /\ d <> 62%N /\ d <> 34%N /\ d <> 39%N)
                    (Unnamed.escapeHtml s)).
  { rewrite Unnamed_escapeHtml_flat_map. induction s as [|c s IH]; [constructor|].
    cbn. apply Forall_app. split; [apply escape_char_safe|exact IH]. }
  split; [apply Unnamed_escapeHtml_flat_map|]. split; [exact Hsafe|]. split.
  - clear Hsafe. rewrite Unnamed_escapeHtml_flat_map. unfold unescapeHtml.
    induction s as [|c s IH]; [done|]. cbn [flat_map].
    by rewrite unescape_escape_char, IH.
  - unfold Unnamed.escapeAttr. apply replaceAll_absent.
    eapply Forall_impl; [exact Hsafe|]. cbn. tauto.
Qed.

Example escapeHtml_ex :
  Unnamed.escapeHtml (str "<a href='x'>R&D</a>")
  = str "&lt;a href=&#39;x&#39;&gt;R&amp;D&lt;/a&gt;".
Proof. reflexivity. Qed.

(** ** The exported file *)

Lemma join_cons_cons (sep p q : jsstring) (rest : list jsstring) :
  join sep (p :: q :: rest) = p ++ sep ++ join sep (q :: rest).
Proof. reflexivity. Qed.

Lemma csv_go_quoted (t cur : jsstring) (fields : list jsstring)
    (rows : list (list jsstring)) (rest : jsstring) :
  csv_go csv_quoted cur fields rows (replaceAll 34 [34; 34]%N t ++ 34%N :: rest)
  = csv_go csv_after_quote (rev t ++ cur) fields rows rest.
Proof.
  revert cur. induction t as [|c t IH]; intros cur; [done|].
  change (c :: t) with ([c] ++ t). rewrite replaceAll_app, <- app_assoc.
  unfold replaceAll at 1. cbn [flat_map]. rewrite app_nil_r.
  destruct (N.eqb_spec c 34) as [->|Hc].
  - cbn [app csv_go N.eqb Pos.eqb]. rewrite IH. cbn [rev app].
    by rewrite <- (app_assoc (rev t) [34%N] cur).
  - cbn [app csv_go]. apply N.eqb_neq in Hc. rewrite Hc, IH. cbn [rev app].
    by rewrite <- (app_assoc (rev t) [c] cur).
Qed.

Lemma csv_go_cell (x : Cell) (fields : list jsstring) (rows : list (list jsstring))
    (rest : jsstring) :
  csv_go csv_start [] fields rows (Script.csv_cell x ++ rest)
  = csv_go csv_after_quote (rev (String_of_cell x)) fields rows rest.
Proof.
  unfold Script.csv_cell. rewrite <- !app_assoc. cbn [app csv_go N.eqb Pos.eqb].
  rewrite csv_go_quoted. by rewrite app_nil_r.
Qed.

(** A record of quoted cells, followed by a line feed or by the end. *)
Lemma csv_go_row (xs : list Cell) (x : Cell) (fields : list jsstring)
    (rows : list (list jsstring)) :
  (forall rest,
      csv_go csv_start [] fields rows
        (join [44%N] (List.map Script.csv_cell (x :: xs)) ++ 10%N :: rest)
      = csv_go csv_start [] [] ((rev fields ++ List.map String_of_cell (x :: xs)) :: rows) rest)
  /\ csv_go csv_start [] fields rows (join [44%N] (List.map Script.csv_cell (x :: xs)))
     = Some (rev ((rev fields ++ List.map String_of_cell (x :: xs)) :: rows)).
Proof.
  revert x fields. induction xs as [|y ys IH]; intros x fields.
  - cbn [List.map join]. split.
    + intros rest. rewrite csv_go_cell. cbn [csv_go N.eqb Pos.eqb].
      rewrite rev_involutive. cbn [rev]. done.
    + rewrite <- (app_nil_r (Script.csv_cell x)), csv_go_cell. cbn [csv_go].
      rewrite rev_involutive. cbn [rev]. done.
  - cbn [List.map]. rewrite join_cons_cons.
    destruct (IH y (String_of_cell x :: fields)) as [IH1 IH2].
    change (List.map Script.csv_cell (y :: ys))
      with (Script.csv_cell y :: List.map Script.csv_cell ys) in IH1, IH2.
    split.
    + intros rest. rewrite <- !app_assoc, csv_go_cell. cbn [app csv_go N.eqb Pos.eqb].
      rewrite rev_involutive, IH1. cbn [rev List.map]. by rewrite <- app_assoc.
    + rewrite csv_go_cell. cbn [app csv_go N.eqb Pos.eqb].
      rewrite rev_involutive, IH2. cbn [rev List.map]. by rewrite <- app_assoc.
Qed.

Lemma csv_go_plain (t cur : jsstring) (fields : list jsstring)
    (rows : list (list jsstring)) (rest : jsstring) :
  forallb csv_plain_char t = true ->
  csv_go csv_plain cur fields rows (t ++ rest)
  = csv_go csv_plain (rev t ++ cur) fields rows rest.
Proof.
  revert cur. induction t as [|c t IH]; intros cur; [done|].
  cbn [forallb]. intros [Hc Ht]%andb_true_iff. cbn [app].
  unfold csv_plain_char in Hc. apply negb_true_iff in Hc.
  apply orb_false_iff in Hc as [[H34 H44]%orb_false_iff H10].
  cbn [csv_go]. rewrite H34, H44, H10, IH by done. cbn [rev].
  by rewrite <- (app_assoc (rev t) [c] cur).
Qed.

Lemma csv_go_title (t : jsstring) (fields : list jsstring) (rows : list (list jsstring)) :
  forallb csv_plain_char t = true ->
  (forall rest,
      csv_go csv_start [] fields rows (t ++ 44%N :: rest)
      = csv_go csv_start [] (t :: fields) rows rest)
  /\ (forall rest,
      csv_go csv_start [] fields rows (t ++ 10%N :: rest)
      = csv_go csv_start [] [] (rev (t :: fields) :: rows) rest)
  /\ csv_go csv_start [] fields rows t = Some (rev (rev (t :: fields) :: rows)).
Proof.
  intros Ht. destruct t as [|c t]; [by repeat split|].
  pose proof Ht as Hall. cbn [forallb] in Ht. apply andb_true_iff in Ht as [Hc Ht].
  unfold csv_plain_char in Hc. apply negb_true_iff in Hc.
  apply orb_false_iff in Hc as [[H34 H44]%orb_false_iff H10].
  assert (Hrev : rev (rev t ++ [c]) = c :: t)
    by (rewrite rev_app_distr, rev_involutive; done).
  repeat split.
  - intros rest. cbn [app csv_go]. rewrite H34, H44, H10, csv_go_plain by done.
    cbn [csv_go N.eqb Pos.eqb]. by rewrite Hrev.
  - intros rest. cbn [app csv_go]. rewrite H34, H44, H10, csv_go_plain by done.
    cbn [csv_go N.eqb Pos.eqb]. by rewrite Hrev.
  - cbn [csv_go]. rewrite H34, H44, H10.
    pose proof (csv_go_plain t [c] fields rows [] Ht) as Hp. rewrite app_nil_r in Hp.
    rewrite Hp. cbn [csv_go]. by rewrite Hrev.
Qed.

(** The title line, followed by a line feed or by the end. *)
Lemma csv_go_titles (ts : list jsstring) (t : jsstring) (fields : list jsstring)
    (rows : list (list jsstring)) :
  forallb (forallb csv_plain_char) (t :: ts) = true ->
  (forall rest,
      csv_go csv_start [] fields rows (join [44%N] (t :: ts) ++ 10%N :: rest)
      = csv_go csv_start [] [] ((rev fields ++ t :: ts) :: rows) rest)
  /\ csv_go csv_start [] fields rows (join [44%N] (t :: ts))
     = Some (rev ((rev fields ++ t :: ts) :: rows)).
Proof.
  revert t fields. induction ts as [|u us IH]; intros t fields Hplain.
  - cbn [forallb] in Hplain. apply andb_true_iff in Hplain as [Ht _].
    destruct (csv_go_title t fields rows Ht) as (_ & Hlf & Hend).
    cbn [join rev] in *. split; [exact Hlf|exact Hend].
  - cbn [forallb] in Hplain. apply andb_true_iff in Hplain as [Ht Hrest].
    destruct (csv_go_title t fields rows Ht) as (Hcomma & _ & _).
    destruct (IH u (t :: fields) Hrest) as [IH1 IH2].
    rewrite join_cons_cons. split.
    + intros rest. rewrite <- !app_assoc. cbn [app]. rewrite Hcomma, IH1.
      cbn [rev]. by rewrite <- (app_assoc (rev fields) [t] (u :: us)).
    + cbn [app]. rewrite Hcomma, IH2.
      cbn [rev]. by rewrite <- (app_assoc (rev fields) [t] (u :: us)).
Qed.

(** The records, one line each. *)
Lemma csv_go_rows (rs : list (list Cell)) (r : list Cell) (acc : list (list jsstring)) :
  Forall (fun row => row <> []) (r :: rs) ->
  csv_go csv_start [] [] acc
    (join [10%N] (List.map (fun row => join [44%N] (List.map Script.csv_cell row)) (r :: rs)))
  = Some (rev acc ++ List.map (List.map String_of_cell) (r :: rs)).
Proof.
  revert r acc. induction rs as [|r' rs IH]; intros r acc Hne.
  - apply Forall_cons in Hne as [Hr _]. destruct r as [|x xs]; [done|].
    change (csv_go csv_start [] [] acc (join [44%N] (List.map Script.csv_cell (x :: xs)))
            = Some (rev acc ++ [List.map String_of_cell (x :: xs)])).
    rewrite (proj2 (csv_go_row xs x [] acc)). cbn [rev app]. done.
  - apply Forall_cons in Hne as [Hr Hrest]. destruct r as [|x xs]; [done|].
    change (csv_go csv_start [] [] acc
              (join [44%N] (List.map Script.csv_cell (x :: xs)) ++ 10%N
               :: join [10%N]
                    (List.map (fun row => join [44%N] (List.map Script.csv_cell row))
                       (r' :: rs)))
            = Some (rev acc ++ List.map String_of_cell (x :: xs)
                    :: List.map (List.map String_of_cell) (r' :: rs))).
    rewrite (proj1 (csv_go_row xs x [] acc)).
    rewrite IH by done. cbn [rev app].
    by rewrite <- (app_assoc (rev acc) [_] _).
Qed.

(** CSV text made by [csvContent] reads back as the titles and the cells:
    the titles need no quoting, and every record has a cell. *)
Lemma csvContent_parses (titles : list jsstring) (rows : list (list Cell)) :
  titles <> [] ->
  forallb (forallb csv_plain_char) titles = true ->
  Forall (fun row => row <> []) rows ->
  csv_parse (Script.csvContent titles rows)
  = Some (titles :: List.map (List.map String_of_cell) rows).
Proof.
  intros Hne Hplain Hrows. destruct titles as [|t ts]; [done|].
  destruct (csv_go_titles ts t [] [] Hplain) as [Hlf Hend].
  unfold csv_parse, Script.csvContent. destruct rows as [|r rs].
  - change (csv_go csv_start [] [] [] (join [44%N] (t :: ts)) = Some [t :: ts]).
    rewrite Hend. done.
  - change (csv_go csv_start [] [] []
              (join [44%N] (t :: ts) ++ 10%N
               :: join [10%N]
                    (List.map (fun row => join [44%N] (List.map Script.csv_cell row))
                       (r :: rs)))
            = Some ((t :: ts) :: List.map (List.map String_of_cell) (r :: rs))).
    rewrite Hlf. cbn [rev app]. rewrite csv_go_rows by done. done.
Qed.

(** The file [exportToExcel] of [script.js] downloads: no file exactly
    when the store is empty; otherwise a byte order mark followed by CSV
    text that reads back as the five titles and then one row per stored
    record with its id, name, url, tags joined by a full-width comma, and
    createdAt, whatever characters (commas, quotes, line feeds) these hold.
    The rows are the stored records, each once; when every stored
    [createdAt] is a date the engine can read they are in the order of
    [createdAt], newest first, records of one [createdAt] in the order of
    [getAll]. *)
Theorem Script_export_file_parses `{Platform} (app : Script.App) :
  (Script.export_file app = None <-> Script.getAll (Script.db app) = [])
  /\ (forall text : jsstring,
      Script.export_file app = Some text ->
      exists (csv : jsstring) (rows : list Bookmark),
        text = 65279%N :: csv
        /\ csv_parse csv
           = Some (Script.headers
                   :: List.map (fun b => [String_of (Z.of_nat (b_id b)); b_name b; b_url b;
                                          join [65292%N] (b_tags b); b_createdAt b])
                        rows)
        /\ rows ≡ₚ Script.getAll (Script.db app)
        /\ (timed (fun b => Date_parse (b_createdAt b)) (Script.getAll (Script.db app)) ->
            newest_first (fun b => Date_parse (b_createdAt b))
              (Script.getAll (Script.db app)) rows)).
Proof.
  unfold Script.export_file, Script.exportToExcel.
  destruct (Script.getAll (Script.db app)) as [|b l] eqn:Hall.
  - cbn. split; [done|]. by intros text.
  - cbn [length Nat.eqb fst]. split; [by split|]. intros text [= <-].
    exists (Script.csvContent Script.headers
              (List.map Script.export_row (Array_sort Script.byCreatedAtDesc (b :: l)))),
      (Array_sort Script.byCreatedAtDesc (b :: l)).
    split; [reflexivity|]. split; [|split].
    + rewrite csvContent_parses.
      * f_equal. f_equal. rewrite map_map. reflexivity.
      * discriminate.
      * vm_compute. reflexivity.
      * rewrite Forall_forall. intros row Hrow. apply list_elem_of_In, in_map_iff in Hrow.
        destruct Hrow as (x & <- & _). discriminate.
    + apply Array_sort_Permutation.
    + intros Ht. apply Array_sort_newest_first; [apply @Script_cmp_time|done].
Qed.

Lemma Script_export_file_parses_witness :
  timed (fun b => @Date_parse ascii_platform (b_createdAt b)) (Script.getAll store_abc)
  /\ exists (text csv : jsstring) (rows : list Bookmark),
       @Script.export_file ascii_platform (Script.new_App store_abc) = Some text
       /\ text = 65279%N :: csv
       /\ csv_parse csv
          = Some (Script.headers
                  :: List.map (fun b => [String_of (Z.of_nat (b_id b)); b_name b; b_url b;
                                         join [65292%N] (b_tags b); b_createdAt b])
                       rows)
       /\ newest_first (fun b => @Date_parse ascii_platform (b_createdAt b))
            (Script.getAll store_abc) rows.
Proof.
  split; [exact store_abc_timed|].
  destruct (proj2 (@Script_export_file_parses ascii_platform (Script.new_App store_abc))
              _ eq_refl) as (csv & rows & Htext & Hparse & _ & Hnewest).
  eexists _, csv, rows. split; [reflexivity|]. split; [exact Htext|].
  split; [exact Hparse|]. exact (Hnewest store_abc_timed).
Defined.

Example csv_cell_ex :
  Script.csv_cell (CellStr [97; 34; 44; 98]%N) = [34; 97; 34; 34; 44; 98; 34]%N.
Proof. reflexivity. Qed.

(** ** Trimming twice *)

Lemma length_trimStart (s : jsstring) : (length (trimStart s) <= length s)%nat.
Proof.
  induction s as [|c s IH]; [done|]. cbn. destruct (isWhiteSpace c); cbn; lia.
Qed.

Lemma trimStart_fixed_head (c : N) (s : jsstring) :
  trimStart (c :: s) = c :: s -> isWhiteSpace c = false.
Proof.
  cbn. destruct (isWhiteSpace c); [|done]. intros Heq.
  pose proof (length_trimStart s) as Hlen. rewrite Heq in Hlen. cbn in Hlen. lia.
Qed.

Lemma trimStart_idem (s : jsstring) : trimStart (trimStart s) = trimStart s.
Proof.
  induction s as [|c s IH]; [done|]. cbn. destruct (isWhiteSpace c) eqn:Hc; [done|].
  cbn. by rewrite Hc.
Qed.

Lemma trimStart_split (s : jsstring) :
  exists w, s = w ++ trimStart s /\ forallb isWhiteSpace w = true.
Proof.
  induction s as [|c s (w & Hs & Hw)]; [by exists []|]. cbn.
  destruct (isWhiteSpace c) eqn:Hc.
  - exists (c :: w). cbn. rewrite Hc, Hw. split; [by f_equal|done].
  - by exists [].
Qed.

(** A text with no whitespace at either end. *)
Lemma trim_fixed_iff (s : jsstring) :
  trim s = s <-> trimStart s = s /\ trimStart (rev s) = rev s.
Proof.
  unfold trim, trimEnd. split.
  - intros Heq.
    assert (Hstart : trimStart s = s).
    { apply (f_equal (@length N)) in Heq as Hlen. rewrite length_rev in Hlen.
      pose proof (length_trimStart (rev (trimStart s))) as H1. rewrite length_rev in H1.
      destruct (trimStart_split s) as (w & Hs & Hw).
      apply (f_equal (@length N)) in Hs as Hl. rewrite length_app in Hl.
      destruct w as [|c w]; [by symmetry|]. cbn in Hl. lia. }
    split; [done|]. rewrite Hstart in Heq. apply (f_equal (@rev N)) in Heq.
    by rewrite rev_involutive in Heq.
  - intros [-> ->]. apply rev_involutive.
Qed.

Lemma trim_trim (s : jsstring) : trim (trim s) = trim s.
Proof.
  apply trim_fixed_iff. unfold trim, trimEnd. split.
  - set (x := trimStart s). assert (Hx : trimStart x = x) by apply trimStart_idem.
    destruct (trimStart_split (rev x)) as (w & Hrev & Hw).
    set (y := trimStart (rev x)) in *.
    assert (Hxz : x = rev y ++ rev w).
    { rewrite <- rev_app_distr, <- Hrev. by rewrite rev_involutive. }
    destruct (rev y) as [|c z] eqn:Hz; [done|].
    rewrite Hxz in Hx. cbn [app] in Hx. apply trimStart_fixed_head in Hx.
    cbn. by rewrite Hx.
  - rewrite rev_involutive. apply trimStart_idem.
Qed.

(** ** Tags through the edit form *)

Lemma Forall_sublist_of {A} (P : A -> Prop) (l k : list A) :
  l `sublist_of` k -> Forall P k -> Forall P l.
Proof.
  intros Hsub. rewrite !Forall_forall. intros Hk x Hx. apply Hk.
  by apply (sublist_subseteq _ _ Hsub).
Qed.

Lemma Tokens_gap (cls : N -> bool) (c : N) (s : jsstring) (ts : list jsstring) :
  cls c = true -> Tokens cls s ts -> Tokens cls (c :: s) ts.
Proof.
  intros Hc [g Hg|g t s' ts' Hg Hne Ht Hs Hts].
  - constructor. cbn. by rewrite Hc.
  - change (c :: g ++ t ++ s') with ((c :: g) ++ t ++ s'). constructor; try done.
    cbn. by rewrite Hc.
Qed.

Lemma Tokens_sepfree (cls : N -> bool) (s : jsstring) (ts : list jsstring) :
  Tokens cls s ts ->
  Forall (fun t => t <> [] /\ forallb (fun c => negb (cls c)) t = true) ts.
Proof. induction 1; constructor; done. Qed.

(** Words joined by one separator are the tokens of the joined text. *)
Lemma Tokens_join (cls : N -> bool) (sep : N) (tags : list jsstring) :
  cls sep = true ->
  Forall (fun t => t <> [] /\ forallb (fun c => negb (cls c)) t = true) tags ->
  Tokens cls (join [sep] tags) tags.
Proof.
  intros Hsep. induction 1 as [|t tags [Hne Ht] Htags IH].
  - by constructor.
  - destruct tags as [|u us].
    + replace (join [sep] [t]) with ([] ++ t ++ []) by (cbn; by rewrite app_nil_r).
      by apply (Tokens_next cls [] t []); try constructor.
    + rewrite join_cons_cons.
      apply (Tokens_next cls [] t ([sep] ++ join [sep] (u :: us)) (u :: us));
        [done|done|done|exact Hsep|by apply Tokens_gap].
Qed.

Lemma join_no_space (sep : N) (tags : list jsstring) :
  isWhiteSpace sep = false ->
  Forall (fun t => forallb (fun c => negb (isWhiteSpace c)) t = true) tags ->
  forallb (fun c => negb (isWhiteSpace c)) (join [sep] tags) = true.
Proof.
  intros Hsep. induction 1 as [|t tags Ht Htags IH]; [done|].
  destruct tags as [|u us]; [done|]. rewrite join_cons_cons, !forallb_app, Ht, IH.
  cbn. by rewrite Hsep.
Qed.

Section TagsRoundTrip.
Context `{Platform}.

Lemma uniqueTags_loop_id (tags : list jsstring) (seen : gset jsstring)
    (acc : list jsstring) :
  NoDup (toLowerCase <$> tags) ->
  (forall t, t ∈ tags -> toLowerCase t ∉ seen) ->
  Script.uniqueTags_loop tags seen acc = acc ++ tags.
Proof.
  revert seen acc. induction tags as [|t tags IH]; intros seen acc Hnd Hseen; cbn.
  - by rewrite app_nil_r.
  - apply NoDup_cons in Hnd as [Ht Hnd]. rewrite bool_decide_false.
    + rewrite IH; [by rewrite <- app_assoc|done|].
      intros u Hu. rewrite elem_of_union, elem_of_singleton. intros [Heq|Hin].
      * apply Ht. rewrite <- Heq. by apply list_elem_of_fmap_2.
      * apply (Hseen u); [|done]. apply elem_of_cons. auto.
    + apply Hseen, elem_of_cons. auto.
Qed.

Lemma Script_formTags_normal (input : jsstring) :
  Forall tag_word (Script.formTags input)
  /\ NoDup (toLowerCase <$> Script.formTags input).
Proof.
  split.
  - rewrite Script_formTags_tokens.
    destruct (uniqueTags_loop_sublist
                (kept_pieces (split_runs Script.isTagSeparator input)) ∅ [])
      as (kept & -> & Hsub).
    apply (Forall_sublist_of _ _ _ Hsub).
    apply (Tokens_sepfree Script.isTagSeparator input).
    apply kept_Tokens, isTagSeparator_space.
  - rewrite Script_formTags_tokens. apply uniqueTags_loop_NoDup; [constructor|].
    intros x Hx. by apply elem_of_nil in Hx.
Qed.

Lemma Script_formTags_join (tags : list jsstring) :
  Forall tag_word tags -> NoDup (toLowerCase <$> tags) ->
  Script.formTags (trim (join [65292%N] tags)) = tags.
Proof.
  intros Hwords Hnd.
  assert (Htrim : trim (join [65292%N] tags) = join [65292%N] tags).
  { apply (trim_word isWhiteSpace); [done|]. apply join_no_space; [done|].
    eapply Forall_impl; [exact Hwords|]. intros t [_ Ht]. cbn.
    rewrite forallb_forall in *. intros c Hc. specialize (Ht c Hc).
    apply negb_true_iff in Ht. apply negb_true_iff.
    destruct (isWhiteSpace c) eqn:Hw; [|done].
    by rewrite (isTagSeparator_space c Hw) in Ht. }
  rewrite Htrim, Script_formTags_tokens.
  rewrite (Tokens_kept Script.isTagSeparator isTagSeparator_space _ tags).
  - by rewrite uniqueTags_loop_id.
  - by apply Tokens_join.
Qed.

End TagsRoundTrip.

(** The tags [handleFormSubmit] of [script.js] stores are normal: none is
    empty or has a separator in it, and no two are equal ignoring case. And
    normal tags survive the edit form: joined by full-width commas, as
    [showEditModal] fills the field, and split again on submit, they are
    the same tags in the same order. *)
Theorem Script_tags_round_trip `{Platform} :
  (forall input : jsstring,
      Forall tag_word (Script.formTags input)
      /\ NoDup (toLowerCase <$> Script.formTags input))
  /\ (forall tags : list jsstring,
      Forall tag_word tags -> NoDup (toLowerCase <$> tags) ->
      Script.formTags (trim (join [65292%N] tags)) = tags).
Proof. split; [apply Script_formTags_normal|apply Script_formTags_join]. Qed.

Lemma Script_tags_round_trip_witness :
  Forall tag_word [str "dev"; str "tools"]
  /\ NoDup (@toLowerCase ascii_platform <$> [str "dev"; str "tools"])
  /\ @Script.formTags ascii_platform (trim (join [65292%N] [str "dev"; str "tools"]))
     = [str "dev"; str "tools"].
Proof.
  assert (Hw : Forall tag_word [str "dev"; str "tools"])
    by (repeat constructor; discriminate).
  assert (Hnd : NoDup (@toLowerCase ascii_platform <$> [str "dev"; str "tools"])).
  { cbn. repeat constructor; rewrite ?elem_of_cons, ?elem_of_nil; intros Hin;
      repeat destruct Hin as [Hin|Hin]; done. }
  split; [exact Hw|]. split; [exact Hnd|].
  exact (proj2 (@Script_tags_round_trip ascii_platform) _ Hw Hnd).
Defined.

Lemma split_at_piece (sep : N) (t cur rest : jsstring) :
  sep ∉ t ->
  split_at sep cur (t ++ sep :: rest) = (rev cur ++ t) :: split_at sep [] rest.
Proof.
  revert cur. induction t as [|c t IH]; intros cur Ht.
  - cbn. rewrite N.eqb_refl. by rewrite app_nil_r.
  - apply not_elem_of_cons in Ht as [Hc Ht]. cbn [app split_at].
    destruct (N.eqb_spec c sep) as [->|_]; [done|]. rewrite IH by done.
    cbn [rev]. by rewrite <- (app_assoc (rev cur) [c] t).
Qed.

Lemma split_at_last (sep : N) (t cur : jsstring) :
  sep ∉ t -> split_at sep cur t = [rev cur ++ t].
Proof.
  revert cur. induction t as [|c t IH]; intros cur Ht.
  - cbn. by rewrite app_nil_r.
  - apply not_elem_of_cons in Ht as [Hc Ht]. cbn [split_at].
    destruct (N.eqb_spec c sep) as [->|_]; [done|]. rewrite IH by done.
    cbn [rev]. by rewrite <- (app_assoc (rev cur) [c] t).
Qed.

Lemma split_join_comma_space (us : list jsstring) (t cur : jsstring) :
  44%N ∉ t -> Forall (fun u => 44%N ∉ u) us ->
  split_at 44 cur (join (str ", ") (t :: us)) = (rev cur ++ t) :: List.map (cons 32%N) us.
Proof.
  revert t cur. induction us as [|u us IH]; intros t cur Ht Hus.
  - cbn [join List.map]. by apply split_at_last.
  - apply Forall_cons in Hus as [Hu Hus]. rewrite join_cons_cons.
    change (str ", " ++ join (str ", ") (u :: us))
      with (44%N :: 32%N :: join (str ", ") (u :: us)).
    rewrite split_at_piece by done. cbn [split_at N.eqb Pos.eqb].
    rewrite IH by done. reflexivity.
Qed.

Lemma elem_of_trimStart (x : N) (s : jsstring) : x ∈ trimStart s -> x ∈ s.
Proof.
  destruct (trimStart_split s) as (w & Hs & _). intros Hx. rewrite Hs.
  apply elem_of_app. auto.
Qed.

Lemma elem_of_trim (x : N) (s : jsstring) : x ∈ trim s -> x ∈ s.
Proof.
  unfold trim, trimEnd. rewrite elem_of_rev_iff. intros Hx%elem_of_trimStart.
  rewrite elem_of_rev_iff in Hx. by apply elem_of_trimStart.
Qed.

Lemma Forall_take_of {A} (P : A -> Prop) (n : nat) (l : list A) :
  Forall P l -> Forall P (take n l).
Proof. apply Forall_sublist_of. apply sublist_take. Qed.

Lemma trim_after_space (u : jsstring) : trim (32%N :: u) = trim u.
Proof. reflexivity. Qed.

Lemma kept_spaced (us : list jsstring) :
  Forall plain_tag us ->
  List.filter truthy (List.map trim (List.map (cons 32%N) us)) = us.
Proof.
  induction 1 as [|u us (Hu & Htrim & _) _ IH]; [done|].
  cbn [List.map List.filter]. rewrite trim_after_space, Htrim, IH. by destruct u.
Qed.

Lemma Unnamed_parseTags_plain (input : jsstring) :
  Forall plain_tag (Unnamed.parseTags input)
  /\ (length (Unnamed.parseTags input) <= 12)%nat.
Proof.
  assert (Hp : Unnamed.parseTags input
               = take 12 (List.filter truthy (List.map trim (split_char 44 input)))).
  { unfold Unnamed.parseTags. destruct input; [done|]. cbn [truthy negb].
    by rewrite slice_from_0. }
  rewrite Hp. split; [|rewrite length_take; lia].
  apply Forall_take_of. rewrite Forall_forall. intros t Ht.
  apply list_elem_of_In, filter_In in Ht as [Ht Hne].
  apply in_map_iff in Ht as (piece & <- & Hpiece).
  pose proof (split_at_no_sep 44 [] input (not_elem_of_nil _)) as Hsep.
  rewrite Forall_forall in Hsep. specialize (Hsep piece).
  split; [by destruct (trim piece)|]. split; [apply trim_trim|].
  intros Hin%elem_of_trim. apply Hsep; [|done]. by apply list_elem_of_In.
Qed.

Lemma Unnamed_parseTags_join (tags : list jsstring) :
  Forall plain_tag tags -> (length tags <= 12)%nat ->
  Unnamed.parseTags (join (str ", ") tags) = tags.
Proof.
  intros Hplain Hlen. destruct tags as [|t us]; [done|].
  unfold Unnamed.parseTags.
  assert (Hne : truthy (join (str ", ") (t :: us)) = true).
  { apply Forall_cons in Hplain as [[Ht _] _].
    destruct us; [by destruct t|]. rewrite join_cons_cons. by destruct t. }
  rewrite Hne. cbn [negb]. rewrite slice_from_0 by lia.
  unfold split_char. rewrite split_join_comma_space.
  + cbn [rev app].
    assert (Hpieces : List.filter truthy (List.map trim (t :: List.map (cons 32%N) us))
                      = t :: us).
    { apply Forall_cons in Hplain as [(Ht & Htrim & _) Hus].
      cbn [List.map List.filter]. rewrite Htrim, kept_spaced by done.
      by destruct t. }
    rewrite Hpieces. apply take_ge. cbn in *. lia.
  + by apply Forall_cons in Hplain as [(_ & _ & Ht) _].
  + apply Forall_cons in Hplain as [_ Hus]. eapply Forall_impl; [exact Hus|].
    by intros u (_ & _ & Hu).
Qed.

(** The tags [parseTags] of the second implementation returns are plain:
    none is empty, untrimmed or has a comma; there are at most twelve. And
    up to twelve plain tags survive the edit form: joined by ", ", as
    [fillFormForEdit] fills the field, and parsed again on submit, they are
    the same tags in the same order. *)
Theorem Unnamed_tags_round_trip :
  (forall input : jsstring,
      Forall plain_tag (Unnamed.parseTags input)
      /\ (length (Unnamed.parseTags input) <= 12)%nat)
  /\ (forall tags : list jsstring,
      Forall plain_tag tags -> (length tags <= 12)%nat ->
      Unnamed.parseTags (join (str ", ") tags) = tags).
Proof. split; [apply Unnamed_parseTags_plain|apply Unnamed_parseTags_join]. Qed.

Lemma Unnamed_tags_round_trip_witness :
  Forall plain_tag [str "dev"; str "Dev"; str "web tools"]
  /\ Unnamed.parseTags (join (str ", ") [str "dev"; str "Dev"; str "web tools"])
     = [str "dev"; str "Dev"; str "web tools"].
Proof.
  assert (Hp : Forall plain_tag [str "dev"; str "Dev"; str "web tools"]).
  { constructor; [|constructor; [|constructor; [|constructor]]];
      (split; [discriminate|split; [reflexivity|]]);
      cbn; rewrite ?elem_of_cons, elem_of_nil; intros Hin;
      repeat destruct Hin as [Hin|Hin]; done. }
  split; [exact Hp|].
  exact (proj2 Unnamed_tags_round_trip _ Hp ltac:(cbn; lia)).
Defined.

(** ** Normal records in [script.js] *)

Lemma truthy_true_iff (s : jsstring) : truthy s = true <-> s <> [].
Proof. by destruct s. Qed.

Section ScriptNormal.
Context `{Platform}.

Lemma Script_submitted_normal (n u t : jsstring) (id : nat) (c : jsstring) (p : jsstring) :
  truthy (trim n) = true -> truthy (trim u) = true ->
  URL_protocol (trim u) = Some p ->
  Script_normal {| b_id := id; b_name := trim n; b_url := trim u;
                   b_tags := Script.formTags (trim t); b_createdAt := c |}.
Proof.
  intros Hn Hu Hp. unfold Script_normal. cbn.
  destruct (Script_formTags_normal (trim t)) as [Hw Hnd].
  split; [by apply truthy_true_iff|]. split; [apply trim_trim|].
  split; [by apply truthy_true_iff|]. split; [apply trim_trim|].
  split; [by rewrite Hp|]. done.
Qed.

Lemma Script_handleFormSubmit_normal (app : Script.App) (now : Date) (n u t q : jsstring) :
  all_records Script_normal (Script.db app) ->
  all_records Script_normal (Script.db (fst (Script.handleFormSubmit app now n u t q))).
Proof.
  intros Hall. unfold Script.handleFormSubmit.
  destruct (truthy (trim n)) eqn:Hn; cbn [negb orb]; [|done].
  destruct (truthy (trim u)) eqn:Hu; cbn [negb]; [|done].
  destruct (URL_protocol (trim u)) as [p|] eqn:Hp; [|done].
  destruct (truthy_id (Script.currentEditId app)) as [editId|].
  - unfold Script.update. destruct (IDB_get (Script.db app) editId) as [data|] eqn:Hget;
      [|done].
    cbn [fst IDB_put]. rewrite Script_loadBookmarks_db.
    intros k b. cbn -[Script_normal]. rewrite lookup_insert. case_decide as Hk; [|apply Hall].
    intros [= <-]. by eapply Script_submitted_normal.
  - cbn [fst Script.add IDB_add]. rewrite Script_loadBookmarks_db.
    intros k b. cbn -[Script_normal]. rewrite lookup_insert. case_decide as Hk; [|apply Hall].
    intros [= <-]. by eapply Script_submitted_normal.
Qed.

Lemma Script_step_normal (app : Script.App) (ev : ScriptEvent) :
  all_records Script_normal (Script.db app) ->
  all_records Script_normal (Script.db (Script_step app ev)).
Proof.
  intros Hall. destruct ev as [q|page| |id| |id| |now n u t q|q]; cbn [Script_step];
    try done.
  - unfold Script.handleSearch. by rewrite Script_loadBookmarks_db.
  - unfold Script.goToPage. by destruct (_ || _).
  - unfold Script.showEditModal. by destruct (Script.get _ _).
  - by apply Script_handleFormSubmit_normal.
  - unfold Script.confirmDelete. destruct (truthy_id _); [|done].
    cbn [fst Script.delete]. rewrite Script_loadBookmarks_db.
    intros k b. cbn -[Script_normal]. rewrite lookup_delete. case_decide; [done|]. apply Hall.
Qed.

Lemma Script_run_normal (app : Script.App) (evs : list ScriptEvent) :
  all_records Script_normal (Script.db app) ->
  all_records Script_normal (Script.db (Script_run app evs)).
Proof.
  revert app. induction evs as [|ev evs IH]; intros app Hall; [done|].
  cbn. apply IH. by apply Script_step_normal.
Qed.

End ScriptNormal.

(** Sessions of [script.js] keep the records normal: if every record of
    the store is normal at the start (as in the empty store), then in every
    state of the session every stored record has a trimmed, non-empty name,
    a trimmed, non-empty url that the [URL] constructor accepts, and tags
    that are non-empty, free of separators and pairwise different ignoring
    case. *)
Theorem Script_records_normal `{Platform} (store : ObjectStore) (evs : list ScriptEvent) :
  all_records Script_normal store ->
  all_records Script_normal (Script.db (Script_run (Script.init store) evs)).
Proof.
  intros Hall. apply Script_run_normal. unfold Script.init.
  by rewrite Script_loadBookmarks_db.
Qed.

Lemma Script_records_normal_witness :
  all_records (@Script_normal ascii_platform) empty_store
  /\ all_records (@Script_normal ascii_platform)
       (Script.db (@Script_run ascii_platform (@Script.init ascii_platform empty_store)
                     demo_session))
  /\ List.map b_tags
       (Script.getAll
          (Script.db (@Script_run ascii_platform (@Script.init ascii_platform empty_store)
                        (firstn 2 demo_session))))
     = [[str "x"; str "y"]].
Proof.
  assert (Hempty : all_records (@Script_normal ascii_platform) empty_store).
  { intros k b Hk. cbn in Hk. by rewrite lookup_empty in Hk. }
  split; [exact Hempty|]. split.
  - exact (@Script_records_normal ascii_platform empty_store demo_session Hempty).
  - vm_compute. reflexivity.
Defined.

(** Saving the edit form of [script.js] unchanged changes nothing in the
    store: for a normal record, opening the edit form ([showEditModal],
    which fills name, url and the tags joined by full-width commas) and
    submitting these values reports the update and leaves the store exactly
    as it was. *)
Theorem Script_edit_unchanged `{Platform} (app : Script.App) (id : nat) (b : Bookmark)
    (now : Date) (searchInput : jsstring) :
  store_wf (Script.db app) ->
  Script.get (Script.db app) id = Some b ->
  Script_normal b ->
  let app1 := fst (Script.showEditModal app id) in
  let '(name, url, tags) := Script.editFields b in
  Script.currentEditId app1 = Some id
  /\ exists app2,
       Script.handleFormSubmit app1 now name url tags searchInput
       = (app2, Script.Toast_updated)
       /\ Script.db app2 = Script.db app
       /\ Script.currentEditId app2 = None.
Proof.
  intros Hwf Hget (Hn & Htn & Hu & Htu & [p Hp] & Hw & Hnd). cbn zeta.
  unfold Script.get in Hget.
  unfold Script.editFields, Script.showEditModal, Script.get. rewrite Hget. cbn [fst].
  split; [done|].
  destruct (Hwf id b Hget) as [Hid Hrange].
  unfold Script.handleFormSubmit. rewrite Htn, Htu, Hp.
  rewrite (proj2 (truthy_true_iff _) Hn), (proj2 (truthy_true_iff _) Hu). cbn [negb orb].
  rewrite Script_formTags_join by done.
  cbn [Script.set_edit Script.currentEditId].
  destruct id as [|id']; [lia|]. cbn [truthy_id].
  unfold Script.update. cbn [Script.set_edit Script.db]. rewrite Hget.
  eexists. split; [reflexivity|]. rewrite Script_loadBookmarks_db. cbn.
  split; [|unfold Script.loadBookmarks; by destruct (truthy searchInput)].
  destruct b as [bid bname burl btags bcreated]. cbn in *. subst bid.
  destruct (Script.db app) as [m g] eqn:Hdb. cbn in *. f_equal.
  - by apply insert_id.
  - lia.
Qed.

Lemma Script_edit_unchanged_witness :
  store_wf demo_store
  /\ Script.get demo_store 1 = Some demo_record
  /\ @Script_normal ascii_platform demo_record
  /\ exists app2,
       @Script.handleFormSubmit ascii_platform
         (fst (Script.showEditModal (Script.new_App demo_store) 1)) demo_now
         (str "Rocq") (str "https://rocq-prover.org/") (join [65292%N] [str "dev"; str "tools"])
         [] = (app2, Script.Toast_updated)
       /\ Script.db app2 = demo_store
       /\ Script.currentEditId app2 = None.
Proof.
  assert (Hnormal : @Script_normal ascii_platform demo_record).
  { unfold Script_normal. cbn.
    repeat split; try discriminate; try reflexivity.
    - eexists. vm_compute. reflexivity.
    - repeat constructor; discriminate.
    - repeat constructor; rewrite ?elem_of_cons, ?elem_of_nil; intros Hin;
        repeat destruct Hin as [Hin|Hin]; done. }
  split; [exact demo_store_wf|]. split; [exact demo_store_get|]. split; [exact Hnormal|].
  exact (proj2 (@Script_edit_unchanged ascii_platform (Script.new_App demo_store) 1%nat
                  demo_record demo_now [] demo_store_wf demo_store_get Hnormal)).
Defined.

(** ** The printed clock has no whitespace at its ends *)

Lemma digits_solid (u : Decimal.uint) :
  forallb (fun c => negb (isWhiteSpace c)) (digits u) = true.
Proof. induction u; cbn; done. Qed.

Lemma digits_nil (u : Decimal.uint) : digits u = [] -> u = Nil.
Proof. by destruct u. Qed.

Lemma String_of_solid (n : Z) :
  String_of n <> [] /\ forallb (fun c => negb (isWhiteSpace c)) (String_of n) = true.
Proof.
  unfold String_of. destruct n as [|p|p]; cbn.
  - done.
  - split; [|apply digits_solid]. intros Hnil%digits_nil.
    by apply (DecimalPos.Unsigned.to_uint_nonnil p).
  - split; [done|]. apply digits_solid.
Qed.

Lemma padStart_solid (s : jsstring) :
  s <> [] -> forallb (fun c => negb (isWhiteSpace c)) s = true ->
  padStart 2 48 s <> [] /\ forallb (fun c => negb (isWhiteSpace c)) (padStart 2 48 s) = true.
Proof.
  intros Hne Hs. unfold padStart. split.
  - destruct s; [done|]. by destruct (replicate _ _).
  - rewrite forallb_app, Hs, andb_true_r. by induction (2 - length s)%nat.
Qed.

Lemma trim_solid_ends (a mid b : jsstring) :
  a <> [] -> forallb (fun c => negb (isWhiteSpace c)) a = true ->
  b <> [] -> forallb (fun c => negb (isWhiteSpace c)) b = true ->
  trim (a ++ mid ++ b) = a ++ mid ++ b.
Proof.
  intros Ha Hsa Hb Hsb. apply trim_fixed_iff. split.
  - destruct a as [|c a]; [done|]. cbn in *. apply andb_true_iff in Hsa as [Hc _].
    apply negb_true_iff in Hc. by rewrite Hc.
  - rewrite !rev_app_distr, <- app_assoc.
    assert (Hrb : rev b <> []) by (destruct b; [done|]; cbn; by destruct (rev b)).
    rewrite <- forallb_rev in Hsb.
    destruct (rev b) as [|c rb]; [done|]. cbn in *. apply andb_true_iff in Hsb as [Hc _].
    apply negb_true_iff in Hc. by rewrite Hc.
Qed.

Lemma Unnamed_fmtDate_trimmed (d : Date) : trim (Unnamed.fmtDate d) = Unnamed.fmtDate d.
Proof.
  unfold Unnamed.fmtDate, Unnamed.pad.
  destruct (String_of_solid (getFullYear d)) as [Hy Hsy].
  destruct (String_of_solid (getMinutes d)) as [Hm Hsm].
  destruct (padStart_solid _ Hm Hsm) as [Hp Hsp].
  set (Y := String_of (getFullYear d)) in *.
  set (M := padStart 2 48 (String_of (getMinutes d))) in *.
  cbn zeta.
  replace (Y ++ str "-" ++ padStart 2 48 (String_of (getMonth d + 1)) ++ str "-"
           ++ padStart 2 48 (String_of (getDate d)) ++ str " "
           ++ padStart 2 48 (String_of (getHours d)) ++ str ":" ++ M)
    with (Y ++ (str "-" ++ padStart 2 48 (String_of (getMonth d + 1)) ++ str "-"
                ++ padStart 2 48 (String_of (getDate d)) ++ str " "
                ++ padStart 2 48 (String_of (getHours d)) ++ str ":") ++ M)
    by (by rewrite <- !app_assoc).
  by apply trim_solid_ends.
Qed.

(** ** Normal records in the second implementation *)

Section UnnamedNormal.
Context `{Platform}.

Lemma Unnamed_onFormSubmit_normal (st : Unnamed.State) (now : Date) (mode : Unnamed.Mode)
    (id : nat) (u n t c : jsstring) :
  all_records Unnamed_normal (Unnamed.db st) ->
  all_records Unnamed_normal
    (Unnamed.db (fst (Unnamed.onFormSubmit st now mode id u n t c))).
Proof.
  intros Hall. unfold Unnamed.onFormSubmit.
  destruct (Unnamed.isValidUrl (trim u)) eqn:Hv; cbn [negb]; [|done].
  destruct (truthy (trim n)) eqn:Hn; cbn [negb]; [|done].
  destruct (Unnamed_parseTags_plain t) as [Hplain Hlen].
  destruct mode.
  - cbn -[Unnamed.refreshList Unnamed_normal]. rewrite Unnamed_refreshList_db_eq.
    intros k b. cbn -[Unnamed_normal]. rewrite lookup_insert. case_decide as Hk; [|apply Hall].
    intros [= <-]. unfold Unnamed_normal. cbn.
    split; [by apply truthy_true_iff|]. split; [apply trim_trim|].
    split; [apply trim_trim|]. split; [done|]. split; [done|]. split; [done|].
    apply Unnamed_fmtDate_trimmed.
  - unfold Unnamed.updateBookmark.
    destruct (IDB_get (Unnamed.db st) id) as [val|] eqn:Hget; [|done].
    cbn -[Unnamed.refreshList Unnamed_normal]. rewrite Unnamed_refreshList_db_eq.
    intros k b. cbn -[Unnamed_normal]. rewrite lookup_insert. case_decide as Hk; [|apply Hall].
    intros [= <-]. unfold Unnamed_normal. cbn.
    split; [by apply truthy_true_iff|]. split; [apply trim_trim|].
    split; [apply trim_trim|]. split; [done|]. split; [done|]. split; [done|].
    destruct (truthy (trim c)); [apply trim_trim|].
    by destruct (Hall id val Hget) as (_ & _ & _ & _ & _ & _ & Hc).
Qed.

Lemma Unnamed_step_normal (st : Unnamed.State) (ev : UnnamedEvent) :
  all_records Unnamed_normal (Unnamed.db st) ->
  all_records Unnamed_normal (Unnamed.db (Unnamed_step st ev)).
Proof.
  intros Hall. destruct ev as [q|n|id action|now form|]; cbn [Unnamed_step]; try done.
  - by destruct (Unnamed.pagination_of st !! n).
  - unfold Unnamed.onCardActionClick. destruct action; [by destruct (List.find _ _)|done].
  - by apply Unnamed_onFormSubmit_normal.
  - unfold Unnamed.onConfirmDelete. destruct (truthy_id _); [|done].
    cbn -[Unnamed.refreshList Unnamed_normal]. rewrite Unnamed_refreshList_db_eq.
    intros k b. cbn -[Unnamed_normal]. rewrite lookup_delete. case_decide; [done|]. apply Hall.
Qed.

Lemma Unnamed_run_normal (st : Unnamed.State) (evs : list UnnamedEvent) :
  all_records Unnamed_normal (Unnamed.db st) ->
  all_records Unnamed_normal (Unnamed.db (Unnamed_run st evs)).
Proof.
  revert st. induction evs as [|ev evs IH]; intros st Hall; [done|].
  cbn. apply IH. by apply Unnamed_step_normal.
Qed.

End UnnamedNormal.

(** Sessions of the second implementation keep the records normal: if
    every record of the store is normal at the start (as in the empty
    store), then in every state of the session every stored record has a
    trimmed, non-empty name, a trimmed url with the protocol http or https,
    at most twelve tags, none of them empty, untrimmed or with a comma, and
    a [createdAt] without whitespace at its ends. *)
Theorem Unnamed_records_normal `{Platform} (store : ObjectStore) (evs : list UnnamedEvent) :
  all_records Unnamed_normal store ->
  all_records Unnamed_normal (Unnamed.db (Unnamed_run (Unnamed.boot store) evs)).
Proof. intros Hall. by apply Unnamed_run_normal. Qed.

Lemma Unnamed_records_normal_witness :
  all_records (@Unnamed_normal ascii_platform) empty_store
  /\ all_records (@Unnamed_normal ascii_platform)
       (Unnamed.db (@Unnamed_run ascii_platform (@Unnamed.boot ascii_platform empty_store)
                      demo_session2)).
Proof.
  assert (Hempty : all_records (@Unnamed_normal ascii_platform) empty_store).
  { intros k b Hk. cbn in Hk. by rewrite lookup_empty in Hk. }
  split; [exact Hempty|].
  exact (@Unnamed_records_normal ascii_platform empty_store demo_session2 Hempty).
Defined.

(** Saving the edit form of the second implementation unchanged changes
    nothing in the store: when the records are normal and the edit button
    of a listed card fills the form ([onCardActionClick], [fillFormForEdit]),
    submitting the form as filled saves and leaves the store exactly as it
    was. *)
Theorem Unnamed_edit_unchanged `{Platform} (st : Unnamed.State) (id : nat)
    (form : Unnamed.Form) (now : Date) :
  Unnamed_inv st ->
  all_records Unnamed_normal (Unnamed.db st) ->
  Unnamed.onCardActionClick st id Unnamed.action_edit = (st, Some form) ->
  exists st',
    Unnamed.submit st now form = (st', Unnamed.Saved)
    /\ Unnamed.db st' = Unnamed.db st.
Proof.
  intros (Hwf & _ & Hitems) Hall Hclick. unfold Unnamed.onCardActionClick in Hclick.
  destruct (List.find _ _) as [item|] eqn:Hfind; [|done].
  injection Hclick as <-.
  apply find_some in Hfind as [Hin Hid]. apply list_elem_of_In in Hin.
  specialize (Hitems item Hin). unfold IDB_get in Hitems.
  destruct (Hall _ _ Hitems) as (Hn & Htn & Htu & Hv & Hplain & Hlen & Hc).
  destruct (Hwf _ _ Hitems) as [_ Hrange].
  unfold Unnamed.submit, Unnamed.fillFormForEdit, Unnamed.onFormSubmit.
  cbn [Unnamed.mode Unnamed.f_id Unnamed.f_url Unnamed.f_name Unnamed.f_tags
       Unnamed.f_createdAt].
  rewrite Htn, Htu, Hv, Hc, (proj2 (truthy_true_iff _) Hn). cbn [negb].
  rewrite Unnamed_parseTags_join by done.
  unfold Unnamed.updateBookmark, IDB_get. rewrite Hitems.
  eexists. split; [reflexivity|]. rewrite Unnamed_refreshList_db_eq. cbn.
  destruct item as [bid bname burl btags bcreated]. cbn in *.
  destruct (Unnamed.db st) as [m g] eqn:Hdb. cbn in *. f_equal.
  - apply insert_id. rewrite Hitems. f_equal. unfold Unnamed.merge. cbn.
    f_equal. by destruct bcreated.
  - lia.
Qed.

Lemma Unnamed_edit_unchanged_witness :
  let st := @Unnamed_run ascii_platform (@Unnamed.boot ascii_platform empty_store)
              (firstn 2 demo_session2) in
  Unnamed_inv st
  /\ all_records (@Unnamed_normal ascii_platform) (Unnamed.db st)
  /\ Unnamed.onCardActionClick st 1 Unnamed.action_edit
     = (st, Some {| Unnamed.mode := Unnamed.mode_edit; Unnamed.f_id := 1;
                    Unnamed.f_url := str "https://a.example/";
                    Unnamed.f_name := str "Alpha"; Unnamed.f_tags := str "x, y";
                    Unnamed.f_createdAt := str "2026-11-02 09:01" |})
  /\ exists st',
       @Unnamed.submit ascii_platform st demo_now
         {| Unnamed.mode := Unnamed.mode_edit; Unnamed.f_id := 1;
            Unnamed.f_url := str "https://a.example/";
            Unnamed.f_name := str "Alpha"; Unnamed.f_tags := str "x, y";
            Unnamed.f_createdAt := str "2026-11-02 09:01" |}
       = (st', Unnamed.Saved)
       /\ Unnamed.db st' = Unnamed.db st.
Proof.
  intros st.
  assert (Hinv : Unnamed_inv st).
  { apply (@Unnamed_run_inv ascii_platform), (@Unnamed_boot_inv ascii_platform).
    exact empty_store_wf. }
  assert (Hall : all_records (@Unnamed_normal ascii_platform) (Unnamed.db st)).
  { apply (@Unnamed_run_normal ascii_platform). intros k b Hk. cbn in Hk.
    by rewrite lookup_empty in Hk. }
  assert (Hclick : Unnamed.onCardActionClick st 1 Unnamed.action_edit
     = (st, Some {| Unnamed.mode := Unnamed.mode_edit; Unnamed.f_id := 1;
                    Unnamed.f_url := str "https://a.example/";
                    Unnamed.f_name := str "Alpha"; Unnamed.f_tags := str "x, y";
                    Unnamed.f_createdAt := str "2026-11-02 09:01" |})).
  { vm_compute. reflexivity. }
  split; [exact Hinv|]. split; [exact Hall|]. split; [exact Hclick|].
  exact (@Unnamed_edit_unchanged ascii_platform st 1%nat _ demo_now Hinv Hall Hclick).
Defined.

(** ** Relative dates and shortened urls in [script.js] *)

(** What [formatDate] of [script.js] can answer. With a day of 86400000
    milliseconds: "today" and "yesterday" are the first and the second day
    back from the clock; a count of days is from 2 to 6 or negative; a
    count of weeks is from 1 to 4; a count of months is from 1 to 12; the
    locale date is for a text that does not parse and for dates at least
    365 days back. *)
Theorem Script_formatDate_ranges `{Platform} (now : Z) (dateString : jsstring) :
  match Script.formatDate now dateString with
  | Script.Today =>
      exists date, Date_parse dateString = Some date /\ 0 <= now - date < 86400000
  | Script.Yesterday =>
      exists date, Date_parse dateString = Some date
                   /\ 86400000 <= now - date < 2 * 86400000
  | Script.DaysAgo days =>
      exists date, Date_parse dateString = Some date
                   /\ days = (now - date) / 86400000
                   /\ (2 <= days <= 6 \/ days < 0)
  | Script.WeeksAgo weeks =>
      exists date, Date_parse dateString = Some date
                   /\ weeks = (now - date) / 86400000 / 7
                   /\ 1 <= weeks <= 4
  | Script.MonthsAgo months =>
      exists date, Date_parse dateString = Some date
                   /\ months = (now - date) / 86400000 / 30
                   /\ 1 <= months <= 12
  | Script.LocaleDate =>
      Date_parse dateString = None
      \/ exists date, Date_parse dateString = Some date
                      /\ 365 * 86400000 <= now - date
  end.
Proof.
  unfold Script.formatDate. destruct (Date_parse dateString) as [date|]; [|by left].
  change (1000 * 60 * 60 * 24) with 86400000. cbn zeta.
  pose proof (Z.div_mod (now - date) 86400000 ltac:(lia)) as Hdm.
  pose proof (Z.mod_pos_bound (now - date) 86400000 ltac:(lia)) as Hmod.
  set (days := (now - date) / 86400000) in *.
  destruct (days =? 0) eqn:H0; [exists date; split; [done|lia]|].
  destruct (days =? 1) eqn:H1; [exists date; split; [done|lia]|].
  destruct (days <? 7) eqn:H7; [exists date; split; [done|]; split; [done|lia]|].
  destruct (days <? 30) eqn:H30.
  { exists date. split; [done|]. split; [done|].
    pose proof (Z.div_mod days 7 ltac:(lia)). pose proof (Z.mod_pos_bound days 7 ltac:(lia)).
    lia. }
  destruct (days <? 365) eqn:H365.
  { exists date. split; [done|]. split; [done|].
    pose proof (Z.div_mod days 30 ltac:(lia)). pose proof (Z.mod_pos_bound days 30 ltac:(lia)).
    lia. }
  right. exists date. split; [done|lia].
Qed.

(** A date after the clock is shown by [formatDate] of [script.js] as a
    negative count of days: no branch of the function is for the future. *)
Theorem Script_formatDate_future `{Platform} (now date : Z) (dateString : jsstring) :
  Date_parse dateString = Some date ->
  now < date ->
  exists days, Script.formatDate now dateString = Script.DaysAgo days /\ days < 0.
Proof.
  intros Hparse Hlt. unfold Script.formatDate. rewrite Hparse.
  change (1000 * 60 * 60 * 24) with 86400000. cbn zeta.
  pose proof (Z.div_mod (now - date) 86400000 ltac:(lia)) as Hdm.
  pose proof (Z.mod_pos_bound (now - date) 86400000 ltac:(lia)) as Hmod.
  set (days := (now - date) / 86400000) in *.
  assert (Hneg : days < 0) by lia.
  exists days. split; [|done].
  destruct (days =? 0) eqn:H0; [lia|]. destruct (days =? 1) eqn:H1; [lia|].
  destruct (days <? 7) eqn:H7; [done|lia].
Qed.

Lemma Script_formatDate_future_witness :
  @Date_parse ascii_platform (str "2026-11-03 09:00") = Some 1793696400000
  /\ 1793610000000 < 1793696400000
  /\ exists days,
       @Script.formatDate ascii_platform 1793610000000 (str "2026-11-03 09:00")
       = Script.DaysAgo days /\ days < 0.
Proof.
  split; [vm_compute; reflexivity|]. split; [lia|].
  exact (@Script_formatDate_future ascii_platform 1793610000000 1793696400000
           (str "2026-11-03 09:00") eq_refl eq_refl).
Defined.

(** [truncateUrl] of [script.js] never returns more than 50 code units,
    whether the [URL] constructor accepts the text or throws; and what it
    returns is either the whole display text or its first 47 code units
    followed by three dots. *)
Theorem Script_truncateUrl_short `{UrlParts} (url : jsstring) :
  (length (Script.truncateUrl url) <= 50)%nat
  /\ exists display,
       display = match URL_hostname_pathname url with
                 | Some (hostname, pathname) => hostname ++ pathname
                 | None => url
                 end
       /\ (Script.truncateUrl url = display
           \/ ((50 < length display)%nat
               /\ Script.truncateUrl url = take 47 display ++ str "...")).
Proof.
  unfold Script.truncateUrl.
  destruct (URL_hostname_pathname url) as [[hostname pathname]|].
  - destruct (50 <? length (hostname ++ pathname))%nat eqn:Hlen.
    + apply Nat.ltb_lt in Hlen. split.
      * rewrite length_app, length_take. change (length (str "...")) with 3%nat. lia.
      * eexists. split; [reflexivity|]. by right.
    + apply Nat.ltb_ge in Hlen. split; [done|]. eexists. split; [reflexivity|]. by left.
  - destruct (50 <? length url)%nat eqn:Hlen.
    + apply Nat.ltb_lt in Hlen. split.
      * rewrite length_app, length_take. change (length (str "...")) with 3%nat. lia.
      * eexists. split; [reflexivity|]. by right.
    + apply Nat.ltb_ge in Hlen. split; [done|]. eexists. split; [reflexivity|]. by left.
Qed.
